(** * ElementaryJS: the safety runtime and the restriction pass

    A shallow embedding of [src/ts/runtime.ts] and [src/ts/visitor.ts].

    - [Module Num]: JavaScript numbers are IEEE 754 binary64 values; they are
      taken from the Standard Library's executable specification
      ([spec_float] with precision 53 and maximal exponent 1024).
    - [Module Runtime]: the functions of [runtime.ts], as functions into a
      result type that records which exception is thrown.
    - [Module Visitor]: the handlers of [visitor.ts] over a fragment of the
      Babel tree, driven by a model of the traversal engine. *)

From Stdlib Require Import ZArith List String Ascii Bool Lia Arith.
From Stdlib Require Import SpecFloat DecimalString Decimal.
Import ListNotations.

Set Warnings "-register-all".
Local Open Scope string_scope.

(* ===================================================================== *)
(** ** Numbers *)
(* ===================================================================== *)

Module Num.

Local Open Scope Z_scope.

Definition prec : Z := 53.
Definition emax : Z := 1024.

(** The type behind [typeof x === 'number']. *)
Definition number : Type := spec_float.

Definition zero : number := S754_zero false.

(** [shl_canon s m e]: the finite value [(-1)^s * m * 2^e], with the
    mantissa shifted left as far as the binary64 format asks.  No rounding
    happens: it is only used on values that are representable. *)
Definition shl_canon (s : bool) (m : positive) (e : Z) : number :=
  let '(m', e') := shl_align m e (fexp prec emax (Zpos (digits2_pos m) + e)) in
  S754_finite s m' e'.

(** The number denoting the integer [z] (exact for [|z| < 2^53]). *)
Definition of_Z (z : Z) : number :=
  match z with
  | Z0 => zero
  | Zpos p => shl_canon false p 0
  | Zneg p => shl_canon true p 0
  end.

Definition of_nat (n : nat) : number := of_Z (Z.of_nat n).

(** [to_Z x = Some z] when [x] is finite and denotes the integer [z]
    (both zeros denote 0); [None] for NaN, the infinities and every value
    with a fractional part. *)
Definition to_Z (x : number) : option Z :=
  match x with
  | S754_zero _ => Some 0
  | S754_finite s m e =>
      match e with
      | Zneg k =>
          if Z.eqb (Z.modulo (Zpos m) (Z.pow 2 (Zpos k))) 0
          then Some (cond_Zopp s (Z.div (Zpos m) (Z.pow 2 (Zpos k))))
          else None
      | _ => Some (cond_Zopp s (Zpos m * Z.pow 2 e))
      end
  | _ => None
  end.

(** The integer part of a finite number, towards zero (ECMAScript
    [truncate]); 0 for NaN and the infinities as in [ToInt32]. *)
Definition trunc (x : number) : Z :=
  match x with
  | S754_finite s m e =>
      match e with
      | Zneg k => cond_Zopp s (Z.div (Zpos m) (Z.pow 2 (Zpos k)))
      | _ => cond_Zopp s (Zpos m * Z.pow 2 e)
      end
  | _ => 0
  end.

(** ECMAScript [ToInt32]: truncate, reduce modulo 2^32, read as signed. *)
Definition to_int32 (x : number) : Z :=
  let r := Z.modulo (trunc x) (Z.pow 2 32) in
  if Z.ltb r (Z.pow 2 31) then r else r - Z.pow 2 32.

(** [x | 0]. *)
Definition bitor0 (x : number) : number := of_Z (to_int32 x).

(** [x + y], [x < y], [x <= y], [x === y] on numbers. *)
Definition add (x y : number) : number := SFadd prec emax x y.
Definition ltb (x y : number) : bool := SFltb x y.
Definition leb (x y : number) : bool := SFleb x y.
Definition eqb (x y : number) : bool := SFeqb x y.
Definition sub (x y : number) : number := SFsub prec emax x y.

(** [x % y]: NaN when [x] is not finite or [y] is zero or NaN, [x] when
    [y] is infinite or [x] is zero, and otherwise the exact remainder of the
    truncating division, with the sign of [x]. *)
Definition rem (x y : number) : number :=
  match x, y with
  | S754_nan, _ | _, S754_nan => S754_nan
  | S754_infinity _, _ => S754_nan
  | _, S754_zero _ => S754_nan
  | _, S754_infinity _ => x
  | S754_zero _, _ => x
  | S754_finite sx mx ex, S754_finite _ my ey =>
      let e := Z.min ex ey in
      let X := Zpos (fst (shl_align mx ex e)) in
      let Y := Zpos (fst (shl_align my ey e)) in
      match Z.modulo X Y with
      | Zpos r => shl_canon sx r e
      | _ => S754_zero sx
      end
  end.

Definition one : number := of_Z 1.

(** [denotes s m e z]: the finite triple denotes the integer [z]. *)
Definition denotes (s : bool) (m : positive) (e z : Z) : Prop :=
  cond_Zopp s (Zpos m) * 2 ^ Z.max e 0 = z * 2 ^ Z.max (- e) 0.

(** [x * y], [x / y], [x > y], [x >= y] on numbers. *)
Definition mul (x y : number) : number := SFmul prec emax x y.
Definition div (x y : number) : number := SFdiv prec emax x y.
Definition gtb (x y : number) : bool := SFltb y x.
Definition geb (x y : number) : bool := SFleb y x.

(** ECMAScript [ToUint32]: truncate and reduce modulo 2^32. *)
Definition to_uint32 (x : number) : Z := Z.modulo (trunc x) (Z.pow 2 32).

(** An integer read as a signed 32-bit one. *)
Definition wrap_int32 (z : Z) : Z :=
  let r := Z.modulo z (Z.pow 2 32) in
  if Z.ltb r (Z.pow 2 31) then r else r - Z.pow 2 32.

(** The shift count of [<<], [>>] and [>>>]: the low five bits of the
    right operand. *)
Definition shift_count (y : number) : Z := Z.modulo (to_uint32 y) 32.

(** [x << y], [x >> y], [x >>> y], [x | y], [x & y], [x ^ y]. *)
Definition shl (x y : number) : number :=
  of_Z (wrap_int32 (Z.shiftl (to_int32 x) (shift_count y))).
Definition shr (x y : number) : number :=
  of_Z (Z.shiftr (to_int32 x) (shift_count y)).
Definition ushr (x y : number) : number :=
  of_Z (Z.shiftr (to_uint32 x) (shift_count y)).
Definition bitor (x y : number) : number := of_Z (Z.lor (to_int32 x) (to_int32 y)).
Definition bitand (x y : number) : number := of_Z (Z.land (to_int32 x) (to_int32 y)).
Definition bitxor (x y : number) : number := of_Z (Z.lxor (to_int32 x) (to_int32 y)).

End Num.

(* ===================================================================== *)
(** ** The runtime layer ([runtime.ts]) *)
(* ===================================================================== *)

Module Runtime.

Import Num.

(** *** Values *)

(** Function values.  [StopifiedSplit str] is the closure that
    [stopifyStringSplit str] returns; [ObjectHasOwnProperty] is the host's
    [Object.prototype.hasOwnProperty]; every other function is opaque. *)
Inductive fn : Type :=
| StopifiedSplit (str : string)
| ObjectHasOwnProperty
| HostFunction (name : string).

(** A slot of an array is [None] when it is a hole.  Arrays carry no named
    properties of their own besides [length]; the own properties of function
    objects are not modelled. *)
Inductive value : Type :=
| VUndefined
| VNull
| VBoolean (b : bool)
| VNumber (n : number)
| VString (s : string)
| VObject (props : list (string * value))
| VArray (elems : list (option value))
| VFunction (f : fn).

Definition typeof (v : value) : string :=
  match v with
  | VUndefined => "undefined"
  | VNull => "object"
  | VBoolean _ => "boolean"
  | VNumber _ => "number"
  | VString _ => "string"
  | VObject _ => "object"
  | VArray _ => "object"
  | VFunction _ => "function"
  end.

(** [v === undefined] *)
Definition is_undefined (v : value) : bool :=
  match v with VUndefined => true | _ => false end.

(** [v instanceof Array] *)
Definition instanceof_Array (v : value) : bool :=
  match v with VArray _ => true | _ => false end.

(** *** Exceptions and results *)

Inductive exn : Type :=
| ElementaryRuntimeError (message : string)
| ElementaryTestingError (message : string)
| TypeError (message : string).

Inductive result (A : Type) : Type :=
| Return (a : A)
| Throw (e : exn).
Arguments Return {A} a.
Arguments Throw {A} e.

Definition bind {A B} (r : result A) (k : A -> result B) : result B :=
  match r with
  | Return a => k a
  | Throw e => Throw e
  end.

Notation "'let*' x ':=' r 'in' k" := (bind r (fun x => k))
  (at level 10, x name, r at level 100, k at level 200).

(** *** Strings *)

Definition nl : string := String (ascii_of_nat 10) EmptyString.

Definition string_of_nat (n : nat) : string :=
  NilEmpty.string_of_uint (Nat.to_uint n).

(** The array index a property key spells, if it is the canonical decimal
    spelling of one. *)
Definition index_of_string (k : string) : option nat :=
  match NilEmpty.uint_of_string k with
  | Some u =>
      let n := Nat.of_uint u in
      if String.eqb (string_of_nat n) k then
        match k with EmptyString => None | _ => Some n end
      else None
  | None => None
  end.

Fixpoint join (sep : string) (l : list string) : string :=
  match l with
  | [] => ""
  | [x] => x
  | x :: rest => x ++ sep ++ join sep rest
  end.

(** [s.includes(sub)] *)
Fixpoint includes (sub s : string) : bool :=
  if String.prefix sub s then true
  else match s with
       | EmptyString => false
       | String _ s' => includes sub s'
       end.

(** *** The host

    What the host language supplies and the repository does not define:
    - [ToString]: the text of a value where no code of the program runs,
      which is the conversion of a primitive by a template literal or as a
      property key, and what the host shows of a value in its own
      messages;
    - [ToPrimitive]: the conversion of an object, an array or a function
      by a template literal or as a property key, which runs the
      [toString] and [valueOf] of the value: the text, or what these
      throw, or the [TypeError] of the host when neither gives a
      primitive (as for [{toString: 1}]);
    - [inherited]: the properties a value inherits through its prototype
      chain ([VUndefined] when there is none);
    - [assign]: [o[k] = v] in strict code where [k] is no own property of
      [o] or [o] is a primitive: a setter that [o] inherits runs (as for
      [__proto__]), or [o] gets a new property, or the host throws; the
      result is [o] afterwards;
    - [plus_coerce]: [+] on operands that are not two numbers or two
      strings;
    - [call]: calls of opaque functions. *)
Record Host : Type := {
  ToString : value -> string;
  ToPrimitive : value -> result string;
  inherited : value -> string -> value;
  assign : value -> string -> value -> result value;
  plus_coerce : value -> value -> value;
  call : fn -> value -> list value -> result value
}.

(** *** The scheduler ([stopify.AsyncRun]) and the module's state *)

Record AsyncRun : Type := {
  (** [runner.higherOrderFunctions.stopifyArray] *)
  hof_stopifyArray : list (option value) -> value
}.

(** The field [error] of a record holds [e.message] or ['Timed out'] when
    the test ran without a scheduler, and the thrown value itself when it
    ran with one. *)
Inductive test_error : Type :=
| ErrorMessage (message : string)
| ErrorValue (e : exn).

Record TestResult : Type := {
  description : string;
  failed : bool;
  error : option test_error
}.

(** The module-level [let] bindings of [runtime.ts]. *)
Record RtState : Type := {
  tests : list TestResult;
  testsEnabled : bool;
  stopifyRunner : option AsyncRun;
  timeoutMilli : number
}.

Definition initial : RtState :=
  {| tests := []; testsEnabled := false; stopifyRunner := None;
     timeoutMilli := of_Z 3000 |}.

(** *** Property reads and writes *)

Fixpoint assoc (k : string) (props : list (string * value)) : option value :=
  match props with
  | [] => None
  | (k', v) :: rest => if String.eqb k k' then Some v else assoc k rest
  end.

Fixpoint assoc_set (k : string) (v : value) (props : list (string * value))
  : list (string * value) :=
  match props with
  | [] => [(k, v)]
  | (k', v') :: rest =>
      if String.eqb k k' then (k, v) :: rest else (k', v') :: assoc_set k v rest
  end.

(** The value of slot [i]; holes and indices past the end read
    [undefined]. *)
Definition slot (elems : list (option value)) (i : nat) : value :=
  match nth_error elems i with
  | Some (Some v) => v
  | _ => VUndefined
  end.

(** [a[i] = v] on the backing list of an array: a write past the end
    extends the array with holes. *)
Fixpoint slot_set (i : nat) (v : value) (elems : list (option value))
  : list (option value) :=
  match i, elems with
  | O, [] => [Some v]
  | O, _ :: rest => Some v :: rest
  | S i', [] => None :: slot_set i' v []
  | S i', x :: rest => x :: slot_set i' v rest
  end.

Definition char_at (s : string) (i : nat) : option value :=
  match String.get i s with
  | Some c => Some (VString (String c EmptyString))
  | None => None
  end.

(** The own property [k] of [o], if it has one. *)
Definition own_prop (o : value) (k : string) : option value :=
  match o with
  | VObject props => assoc k props
  | VArray elems =>
      if String.eqb k "length" then Some (VNumber (of_nat (List.length elems)))
      else match index_of_string k with
           | Some i => match nth_error elems i with
                       | Some (Some v) => Some v
                       | _ => None
                       end
           | None => None
           end
  | VString s =>
      if String.eqb k "length" then Some (VNumber (of_nat (String.length s)))
      else match index_of_string k with
           | Some i => char_at s i
           | None => None
           end
  | _ => None
  end.

Section WithHost.

Variable host : Host.

(** [object[index]] for a string key: a [TypeError] of the host on
    [undefined] and [null], and otherwise the own property or, failing
    that, what the prototype chain gives. *)
Definition get (object : value) (index : string) : result value :=
  match object with
  | VUndefined =>
      Throw (TypeError ("Cannot read property '" ++ index ++ "' of undefined"))
  | VNull =>
      Throw (TypeError ("Cannot read property '" ++ index ++ "' of null"))
  | _ =>
      Return (match own_prop object index with
              | Some v => v
              | None => inherited host object index
              end)
  end.

(** [object[index]] where [object] is an array and [index] a number that
    denotes a non-negative integer (both zeros name slot 0). *)
Definition get_index (elems : list (option value)) (index : number) : value :=
  match to_Z index with
  | Some z => slot elems (Z.to_nat z)
  | None => VUndefined
  end.

(** *** [elementaryJSBug] *)

Definition errorMsg : string :=
  "You have encountered a potential bug in " ++
  "ElementaryJS. Please report this to the developers, " ++
  "along with the following stack trace:" ++ nl.

Definition elementaryJSBug {A} (what : string) : result A :=
  Throw (ElementaryRuntimeError errorMsg).

(** *** [getRunner], [setRunner], [stopifyArray] *)

Definition getRunner (st : RtState) : option AsyncRun := stopifyRunner st.

Definition setRunner (runner : AsyncRun) (st : RtState) : RtState :=
  {| tests := tests st; testsEnabled := testsEnabled st;
     stopifyRunner := Some runner; timeoutMilli := timeoutMilli st |}.

Definition stopifyArray (st : RtState) (array : list (option value))
  : result value :=
  match getRunner st with
  | None => elementaryJSBug "Stopify not loaded"
  | Some runner => Return (hof_stopifyArray runner array)
  end.

(** *** [ArrayStub] *)

(** [new ArrayStub(...)]: the constructor throws whatever it is given. *)
Definition ArrayStub_constructor (args : list value) : result value :=
  Throw (ElementaryRuntimeError "use Array.create(length, init)").

(** The loop [for (let i = 0; i < a.length; ++i) { a[i] = v; }], started at
    [i]; [fuel] bounds the number of iterations. *)
Fixpoint fill_loop (fuel i : nat) (a : list (option value)) (v : value)
  : list (option value) :=
  match fuel with
  | O => a
  | S fuel' =>
      if Nat.ltb i (List.length a)
      then fill_loop fuel' (S i) (slot_set i v a) v
      else a
  end.

(** [new Array(n)] for a number [n] that passed the size check: [n]
    holes. *)
Definition new_Array (n : number) : list (option value) :=
  repeat None (Z.to_nat (trunc n)).

(** [ArrayStub.create]; [args] is the list of actual arguments, so that
    [arguments.length] is its length, and a missing argument reads
    [undefined]. *)
Definition create (st : RtState) (args : list value) : result value :=
  let n := nth 0 args VUndefined in
  let v := nth 1 args VUndefined in
  if negb (Nat.eqb (List.length args) 2) then
    Throw (ElementaryRuntimeError
             (".create expects 2 arguments, received " ++
              string_of_nat (List.length args)))
  else
    match n with
    | VNumber x =>
        if negb (eqb (bitor0 x) x) || leb x zero then
          Throw (ElementaryRuntimeError "array size must be a positive integer")
        else
          let a := new_Array x in
          stopifyArray st (fill_loop (List.length a) 0 a v)
    | _ =>
        Throw (ElementaryRuntimeError "array size must be a positive integer")
    end.

(** *** Template literals *)

(** [`${v}`]: the conversion of [v] to a string, which runs code of the
    program, and can throw, when [v] is not a primitive. *)
Definition template (v : value) : result string :=
  match v with
  | VObject _ | VArray _ | VFunction _ => ToPrimitive host v
  | _ => Return (ToString host v)
  end.

(** *** [arrayBoundsCheck] *)

Definition arrayBoundsCheck (object index : value) : result value :=
  match object with
  | VArray elems =>
      match index with
      | VNumber i =>
          if ltb i zero || negb (eqb (rem i one) zero) then
            let* text := template index in
            Throw (ElementaryRuntimeError ("array index '" ++ text ++ "' is not valid"))
          else if is_undefined (get_index elems i) then
            let* text := template index in
            Throw (ElementaryRuntimeError
                     ("index '" ++ text ++ "' is out of array bounds"))
          else Return (get_index elems i)
      | _ =>
          let* text := template index in
          Throw (ElementaryRuntimeError ("array index '" ++ text ++ "' is not valid"))
      end
  | _ =>
      Throw (ElementaryRuntimeError
               "array indexing called on a non-array value type")
  end.

(** *** [dot] *)

Definition dot (object : value) (index : string) : result value :=
  if negb (String.eqb (typeof object) "object") &&
     negb (String.eqb (typeof object) "string") &&
     negb (String.eqb (typeof object) "boolean") &&
     negb (String.eqb (typeof object) "number") then
    Throw (ElementaryRuntimeError
             "cannot access member of non-object value types")
  else
    let* member := get object index in
    if is_undefined member then
      Throw (ElementaryRuntimeError
               ("object does not have member '" ++ index ++ "'"))
    else
      match object with
      | VString str =>
          if String.eqb index "split"
          then Return (VFunction (StopifiedSplit str))
          else Return member
      | _ => Return member
      end.

(** *** [updateOnlyNumbers], [checkNumberAndReturn] *)

Definition updateOnlyNumbers (opcode : string) (object : value) : result value :=
  match object with
  | VNumber _ => Return VUndefined
  | _ =>
      Throw (ElementaryRuntimeError
               ("argument of operator '" ++ opcode ++ "' must be a number"))
  end.

Definition checkNumberAndReturn (opcode : string) (object : value)
  : result value :=
  match object with
  | VNumber _ => Return object
  | _ =>
      Throw (ElementaryRuntimeError
               ("argument of operator '" ++ opcode ++ "' must be a number"))
  end.

(** *** [checkUpdateOperand] *)

(** The property key that [obj[member]] uses: a string is its own key,
    and every other value is converted as by a template literal. *)
Definition key_of (member : value) : result string :=
  match member with
  | VString s => Return s
  | _ => template member
  end.

(** [obj.hasOwnProperty(member)]: the method is looked up on [obj] like
    any other property. *)
Definition hasOwnProperty_call (obj member : value) : result value :=
  let* f := get obj "hasOwnProperty" in
  match f with
  | VFunction ObjectHasOwnProperty =>
      let* k := key_of member in
      Return (VBoolean (match own_prop obj k with
                        | Some _ => true
                        | None => false
                        end))
  | VFunction g => call host g obj [member]
  | _ => Throw (TypeError "obj.hasOwnProperty is not a function")
  end.

(** [obj[k] = v] in strict code: the base afterwards.  The own property
    [k] of an object and the slot [k] of an array are written in place;
    every other write is the host's ([assign]). *)
Definition put (obj : value) (k : string) (v : value) : result value :=
  match obj with
  | VObject props =>
      match assoc k props with
      | Some _ => Return (VObject (assoc_set k v props))
      | None => assign host obj k v
      end
  | VArray elems =>
      match index_of_string k with
      | Some i => Return (VArray (slot_set i v elems))
      | None => assign host obj k v
      end
  | _ => assign host obj k v
  end.

(** The result is the value of the update expression and the updated
    base. *)
Definition checkUpdateOperand (opcode : string) (obj member : value)
  : result (value * value) :=
  let* has := hasOwnProperty_call obj member in
  match has with
  | VBoolean false =>
      if String.eqb (typeof member) "number" then
        let* text := template member in
        Throw (ElementaryRuntimeError ("index '" ++ text ++ "' is out of array bounds"))
      else
        let* text := template member in
        Throw (ElementaryRuntimeError ("object does not have member '" ++ text ++ "'"))
  | _ =>
      let* k := key_of member in
      let* cur := get obj k in
      match cur with
      | VNumber x =>
          if String.eqb opcode "++" then
            let* obj' := put obj k (VNumber (add x one)) in
            Return (VNumber (add x one), obj')
          else if String.eqb opcode "--" then
            let* obj' := put obj k (VNumber (sub x one)) in
            Return (VNumber (sub x one), obj')
          else elementaryJSBug "UpdateOperand dynamic check"
      | _ =>
          Throw (ElementaryRuntimeError
                   ("argument of operator '" ++ opcode ++ "' must be a number"))
      end
  end.

(** *** [applyNumOrStringOp] *)

(** [lhs + rhs] *)
Definition plus (lhs rhs : value) : value :=
  match lhs, rhs with
  | VNumber l, VNumber r => VNumber (add l r)
  | VString l, VString r => VString (l ++ r)
  | _, _ => plus_coerce host lhs rhs
  end.

Definition applyNumOrStringOp (op : string) (lhs rhs : value) : result value :=
  if negb ((String.eqb (typeof lhs) "string" && String.eqb (typeof rhs) "string")
           || (String.eqb (typeof lhs) "number" && String.eqb (typeof rhs) "number"))
  then
    Throw (ElementaryRuntimeError
             ("arguments of operator '" ++ op ++
              "' must both be numbers or strings"))
  else if String.eqb op "+" then Return (plus lhs rhs)
  else elementaryJSBug ("applyNumOrStringOp '" ++ op ++ "'").

End WithHost.

(** *** The embedded test runner *)

Definition enableTests (enable : bool) (timeout : number) (st : RtState)
  : RtState :=
  {| tests := []; testsEnabled := enable;
     stopifyRunner := stopifyRunner st; timeoutMilli := timeout |}.

(** The default value of [enableTests]'s second parameter. *)
Definition default_timeout : number := of_Z 3000.

Definition exn_message (e : exn) : string :=
  match e with
  | ElementaryRuntimeError m | ElementaryTestingError m | TypeError m => m
  end.

(** [e.name]: the two classes of [runtime.ts] extend [Error] and set no
    name of their own. *)
Definition exn_name (e : exn) : string :=
  match e with
  | ElementaryRuntimeError _ | ElementaryTestingError _ => "Error"
  | TypeError _ => "TypeError"
  end.

(** [`${e}`] for an exception: [Error.prototype.toString]. *)
Definition exn_toString (e : exn) : string :=
  if String.eqb (exn_message e) "" then exn_name e
  else exn_name e ++ ": " ++ exn_message e.

Definition push_test (r : TestResult) (st : RtState) : RtState :=
  {| tests := tests st ++ [r]; testsEnabled := testsEnabled st;
     stopifyRunner := stopifyRunner st; timeoutMilli := timeoutMilli st |}.

(** [test(description, testFunction)].  Running [testFunction] is the
    work of the scheduler or of [timeoutTest]; [outcome] is what that run
    gave. *)
Definition test (description : string) (outcome : result value) (st : RtState)
  : RtState :=
  if negb (testsEnabled st) then st
  else
    match stopifyRunner st with
    | Some _ =>
        match outcome with
        | Return _ =>
            push_test {| description := description; failed := false;
                         error := None |} st
        | Throw e =>
            push_test {| description := description; failed := true;
                         error := Some (ErrorValue e) |} st
        end
    | None =>
        match outcome with
        | Return _ =>
            push_test {| description := description; failed := false;
                         error := None |} st
        | Throw e =>
            if includes "timed out" (exn_message e) then
              push_test {| description := description; failed := true;
                           error := Some (ErrorMessage "Timed out") |} st
            else
              push_test {| description := description; failed := true;
                           error := Some (ErrorMessage (exn_message e)) |} st
        end
    end.

Record Summary : Type := {
  output : string;
  style : list string
}.

(** The locals of [summary]'s loop. *)
Record Acc : Type := {
  acc_output : list string;
  acc_style : list string;
  numPassed : nat;
  numFailed : nat
}.

(** [`${result.error!}`] *)
Definition error_text (r : TestResult) : string :=
  match error r with
  | Some (ErrorMessage m) => m
  | Some (ErrorValue e) => exn_toString e
  | None => "undefined"
  end.

(** One iteration of [for (let result of tests)]. *)
Definition summary_step (hasStyles : bool) (styleMark : string)
  (a : Acc) (r : TestResult) : Acc :=
  if failed r then
    {| acc_output := acc_output a ++
         [styleMark ++ " FAILED " ++ styleMark ++ " " ++ description r ++
          nl ++ "         " ++ error_text r];
       acc_style := if hasStyles
                    then acc_style a ++
                         ["background-color: #f44336; font-weight: bold"; ""]
                    else acc_style a;
       numPassed := numPassed a;
       numFailed := numFailed a + 1 |}
  else
    {| acc_output := acc_output a ++
         [styleMark ++ " OK " ++ styleMark ++ "     " ++ description r];
       acc_style := if hasStyles
                    then acc_style a ++
                         ["background-color: #2ac093; font-weight: bold"; ""]
                    else acc_style a;
       numPassed := numPassed a + 1;
       numFailed := numFailed a |}.

Definition summary_loop (hasStyles : bool) (styleMark : string)
  (l : list TestResult) : Acc :=
  fold_left (summary_step hasStyles styleMark) l
    {| acc_output := []; acc_style := []; numPassed := 0; numFailed := 0 |}.

Definition summary (hasStyles : bool) (st : RtState) : Summary * RtState :=
  if negb (testsEnabled st) then
    ({| output := "Test not enabled"; style := [] |}, st)
  else
    let styleMark := if hasStyles then "%c" else "" in
    if Nat.eqb (List.length (tests st)) 0 then
      ({| output := styleMark ++
                    "◈ You don't seem to have any tests written" ++ nl ++
                    "◈ To run a test, begin a function name with 'test'";
          style := if hasStyles then ["color: #e87ce8"] else [] |},
       enableTests false default_timeout st)
    else
      let a := summary_loop hasStyles styleMark (tests st) in
      let np := string_of_nat (numPassed a) in
      let nf := string_of_nat (numFailed a) in
      let nt := string_of_nat (numPassed a + numFailed a) in
      let a' :=
        if Nat.ltb 0 (numFailed a) then
          {| acc_output := acc_output a ++
               ["Tests:     " ++ styleMark ++ nf ++ " failed, " ++ styleMark ++
                np ++ " passed, " ++ styleMark ++ nt ++ " total"];
             acc_style := if hasStyles
                          then acc_style a ++
                               ["color: #f44336; font-weight: bold";
                                "color: #2ac093; font-weight: bold";
                                "font-weight: bold"]
                          else acc_style a;
             numPassed := numPassed a; numFailed := numFailed a |}
        else
          {| acc_output := acc_output a ++
               ["Tests:     " ++ styleMark ++ np ++ " passed, " ++ styleMark ++
                nt ++ " total"];
             acc_style := if hasStyles
                          then acc_style a ++
                               ["color: #2ac093; font-weight: bold";
                                "font-weight: bold"]
                          else acc_style a;
             numPassed := numPassed a; numFailed := numFailed a |} in
      ({| output := join nl (acc_output a'); style := acc_style a' |},
       enableTests false default_timeout st).

(** *** [checkMember], [checkArray] *)

(** [o[k] = v] where [o] is an array and [k] a number that denotes a
    non-negative integer: the updated array. *)
Definition set_index (o k v : value) : value :=
  match o, k with
  | VArray elems, VNumber i =>
      match to_Z i with
      | Some z => VArray (slot_set (Z.to_nat z) v elems)
      | None => o
      end
  | _, _ => o
  end.

Section Checks.

Variable host : Host.

(** [dot(o, k)] for a key that need not be a string: the guard, then the
    read [object[index]], which fails on [null] before it converts the
    key, and is the stopified [split] only for the string ['split']. *)
Definition dot_at (object index : value) : result value :=
  match index with
  | VString s => dot host object s
  | _ =>
      if negb (String.eqb (typeof object) "object") &&
         negb (String.eqb (typeof object) "string") &&
         negb (String.eqb (typeof object) "boolean") &&
         negb (String.eqb (typeof object) "number") then
        Throw (ElementaryRuntimeError
                 "cannot access member of non-object value types")
      else
        match object with
        | VNull =>
            Throw (TypeError ("Cannot read property '" ++ ToString host index ++
                              "' of null"))
        | _ =>
            let* key := key_of host index in
            let* member := get host object key in
            if is_undefined member then
              Throw (ElementaryRuntimeError
                       ("object does not have member '" ++ key ++ "'"))
            else Return member
        end
  end.

(** The result is the value of the assignment and the base afterwards. *)
Definition checkMember (o k v : value) : result (value * value) :=
  if instanceof_Array o then
    let* text := template host k in
    Throw (ElementaryRuntimeError ("cannot set ." ++ text ++ " of an array"))
  else
    let* _ := dot_at o k in
    let* key := key_of host k in
    let* o' := put host o key v in
    Return (v, o').

Definition checkArray (o k v : value) : result (value * value) :=
  let* _ := arrayBoundsCheck host o k in
  Return (v, set_index o k v).

(** *** [arityCheck] *)

Definition arguments_text (n : number) : string :=
  ToString host (VNumber n) ++ " argument" ++ (if eqb n one then "" else "s").

Definition arityCheck (name : string) (expected actual : number) : result value :=
  if negb (eqb expected actual) then
    Throw (ElementaryRuntimeError
             ("function " ++ name ++ " expected " ++ arguments_text expected ++
              " but received " ++ arguments_text actual))
  else Return VUndefined.

(** *** [assert] *)

Definition assert (val : value) : result value :=
  match val with
  | VBoolean true => Return (VBoolean true)
  | VBoolean false => Throw (ElementaryTestingError "assertion failed")
  | _ =>
      let* text := template host val in
      Throw (ElementaryTestingError
               ("assertion argument '" ++ text ++ "' is not a boolean value"))
  end.

End Checks.

(** *** [applyBinaryBooleanOp], [applyNumOp] *)

Definition applyBinaryBooleanOp (op : string) (lhs rhs : value) : result value :=
  match lhs, rhs with
  | VBoolean l, VBoolean r =>
      if String.eqb op "&&" then Return (VBoolean (l && r))
      else if String.eqb op "||" then Return (VBoolean (l || r))
      else elementaryJSBug ("applyBinaryBooleanOp '" ++ op ++ "'")
  | _, _ =>
      Throw (ElementaryRuntimeError
               ("arguments of operator '" ++ op ++ "' must both be booleans"))
  end.

Definition applyNumOp (op : string) (lhs rhs : value) : result value :=
  match lhs, rhs with
  | VNumber l, VNumber r =>
      if String.eqb op "-" then Return (VNumber (sub l r))
      else if String.eqb op "/" then Return (VNumber (div l r))
      else if String.eqb op "*" then Return (VNumber (mul l r))
      else if String.eqb op ">" then Return (VBoolean (gtb l r))
      else if String.eqb op "<" then Return (VBoolean (ltb l r))
      else if String.eqb op ">=" then Return (VBoolean (geb l r))
      else if String.eqb op "<=" then Return (VBoolean (leb l r))
      else if String.eqb op ">>" then Return (VNumber (shr l r))
      else if String.eqb op ">>>" then Return (VNumber (ushr l r))
      else if String.eqb op "<<" then Return (VNumber (shl l r))
      else if String.eqb op "|" then Return (VNumber (bitor l r))
      else if String.eqb op "&" then Return (VNumber (bitand l r))
      else if String.eqb op "^" then Return (VNumber (bitxor l r))
      else if String.eqb op "%" then Return (VNumber (rem l r))
      else elementaryJSBug ("applyNumOp '" ++ op ++ "'")
  | _, _ =>
      Throw (ElementaryRuntimeError
               ("arguments of operator '" ++ op ++ "' must both be numbers"))
  end.

(** *** [checkCall], [stopifyStringSplit]

    [split str sep] is [str.split(sep)], which the host supplies. *)

Section WithSplit.

Variable split : string -> value -> list (option value).

Definition checkCall (st : RtState) (object : value) (field : string)
  (args : list value) : result value :=
  match object with
  | VString str =>
      if String.eqb field "split"
      then stopifyArray st (split str (nth 0 args VUndefined))
      else elementaryJSBug ("checkCall with " ++ field ++ " on " ++ typeof object)
  | _ => elementaryJSBug ("checkCall with " ++ field ++ " on " ++ typeof object)
  end.

(** A call of the function that [stopifyStringSplit str] returns. *)
Definition call_StopifiedSplit (st : RtState) (str : string) (sep : value)
  : result value :=
  stopifyArray st (split str sep).

End WithSplit.

(** *** A small host and scheduler for the examples

    In this host a template literal prints an integer in decimal,
    arrays and functions as fixed texts, and an object as
    ["[object Object]"] unless it has a [toString] of its own, which is
    then no function; objects and arrays inherit [hasOwnProperty], strings
    inherit [split], objects inherit the accessor [__proto__], whose
    setter leaves the object as it is, and nothing else is inherited; a
    write of a key that is neither own nor inherited adds it to an
    object, sets the length of an array when the key is [length] and the
    value a length, and is refused on a primitive; the scheduler wraps an
    array by returning it. *)

Definition string_of_Z (z : Z) : string :=
  match z with
  | Zneg p => "-" ++ string_of_nat (Pos.to_nat p)
  | _ => string_of_nat (Z.to_nat z)
  end.

Definition simple_ToString (v : value) : string :=
  match v with
  | VUndefined => "undefined"
  | VNull => "null"
  | VBoolean true => "true"
  | VBoolean false => "false"
  | VNumber n => match to_Z n with Some z => string_of_Z z | None => "NaN" end
  | VString s => s
  | VObject _ => "[object Object]"
  | VArray _ => ""
  | VFunction _ => "function () { [native code] }"
  end.

Definition simple_ToPrimitive (v : value) : result string :=
  match v with
  | VObject props =>
      match assoc "toString" props with
      | Some _ => Throw (TypeError "Cannot convert object to primitive value")
      | None => Return "[object Object]"
      end
  | _ => Return (simple_ToString v)
  end.

Definition simple_inherited (o : value) (k : string) : value :=
  match o with
  | VObject _ =>
      if String.eqb k "hasOwnProperty" then VFunction ObjectHasOwnProperty
      else if String.eqb k "__proto__" then VObject []
      else VUndefined
  | VArray _ =>
      if String.eqb k "hasOwnProperty" then VFunction ObjectHasOwnProperty
      else VUndefined
  | VString _ =>
      if String.eqb k "split" then VFunction (HostFunction "split") else VUndefined
  | _ => VUndefined
  end.

Definition simple_assign (o : value) (k : string) (v : value) : result value :=
  match o with
  | VObject props =>
      if String.eqb k "__proto__" then Return o
      else Return (VObject (assoc_set k v props))
  | VArray elems =>
      match v with
      | VNumber n =>
          match to_Z n with
          | Some z =>
              if String.eqb k "length" && Z.leb 0 z && Z.ltb z (2 ^ 32) then
                Return (VArray (firstn (Z.to_nat z) elems ++
                                repeat None (Z.to_nat z - List.length elems)))
              else Return o
          | None => Return o
          end
      | _ => Return o
      end
  | _ => Throw (TypeError ("Cannot create property '" ++ k ++ "' on " ++ typeof o))
  end.

Definition simple_host : Host :=
  {| ToString := simple_ToString;
     ToPrimitive := simple_ToPrimitive;
     inherited := simple_inherited;
     assign := simple_assign;
     plus_coerce := fun l r => VString (simple_ToString l ++ simple_ToString r);
     call := fun _ _ _ => Return VUndefined |}.

Definition identity_runner : AsyncRun := {| hof_stopifyArray := VArray |}.

(** The names that [runtime.ts] exports, and the module object that the
    loader expression evaluates to. *)
Definition exports : list string :=
  ["version"; "ElementaryRuntimeError"; "Array"; "arrayBoundsCheck"; "dot";
   "checkCall"; "stopifyArray"; "updateOnlyNumbers"; "checkNumberAndReturn";
   "elementaryJSBug"; "checkMember"; "checkArray"; "checkUpdateOperand";
   "applyNumOrStringOp"; "applyBinaryBooleanOp"; "applyNumOp"; "arityCheck";
   "ElementaryTestingError"; "getRunner"; "setRunner"; "enableTests"; "assert";
   "test"; "summary"].

Definition rts_object : value :=
  VObject (map (fun k => (k, VFunction (HostFunction k))) exports).

(** *** Vocabulary of the statements about the runtime *)

(** Both operands are numbers or both are strings. *)
Definition same_class (lhs rhs : value) : Prop :=
  (typeof lhs = "number" /\ typeof rhs = "number") \/
  (typeof lhs = "string" /\ typeof rhs = "string").

(** The errors of the array functions and of [dot]. *)
Definition not_valid (host : Host) (index : value) : exn :=
  ElementaryRuntimeError ("array index '" ++ ToString host index ++ "' is not valid").

Definition out_of_bounds (host : Host) (index : value) : exn :=
  ElementaryRuntimeError ("index '" ++ ToString host index ++ "' is out of array bounds").

Definition bad_size : exn :=
  ElementaryRuntimeError "array size must be a positive integer".

Definition no_member (index : string) : exn :=
  ElementaryRuntimeError ("object does not have member '" ++ index ++ "'").

(** What the output of [summary] is said to be: a line for each record,
    then a line of counts. *)
Definition render_line (styleMark : string) (r : TestResult) : string :=
  if failed r
  then styleMark ++ " FAILED " ++ styleMark ++ " " ++ description r ++
       nl ++ "         " ++ error_text r
  else styleMark ++ " OK " ++ styleMark ++ "     " ++ description r.

Definition render_totals (styleMark : string) (passed failed : nat) : string :=
  if Nat.ltb 0 failed
  then "Tests:     " ++ styleMark ++ string_of_nat failed ++ " failed, " ++ styleMark ++
       string_of_nat passed ++ " passed, " ++ styleMark ++
       string_of_nat (passed + failed) ++ " total"
  else "Tests:     " ++ styleMark ++ string_of_nat passed ++ " passed, " ++ styleMark ++
       string_of_nat (passed + failed) ++ " total".

Definition count_failed (l : list TestResult) : nat :=
  List.length (filter failed l).

Definition count_passed (l : list TestResult) : nat :=
  List.length (filter (fun r => negb (failed r)) l).

(** *** Sessions of the test runner

    A call of one of the functions that read or write the module's
    state, with what running the test function gave for [test]. *)
Inductive api_call : Type :=
| CallSetRunner (runner : AsyncRun)
| CallEnableTests (enable : bool) (timeout : number)
| CallTest (description : string) (outcome : result value)
| CallSummary (hasStyles : bool).

Definition api_step (st : RtState) (c : api_call) : RtState :=
  match c with
  | CallSetRunner runner => setRunner runner st
  | CallEnableTests enable timeout => enableTests enable timeout st
  | CallTest description outcome => test description outcome st
  | CallSummary hasStyles => snd (summary hasStyles st)
  end.

Definition api_run (calls : list api_call) (st : RtState) : RtState :=
  fold_left api_step calls st.

(** The calls [test(d, f)] of a list of descriptions and outcomes. *)
Definition calls_of (runs : list (string * result value)) : list api_call :=
  map (fun r => CallTest (fst r) (snd r)) runs.

Definition throws {A} (r : result A) : bool :=
  match r with Throw _ => true | Return _ => false end.


(** The scheduler that is installed after [calls]. *)
Definition last_runner (calls : list api_call) (r0 : option AsyncRun)
  : option AsyncRun :=
  fold_left (fun r c => match c with CallSetRunner x => Some x | _ => r end)
            calls r0.

End Runtime.

(* ===================================================================== *)
(** ** The restriction and desugaring pass ([visitor.ts]) *)
(* ===================================================================== *)

Module Visitor.

(** *** Trees

    A Babel node is an object with a [type] tag, an optional source
    position and fields.  The fields that hold nodes ([kids], in the order
    in which the traversal visits them) are kept apart from the fields that
    hold plain data ([attrs]).  A node built by [babel-types] has no
    position. *)

Inductive attr : Type :=
| AString (s : string)
| ABoolean (b : bool)
| ANumber (n : Num.number).

Inductive node : Type :=
| Node (type : string) (loc : option nat)
       (attrs : list (string * attr)) (kids : list (string * kid))
with kid : Type :=
| One (n : node)
| Many (ns : list node).

Definition type_of (n : node) : string := let 'Node t _ _ _ := n in t.
Definition loc_of (n : node) : option nat := let 'Node _ l _ _ := n in l.
Definition attrs_of (n : node) : list (string * attr) :=
  let 'Node _ _ a _ := n in a.
Definition kids_of (n : node) : list (string * kid) :=
  let 'Node _ _ _ k := n in k.

Fixpoint lookup {A : Type} (k : string) (l : list (string * A)) : option A :=
  match l with
  | [] => None
  | (k', v) :: rest => if String.eqb k k' then Some v else lookup k rest
  end.

Fixpoint update {A : Type} (k : string) (v : A) (l : list (string * A))
  : list (string * A) :=
  match l with
  | [] => [(k, v)]
  | (k', v') :: rest =>
      if String.eqb k k' then (k, v) :: rest else (k', v') :: update k v rest
  end.

(** [n[k]] for a field that holds a string; a missing field prints as
    ["undefined"], which is none of the strings the pass compares with. *)
Definition attr_s (k : string) (n : node) : string :=
  match lookup k (attrs_of n) with
  | Some (AString s) => s
  | _ => "undefined"
  end.

(** [n[k]] for a field that holds a boolean; [None] when it is missing. *)
Definition attr_b (k : string) (n : node) : option bool :=
  match lookup k (attrs_of n) with
  | Some (ABoolean b) => Some b
  | _ => None
  end.

(** [n[k]] for a field that holds a node, or [null]. *)
Definition child (k : string) (n : node) : option node :=
  match lookup k (kids_of n) with
  | Some (One c) => Some c
  | _ => None
  end.

(** [n[k]] for a field that holds an array of nodes. *)
Definition children (k : string) (n : node) : list node :=
  match lookup k (kids_of n) with
  | Some (Many cs) => cs
  | _ => []
  end.

Definition has_type (t : string) (n : option node) : bool :=
  match n with
  | Some c => String.eqb (type_of c) t
  | None => false
  end.

(** **** The builders of [babel-types] *)

Definition identifier (name : string) : node :=
  Node "Identifier" None [("name", AString name)] [].

Definition stringLiteral (value : string) : node :=
  Node "StringLiteral" None [("value", AString value)] [].

Definition memberExpression (object property : node) (computed : bool) : node :=
  Node "MemberExpression" None [("computed", ABoolean computed)]
       [("object", One object); ("property", One property)].

Definition callExpression (callee : node) (arguments : list node) : node :=
  Node "CallExpression" None []
       [("callee", One callee); ("arguments", Many arguments)].

Definition newExpression (callee : node) (arguments : list node) : node :=
  Node "NewExpression" None []
       [("callee", One callee); ("arguments", Many arguments)].

Definition assignmentExpression (operator : string) (left right : node) : node :=
  Node "AssignmentExpression" None [("operator", AString operator)]
       [("left", One left); ("right", One right)].

Definition binaryExpression (operator : string) (left right : node) : node :=
  Node "BinaryExpression" None [("operator", AString operator)]
       [("left", One left); ("right", One right)].

Definition sequenceExpression (expressions : list node) : node :=
  Node "SequenceExpression" None [] [("expressions", Many expressions)].

Definition variableDeclarator (id : node) (init : option node) : node :=
  Node "VariableDeclarator" None []
       (("id", One id) ::
        match init with Some i => [("init", One i)] | None => [] end).

Definition variableDeclaration (kind : string) (declarations : list node) : node :=
  Node "VariableDeclaration" None [("kind", AString kind)]
       [("declarations", Many declarations)].

(** The [Expression] alias of [babel-types]: the types for which
    [t.isExpression] answers yes. *)
Definition expression_types : list string :=
  ["ArrayExpression"; "AssignmentExpression"; "BinaryExpression";
   "CallExpression"; "ConditionalExpression"; "FunctionExpression";
   "Identifier"; "StringLiteral"; "NumericLiteral"; "NullLiteral";
   "BooleanLiteral"; "RegExpLiteral"; "LogicalExpression";
   "MemberExpression"; "NewExpression"; "ObjectExpression";
   "SequenceExpression"; "ThisExpression"; "UnaryExpression";
   "UpdateExpression"; "ArrowFunctionExpression"; "ClassExpression";
   "MetaProperty"; "Super"; "TaggedTemplateExpression"; "TemplateLiteral";
   "YieldExpression"; "AwaitExpression"].

(** [arr.includes(s)] *)
Definition includes (s : string) (arr : list string) : bool :=
  existsb (String.eqb s) arr.

Definition isExpression (n : option node) : bool :=
  match n with
  | Some c => includes (type_of c) expression_types
  | None => false
  end.

(** *** The operator tables *)

Definition generalOperators : list string := ["=="; "!="].
Definition numOrStringOperators : list string := ["+"].
Definition numOperators : list string :=
  ["<="; ">="; "<"; ">"; "<<"; ">>"; ">>>"; "-"; "*"; "/"; "%"; "&"; "|"; "^"].
Definition allowedBinaryOperators : list string :=
  generalOperators ++ numOrStringOperators ++ numOperators.

(** *** The visitor state *)

Record ElementarySyntaxError : Type := {
  line : nat;
  message : string
}.

Record Opts : Type := {
  isOnline : bool;
  runTests : bool
}.

(** The interface [S] of the source ([St] here, as [S] is the successor of
    [nat]): [errors] is [st.elem.errors] and [opts] is [st.opts].  The other two
    fields are the part of Babel's scope that the pass writes to: [used],
    the names that [generateUidIdentifier] must avoid, and [pending], the
    temporaries whose declaration has been pushed onto the body of the
    enclosing function (or of the program).  A traversal of that body
    that is under way does not visit them; one that has yet to start
    does ([queued_before]). *)
Record St : Type := {
  errors : list ElementarySyntaxError;
  opts : Opts;
  used : list string;
  pending : list string
}.

(** What a handler can throw: a host [Error] or [TypeError], or the
    visitor state itself ([throw st.elem]). *)
Inductive thrown : Type :=
| ThrownError (msg : string)
| ThrownTypeError (msg : string)
| ThrownState (errs : list ElementarySyntaxError).

Definition set_errors (errs : list ElementarySyntaxError) (st : St) : St :=
  {| errors := errs; opts := opts st; used := used st; pending := pending st |}.

Definition set_pending (p : list string) (st : St) : St :=
  {| errors := errors st; opts := opts st; used := used st; pending := p |}.

(** [State.error]: [path.node.loc.start.line] is a [TypeError] on a node
    without a position. *)
Definition error (n : node) (msg : string) (st : St) : St + thrown :=
  match loc_of n with
  | Some l => inl (set_errors (errors st ++ [{| line := l; message := msg |}]) st)
  | None => inr (ThrownTypeError "Cannot read property 'start' of undefined")
  end.

(** A computation that may throw. *)
Definition bindT {A B : Type} (r : A + thrown) (k : A -> B + thrown) : B + thrown :=
  match r with
  | inl a => k a
  | inr e => inr e
  end.

(** Reading a field that the grammar makes mandatory: on a tree that
    lacks it, the JavaScript expression dereferences [undefined]. *)
Definition required (k : string) (n : node) : node + thrown :=
  match child k n with
  | Some c => inl c
  | None => inr (ThrownTypeError ("Cannot read property of undefined: " ++ k))
  end.

(** *** The helpers of [visitor.ts] *)

Definition dynCheck (name : string) (args : list node) : node :=
  let f := memberExpression (identifier "rts") (identifier name) false in
  callExpression f args.

(** The expression that loads the runtime system. *)
Definition rtsExpression (st : St) : node :=
  if isOnline (opts st) then identifier "elementaryjs"
  else callExpression (identifier "require") [stringLiteral "./runtime"].

Definition unassign (op : string) : string + thrown :=
  if String.eqb op "+=" then inl "+"
  else if String.eqb op "-=" then inl "-"
  else if String.eqb op "*=" then inl "*"
  else if String.eqb op "/=" then inl "/"
  else if String.eqb op "%=" then inl "%"
  else inr (ThrownError "should not happen").

(** Where a path is: the type of its parent, the field of the parent that
    holds it, and the type of the nearest enclosing function or program
    ([path.getFunctionParent()]). *)
Record Ctx : Type := {
  parent_type : string;
  key : string;
  function_parent : string
}.

(** [enclosingScopeBlock(path).push(declaration of tmp)]: the block is the
    body of the function parent, which must be of one of four types. *)
Definition enclosingScopeBlock_push (ctx : Ctx) (tmp : string) (st : St)
  : St + thrown :=
  if String.eqb (function_parent ctx) "Program" then
    inl (set_pending (pending st ++ [tmp]) st)
  else if String.eqb (function_parent ctx) "FunctionExpression" ||
          String.eqb (function_parent ctx) "FunctionDeclaration" ||
          String.eqb (function_parent ctx) "ObjectMethod" then
    inl (set_pending (pending st ++ [tmp]) st)
  else inr (ThrownError ("parent is a " ++ function_parent ctx)).

Definition propertyAsString (n : node) : node + thrown :=
  bindT (required "property" n) (fun property =>
  match attr_b "computed" n with
  | Some true => inl property
  | _ => inl (stringLiteral (attr_s "name" property))
  end).

(** **** [path.scope.generateUidIdentifier]

    Modelled from the spec: the generated temporary.  The scope analysis
    belongs to the traversal engine; its candidates are [_tmp], [_tmp]
    again, [_tmp2], [_tmp3], ... and the first one that the program does
    not use is taken and recorded as used. *)
Definition _generateUid (name : string) (i : nat) : string :=
  "_" ++ name ++ (if Nat.ltb 1 i then Runtime.string_of_nat i else "").

Fixpoint generateUid_from (fuel i : nat) (name : string) (taken : list string)
  : string :=
  match fuel with
  | O => _generateUid name i
  | S fuel' =>
      if includes (_generateUid name i) taken
      then generateUid_from fuel' (S i) name taken
      else _generateUid name i
  end.

Definition generateUid (name : string) (taken : list string) : string :=
  generateUid_from (2 + List.length taken) 0 name taken.

Definition generateUidIdentifier (name : string) (st : St) : node * St :=
  let uid := generateUid name (used st) in
  (identifier uid,
   {| errors := errors st; opts := opts st; used := uid :: used st;
      pending := pending st |}).

(** *** What a handler tells the traversal *)

Inductive enter_result : Type :=
| EContinue (attrs' : list (string * attr)) (st : St)
    (** go on to the children; the data fields may have been assigned *)
| ESkip (st : St)
    (** [path.skip()] *)
| EReplace (n' : node) (st : St)
    (** [path.replaceWith(n')], which queues the path again *)
| EThrow (e : thrown).

Inductive exit_result : Type :=
| XKeep (n : node) (st : St)
| XReplaceSkip (n' : node) (st : St)
    (** [path.replaceWith(n'); path.skip()] *)
| XReplace (n' : node) (st : St)
    (** [path.replaceWith(n')] alone: the path is queued again and not
        marked *)
| XThrow (e : thrown).

(** [st.elem.error(path, msg)] and then whatever [k] says. *)
Definition with_error (n : node) (msg : string) (st : St)
  (k : St -> enter_result) : enter_result :=
  match error n msg st with
  | inl st' => k st'
  | inr e => EThrow e
  end.

(** *** The handlers of [visitor]

    A handler written as a function in the source is an [enter]
    handler. *)

Definition Program_enter (n : node) (st : St) : enter_result :=
  EContinue (attrs_of n) (set_errors [] st).

(** [path.get('body.0').insertBefore(...)], [path.stop()] and the final
    [throw]. *)
Definition Program_exit (n : node) (st : St) : exit_result :=
  let n' :=
    if negb (Nat.eqb (List.length (children "body" n)) 0) then
      Node (type_of n) (loc_of n) (attrs_of n)
           (update "body"
              (Many (variableDeclaration "var"
                       [variableDeclarator (identifier "rts")
                                           (Some (rtsExpression st))]
                     :: children "body" n))
              (kids_of n))
    else n in
  if Nat.ltb 0 (List.length (errors st)) then XThrow (ThrownState (errors st))
  else XKeep n' st.

Definition VariableDeclarator (n : node) (st : St) : enter_result :=
  match child "id" n with
  | None => EThrow (ThrownTypeError "Cannot read property 'type' of undefined")
  | Some id =>
      if negb (String.eqb (type_of id) "Identifier") then
        with_error n "Do not use destructuring patterns." st
          (fun st' => EContinue (attrs_of n) st')
      else if negb (isExpression (child "init" n)) then
        with_error n ("You must initialize the variable '" ++
                      attr_s "name" id ++ "'.") st
          (fun st' => EContinue (attrs_of n) st')
      else EContinue (attrs_of n) st
  end.

Definition CallExpression (n : node) (st : St) : enter_result :=
  match child "callee" n with
  | None => EThrow (ThrownTypeError "Cannot read property 'type' of undefined")
  | Some callee =>
      if String.eqb (type_of callee) "Identifier" &&
         String.eqb (attr_s "name" callee) "Array" then
        with_error n "You must use the 'new' keyword to create a new array." st
          (fun st' => EContinue (attrs_of n) st')
      else EContinue (attrs_of n) st
  end.

Definition MemberExpression_exit (ctx : Ctx) (n : node) (st : St) : exit_result :=
  if (String.eqb (parent_type ctx) "UpdateExpression" &&
      String.eqb (key ctx) "argument") ||
     (String.eqb (parent_type ctx) "AssignmentExpression" &&
      String.eqb (key ctx) "left") then XKeep n st
  else if String.eqb (parent_type ctx) "CallExpression" then XKeep n st
  else
    match required "object" n, required "property" n with
    | inl o, inl p =>
        match attr_b "computed" n with
        | Some false =>
            if negb (String.eqb (type_of p) "Identifier") then
              XThrow (ThrownError "ElementaryJS expected id. in MemberExpression")
            else
              XReplaceSkip (dynCheck "dot" [o; stringLiteral (attr_s "name" p)]) st
        | _ => XReplaceSkip (dynCheck "arrayBoundsCheck" [o; p]) st
        end
    | inr e, _ | _, inr e => XThrow e
    end.

Definition allowed : list string := ["="; "+="; "-="; "*="; "/="; "%="].

Definition AssignmentExpression_enter (ctx : Ctx) (n : node) (st : St)
  : enter_result :=
  let op := attr_s "operator" n in
  let left := child "left" n in
  if negb (includes op allowed) then
    with_error n ("Do not use the '" ++ op ++ "' operator.") st ESkip
  else if negb (has_type "Identifier" left) &&
          negb (has_type "MemberExpression" left) then
    with_error n "Do not use patterns" st ESkip
  else if String.eqb op "=" then EContinue (attrs_of n) st
  else
    match left, required "right" n with
    | Some lhs, inl rhs =>
        if String.eqb (type_of lhs) "Identifier" then
          match unassign op with
          | inl bop =>
              EReplace (assignmentExpression "=" lhs
                          (binaryExpression bop lhs rhs)) st
          | inr e => EThrow e
          end
        else
          (* exp.x += rhs =>  tmp = exp, tmp.x = tmp.x + rhs *)
          let '(tmp, st1) := generateUidIdentifier "tmp" st in
          match enclosingScopeBlock_push ctx (attr_s "name" tmp) st1,
                required "object" lhs, required "property" lhs,
                unassign op with
          | inl st2, inl object, inl property, inl bop =>
              let computed :=
                match attr_b "computed" lhs with Some b => b | None => false end in
              EReplace
                (sequenceExpression
                   [assignmentExpression "=" tmp object;
                    assignmentExpression "="
                      (memberExpression tmp property computed)
                      (binaryExpression bop
                         (memberExpression tmp property computed)
                         rhs)])
                st2
          | inr e, _, _, _ | _, inr e, _, _ | _, _, inr e, _ | _, _, _, inr e =>
              EThrow e
          end
    | None, _ => EThrow (ThrownTypeError "Cannot read property of undefined: left")
    | _, inr e => EThrow e
    end.

Definition AssignmentExpression_exit (n : node) (st : St) : exit_result :=
  let left := child "left" n in
  if negb (String.eqb (attr_s "operator" n) "=") then
    XThrow (ThrownError "desugaring error")
  else if negb (has_type "Identifier" left) &&
          negb (has_type "MemberExpression" left) then
    XThrow (ThrownError "syntactic check error")
  else if has_type "Identifier" left then XKeep n st
  else
    match left, required "right" n with
    | Some lhs, inl rhs =>
        match required "object" lhs, required "property" lhs,
              propertyAsString lhs with
        | inl object, inl property, inl name =>
            match attr_b "computed" lhs with
            | Some true =>
                (* exp[x] = rhs => checkArray(exp, x, rhs) *)
                XReplaceSkip (dynCheck "checkArray" [object; property; rhs]) st
            | _ =>
                (* exp.x = rhs => checkMember(exp, 'x', rhs) *)
                XReplaceSkip (dynCheck "checkMember" [object; name; rhs]) st
            end
        | inr e, _, _ | _, inr e, _ | _, _, inr e => XThrow e
        end
    | None, _ => XThrow (ThrownTypeError "Cannot read property of undefined: left")
    | _, inr e => XThrow e
    end.

Definition BinaryExpression_enter (n : node) (st : St) : enter_result :=
  let op := attr_s "operator" n in
  if negb (includes op allowedBinaryOperators) then
    with_error n ("Do not use the '" ++ op ++ "' operator.") st ESkip
  else if includes op generalOperators then
    if String.eqb op "==" then
      EContinue (update "operator" (AString "===") (attrs_of n)) st
    else if String.eqb op "!=" then
      EContinue (update "operator" (AString "!==") (attrs_of n)) st
    else EContinue (attrs_of n) st
  else EContinue (attrs_of n) st.

Definition BinaryExpression_exit (n : node) (st : St) : exit_result :=
  let op := attr_s "operator" n in
  match required "left" n, required "right" n with
  | inl lhs, inl rhs =>
      if includes op numOrStringOperators then
        (* Transformed: applyNumOrStringOp('+', a, b); *)
        XReplaceSkip
          (dynCheck "applyNumOrStringOp" [stringLiteral op; lhs; rhs]) st
      else if includes op numOperators then
        XReplaceSkip (dynCheck "applyNumOp" [stringLiteral op; lhs; rhs]) st
      else XKeep n st
  | inr e, _ | _, inr e =>
      if includes op numOrStringOperators || includes op numOperators
      then XThrow e else XKeep n st
  end.

Definition UnaryExpression (n : node) (st : St) : enter_result :=
  if String.eqb (attr_s "operator" n) "delete" ||
     String.eqb (attr_s "operator" n) "typeof" then
    with_error n ("Do not use the '" ++ attr_s "operator" n ++ "' operator.") st
      (fun st' => EContinue (attrs_of n) st')
  else EContinue (attrs_of n) st.

Definition NewExpression_enter (n : node) (st : St) : enter_result :=
  EContinue (attrs_of n) st.

(** The last statement of the handler is [path.skip;], an expression that
    reads the method and does not call it. *)
Definition NewExpression_exit (n : node) (st : St) : exit_result :=
  match child "callee" n with
  | None => XThrow (ThrownTypeError "Cannot read property 'type' of undefined")
  | Some callee =>
      if String.eqb (type_of callee) "Identifier" &&
         String.eqb (attr_s "name" callee) "Array" then
        (* new Array(...) ==> new SafeArray(...) *)
        let safeArray :=
          memberExpression (identifier "rts") (identifier "SafeArray") false in
        let replacement := newExpression safeArray (children "arguments" n) in
        XReplace replacement st
      else XKeep n st
  end.

Definition UpdateExpression_enter (n : node) (st : St) : enter_result :=
  match attr_b "prefix" n with
  | Some false =>
      with_error n "Do not use post-increment or post-decrement operators." st
        (fun st' => EContinue (attrs_of n) st')
  | _ => EContinue (attrs_of n) st
  end.

Definition UpdateExpression_exit (n : node) (st : St) : exit_result :=
  match child "argument" n with
  | None => XThrow (ThrownTypeError "Cannot read property 'type' of undefined")
  | Some a =>
      if negb (String.eqb (type_of a) "Identifier") &&
         negb (String.eqb (type_of a) "MemberExpression") then
        XThrow (ThrownError "not an l-value in update expression")
      else if String.eqb (type_of a) "Identifier" then
        (* ++x ==> updateOnlyNumbers(++x), x *)
        let check :=
          dynCheck "updateOnlyNumbers" [stringLiteral (attr_s "operator" n); a] in
        XReplaceSkip (sequenceExpression [check; n]) st
      else
        match required "object" a, propertyAsString a with
        | inl object, inl name =>
            XReplaceSkip
              (dynCheck "checkUpdateOperand"
                 [stringLiteral (attr_s "operator" n); object; name]) st
        | inr e, _ | _, inr e => XThrow e
        end
  end.

(** [ForStatement] and [WhileStatement] *)
Definition loop_handler (n : node) (st : St) : enter_result :=
  if negb (has_type "BlockStatement" (child "body" n)) then
    with_error n "Loop body must be enclosed in braces." st
      (fun st' => EContinue (attrs_of n) st')
  else EContinue (attrs_of n) st.

Definition VariableDeclaration (n : node) (st : St) : enter_result :=
  if negb (String.eqb (attr_s "kind" n) "let") &&
     negb (String.eqb (attr_s "kind" n) "const") then
    with_error n "Use 'let' or 'const' to declare a variable." st
      (fun st' => EContinue (attrs_of n) st')
  else EContinue (attrs_of n) st.

(** The handlers that reject a statement outright. *)
Definition banned (msg : string) (n : node) (st : St) : enter_result :=
  with_error n msg st (fun st' => EContinue (attrs_of n) st').

(** The [enter] handler of the type of [n], if the visitor has one. *)
Definition call_enter (ctx : Ctx) (n : node) (st : St) : enter_result :=
  let t := type_of n in
  if String.eqb t "Program" then Program_enter n st
  else if String.eqb t "VariableDeclarator" then VariableDeclarator n st
  else if String.eqb t "CallExpression" then CallExpression n st
  else if String.eqb t "AssignmentExpression" then AssignmentExpression_enter ctx n st
  else if String.eqb t "BinaryExpression" then BinaryExpression_enter n st
  else if String.eqb t "UnaryExpression" then UnaryExpression n st
  else if String.eqb t "NewExpression" then NewExpression_enter n st
  else if String.eqb t "UpdateExpression" then UpdateExpression_enter n st
  else if String.eqb t "ForStatement" then loop_handler n st
  else if String.eqb t "WhileStatement" then loop_handler n st
  else if String.eqb t "VariableDeclaration" then VariableDeclaration n st
  else if String.eqb t "ThrowStatement" then
    banned "Do not use the 'throw' operator." n st
  else if String.eqb t "WithStatement" then
    banned "Do not use the 'with' statement." n st
  else if String.eqb t "SwitchStatement" then
    banned "Do not use the 'switch' statement." n st
  else if String.eqb t "LabeledStatement" then
    banned "Do not use labels to alter control-flow" n st
  else if String.eqb t "ForOfStatement" then banned "Do not use for-of loops." n st
  else if String.eqb t "ForInStatement" then banned "Do not use for-in loops." n st
  else EContinue (attrs_of n) st.

(** The [exit] handler of the type of [n], if the visitor has one. *)
Definition call_exit (ctx : Ctx) (n : node) (st : St) : exit_result :=
  let t := type_of n in
  if String.eqb t "Program" then Program_exit n st
  else if String.eqb t "MemberExpression" then MemberExpression_exit ctx n st
  else if String.eqb t "AssignmentExpression" then AssignmentExpression_exit n st
  else if String.eqb t "BinaryExpression" then BinaryExpression_exit n st
  else if String.eqb t "NewExpression" then NewExpression_exit n st
  else if String.eqb t "UpdateExpression" then UpdateExpression_exit n st
  else XKeep n st.

(** *** The traversal engine

    Modelled from the spec: the traversal engine ([babel-traverse]), a
    library that the sources call and do not contain.  A path is visited by calling its
    [enter] handler, visiting the node fields in order, and calling its
    [exit] handler.  [path.skip()] in [enter] leaves out the children and
    [exit]; a path whose node was replaced is queued again and visited
    anew, unless it was marked by [path.skip()] after the replacement.
    The paths of an array are queued when the traversal reaches the
    array, so that a node pushed onto it before that is visited and one
    pushed later is not.  Nodes are values here: a node that the source shares between two
    places of the tree is visited as two copies. *)

Inductive outcome : Type :=
| Done (n : node) (st : St)
| Thrown (e : thrown)
| OutOfFuel.

Inductive kids_outcome : Type :=
| KDone (ks : list (string * kid)) (st : St)
| KThrown (e : thrown)
| KOutOfFuel.

Inductive list_outcome : Type :=
| LDone (ns : list node) (st : St)
| LThrown (e : thrown)
| LOutOfFuel.

(** The types for which [path.isFunction()] holds. *)
Definition function_types : list string :=
  ["FunctionDeclaration"; "FunctionExpression"; "ObjectMethod";
   "ArrowFunctionExpression"; "ClassMethod"].

Definition child_ctx (ctx : Ctx) (ty k : string) : Ctx :=
  {| parent_type := ty; key := k;
     function_parent :=
       if String.eqb ty "Program" || includes ty function_types
       then ty else function_parent ctx |}.

(** The types whose body [enclosingScopeBlock] pushes onto. *)
Definition owns_block (ty : string) : bool :=
  includes ty ["Program"; "FunctionExpression"; "FunctionDeclaration";
               "ObjectMethod"].

(** [var tmp;] *)
Definition tmp_declaration (tmp : string) : node :=
  variableDeclaration "var" [variableDeclarator (identifier tmp) None].

Definition push_Many (k : string) (decls : list node) (n : node) : node :=
  Node (type_of n) (loc_of n) (attrs_of n)
       (update k (Many (children k n ++ decls)) (kids_of n)).

(** The body of [n] once the declarations of [tmps] have been pushed onto
    it: [parent.body] for the program, [parent.body.body] for a
    function. *)
Definition append_body (tmps : list string) (n : node) : node :=
  match tmps with
  | [] => n
  | _ =>
      let decls := map tmp_declaration tmps in
      if String.eqb (type_of n) "Program" then push_Many "body" decls n
      else
        match child "body" n with
        | Some block =>
            Node (type_of n) (loc_of n) (attrs_of n)
                 (update "body" (One (push_Many "body" decls block)) (kids_of n))
        | None => n
        end
  end.

(** The declarations that the array [k] of a node of type [ty] holds
    already when its paths are queued: those pushed while the fields
    before the body were visited (the parameters of a function, the key
    of a method).  They are queued after the statements, as the
    statements are visited like them. *)
Definition queued_before (ctx : Ctx) (ty k : string) (st : St) : list string :=
  if String.eqb k "body" &&
     (String.eqb ty "Program" ||
      String.eqb ty "BlockStatement" && String.eqb (key ctx) "body" &&
      includes (parent_type ctx)
        ["FunctionExpression"; "FunctionDeclaration"; "ObjectMethod"])
  then pending st else [].

(** Visiting a queued declaration: the handler of [VariableDeclaration]
    reports its [var], and the node has no position (lemma
    [call_enter_tmp_declaration]). *)
Definition declaration_thrown : thrown :=
  ThrownTypeError "Cannot read property 'start' of undefined".

(** [fuel] bounds how many times in a row a path is queued again. *)
Fixpoint visit (fuel : nat) : Ctx -> node -> St -> outcome :=
  match fuel with
  | O => fun _ _ _ => OutOfFuel
  | S fuel' =>
      fix visit_node (ctx : Ctx) (n : node) (st : St) {struct n} : outcome :=
        match n with
        | Node ty loc attrs kids =>
            match call_enter ctx (Node ty loc attrs kids) st with
            | EThrow e => Thrown e
            | ESkip st1 => Done (Node ty loc attrs kids) st1
            | EReplace n' st1 => visit fuel' ctx n' st1
            | EContinue attrs' st1 =>
                let saved := pending st1 in
                let st1' := if owns_block ty then set_pending [] st1 else st1 in
                let visited :=
                  (fix visit_kids (ks : list (string * kid)) (st : St) {struct ks}
                     : kids_outcome :=
                     match ks with
                     | [] => KDone [] st
                     | (k, One c) :: rest =>
                         match visit_node (child_ctx ctx ty k) c st with
                         | Done c' st' =>
                             match visit_kids rest st' with
                             | KDone rest' st'' => KDone ((k, One c') :: rest') st''
                             | other => other
                             end
                         | Thrown e => KThrown e
                         | OutOfFuel => KOutOfFuel
                         end
                     | (k, Many cs) :: rest =>
                         match
                           (fix visit_list (l : list node) (st : St) {struct l}
                              : list_outcome :=
                              match l with
                              | [] => LDone [] st
                              | c :: l' =>
                                  match visit_node (child_ctx ctx ty k) c st with
                                  | Done c' st' =>
                                      match visit_list l' st' with
                                      | LDone l'' st'' => LDone (c' :: l'') st''
                                      | other => other
                                      end
                                  | Thrown e => LThrown e
                                  | OutOfFuel => LOutOfFuel
                                  end
                              end) cs st
                         with
                         | LDone cs' st' =>
                             match queued_before ctx ty k st with
                             | [] =>
                                 match visit_kids rest st' with
                                 | KDone rest' st'' =>
                                     KDone ((k, Many cs') :: rest') st''
                                 | other => other
                                 end
                             | _ :: _ => KThrown declaration_thrown
                             end
                         | LThrown e => KThrown e
                         | LOutOfFuel => KOutOfFuel
                         end
                     end) kids st1' in
                match visited with
                | KThrown e => Thrown e
                | KOutOfFuel => OutOfFuel
                | KDone kids' st2 =>
                    let n2 :=
                      if owns_block ty
                      then append_body (pending st2) (Node ty loc attrs' kids')
                      else Node ty loc attrs' kids' in
                    let st2' := if owns_block ty then set_pending saved st2 else st2 in
                    match call_exit ctx n2 st2' with
                    | XThrow e => Thrown e
                    | XKeep n3 st3 => Done n3 st3
                    | XReplaceSkip n3 st3 => Done n3 st3
                    | XReplace n3 st3 => visit fuel' ctx n3 st3
                    end
                end
            end
        end
  end.

(** The traversal of an array of nodes and of the node fields of a node of
    type [ty], as functions of their own: [visit] goes through the children
    of a node in this way (lemma [visit_unfold]). *)
Definition visit_list (fuel : nat) (ctx : Ctx) : list node -> St -> list_outcome :=
  fix visit_list (l : list node) (st : St) {struct l} : list_outcome :=
    match l with
    | [] => LDone [] st
    | c :: l' =>
        match visit fuel ctx c st with
        | Done c' st' =>
            match visit_list l' st' with
            | LDone l'' st'' => LDone (c' :: l'') st''
            | other => other
            end
        | Thrown e => LThrown e
        | OutOfFuel => LOutOfFuel
        end
    end.

Definition visit_kids (fuel : nat) (ctx : Ctx) (ty : string)
  : list (string * kid) -> St -> kids_outcome :=
  fix visit_kids (ks : list (string * kid)) (st : St) {struct ks} : kids_outcome :=
    match ks with
    | [] => KDone [] st
    | (k, One c) :: rest =>
        match visit fuel (child_ctx ctx ty k) c st with
        | Done c' st' =>
            match visit_kids rest st' with
            | KDone rest' st'' => KDone ((k, One c') :: rest') st''
            | other => other
            end
        | Thrown e => KThrown e
        | OutOfFuel => KOutOfFuel
        end
    | (k, Many cs) :: rest =>
        match visit_list fuel (child_ctx ctx ty k) cs st with
        | LDone cs' st' =>
            match queued_before ctx ty k st with
            | [] =>
                match visit_kids rest st' with
                | KDone rest' st'' => KDone ((k, Many cs') :: rest') st''
                | other => other
                end
            | _ :: _ => KThrown declaration_thrown
            end
        | LThrown e => KThrown e
        | LOutOfFuel => KOutOfFuel
        end
    end.

(** What [visit] does once [enter] has said to go on; [fuel] is not
    zero. *)
Definition after_enter (fuel : nat) (ctx : Ctx) (ty : string) (loc : option nat)
  (attrs' : list (string * attr)) (kids : list (string * kid)) (st1 : St)
  : outcome :=
  let saved := pending st1 in
  let st1' := if owns_block ty then set_pending [] st1 else st1 in
  match visit_kids fuel ctx ty kids st1' with
  | KThrown e => Thrown e
  | KOutOfFuel => OutOfFuel
  | KDone kids' st2 =>
      let n2 := if owns_block ty
                then append_body (pending st2) (Node ty loc attrs' kids')
                else Node ty loc attrs' kids' in
      let st2' := if owns_block ty then set_pending saved st2 else st2 in
      match call_exit ctx n2 st2' with
      | XThrow e => Thrown e
      | XKeep n3 st3 => Done n3 st3
      | XReplaceSkip n3 st3 => Done n3 st3
      | XReplace n3 st3 => visit (pred fuel) ctx n3 st3
      end
  end.

(** *** Compiling a program *)

(** The names of the identifiers of a tree. *)
Fixpoint names (n : node) : list string :=
  match n with
  | Node ty _ attrs kids =>
      List.app
        (if String.eqb ty "Identifier"
         then match lookup "name" attrs with Some (AString x) => [x] | _ => [] end
         else [])
        ((fix names_kids (ks : list (string * kid)) : list string :=
            match ks with
            | [] => []
            | (_, One c) :: rest => List.app (names c) (names_kids rest)
            | (_, Many cs) :: rest =>
                List.app
                  ((fix names_list (l : list node) : list string :=
                      match l with
                      | [] => []
                      | c :: l' => List.app (names c) (names_list l')
                      end) cs)
                  (names_kids rest)
            end) kids)
  end.

(** The path of the program: its parent is the [File] node. *)
Definition root : Ctx :=
  {| parent_type := "File"; key := "program"; function_parent := "File" |}.

Definition start (o : Opts) (program : node) : St :=
  {| errors := []; opts := o; used := names program; pending := [] |}.

(** What a caller of the pass sees: the rewritten tree, or the thrown
    state read through the [CompileError] interface
    ([{kind: 'error', errors}]), or another exception. *)
Inductive CompileResult : Type :=
| CompileOk (program : node)
| CompileError (errs : list ElementarySyntaxError)
| Crash (e : thrown)
| Diverges.

Definition compile (fuel : nat) (o : Opts) (program : node) : CompileResult :=
  match visit fuel root program (start o program) with
  | Done n _ => CompileOk n
  | Thrown (ThrownState errs) => CompileError errs
  | Thrown e => Crash e
  | OutOfFuel => Diverges
  end.

(** *** The program between [enter] and [exit] *)

(** The state in which the children of the program are visited: what
    [Program.enter] leaves. *)
Definition entered (o : Opts) (program : node) : St :=
  set_pending [] (set_errors [] (start o program)).

(** The traversal of the children of the program, between its [enter] and
    its [exit]. *)
Definition traverse_program (fuel : nat) (o : Opts) (program : node) : kids_outcome :=
  visit_kids fuel root "Program" (kids_of program) (entered o program).

(** The node that [Program.exit] receives. *)
Definition traversed (program : node) (kids' : list (string * kid)) (st : St) : node :=
  append_body (pending st) (Node "Program" (loc_of program) (attrs_of program) kids').

(** The binding that [Program.exit] prepends. *)
Definition loader (st : St) : node :=
  variableDeclaration "var"
    [variableDeclarator (identifier "rts") (Some (rtsExpression st))].

(** *** Evaluation order of the desugared forms *)

(** The operand expressions that one evaluation of [n] evaluates, in
    order, for the forms that the desugaring builds: a sequence evaluates
    its expressions in turn, an assignment the parts of its target and then
    its right side, a binary expression its two operands, a member
    expression its object and, when computed, its property; an identifier
    or a literal has no operands.  An expression of another form counts as
    one evaluation of itself. *)
Fixpoint evaluations (n : node) {struct n} : list node :=
  match n with
  | Node ty loc attrs kids =>
      let parts :=
        (fix parts (ks : list (string * kid)) : list (string * list node) :=
           match ks with
           | [] => []
           | (k, One c) :: rest => (k, evaluations c) :: parts rest
           | (k, Many cs) :: rest =>
               (k, (fix each (l : list node) : list node :=
                      match l with
                      | [] => []
                      | c :: l' => List.app (evaluations c) (each l')
                      end) cs) :: parts rest
           end) kids in
      let part k := match lookup k parts with Some l => l | None => [] end in
      if String.eqb ty "SequenceExpression" then part "expressions"
      else if String.eqb ty "AssignmentExpression" then
        List.app (part "left") (part "right")
      else if String.eqb ty "BinaryExpression" then
        List.app (part "left") (part "right")
      else if String.eqb ty "MemberExpression" then
        List.app (part "object")
          (match lookup "computed" attrs with
           | Some (ABoolean true) => part "property"
           | _ => []
           end)
      else if String.eqb ty "Identifier" || String.eqb ty "StringLiteral" ||
              String.eqb ty "NumericLiteral" || String.eqb ty "BooleanLiteral" ||
              String.eqb ty "NullLiteral" then []
      else [Node ty loc attrs kids]
  end.

Definition compound_operators : list string := ["+="; "-="; "*="; "/="; "%="].

Definition block_owners : list string :=
  ["Program"; "FunctionExpression"; "FunctionDeclaration"; "ObjectMethod"].

(** [object[property] op rhs] or [object.property op rhs], as the parser
    builds it. *)
Definition member_assignment (loc loc' : option nat) (op : string)
  (object property : node) (computed : bool) (rhs : node) : node :=
  Node "AssignmentExpression" loc [("operator", AString op)]
    [("left", One (Node "MemberExpression" loc' [("computed", ABoolean computed)]
                     [("object", One object); ("property", One property)]));
     ("right", One rhs)].

(** [tmp[property] = tmp[property] bop rhs] *)
Definition through_temporary (tmp : node) (bop : string)
  (property : node) (computed : bool) (rhs : node) : node :=
  assignmentExpression "="
    (memberExpression tmp property computed)
    (binaryExpression bop (memberExpression tmp property computed) rhs).

(** *** Properties of trees *)

(** Every node of a tree satisfies [p]. *)
Definition all_list (all : node -> bool) : list node -> bool :=
  fix all_list (l : list node) : bool :=
    match l with
    | [] => true
    | c :: l' => all c && all_list l'
    end.

Definition all_kids (all : node -> bool) : list (string * kid) -> bool :=
  fix all_kids (ks : list (string * kid)) : bool :=
    match ks with
    | [] => true
    | (_, One c) :: rest => all c && all_kids rest
    | (_, Many cs) :: rest => all_list all cs && all_kids rest
    end.

Fixpoint all_nodes (p : node -> bool) (n : node) {struct n} : bool :=
  match n with
  | Node ty loc attrs kids =>
      p (Node ty loc attrs kids) &&
      (fix all_kids (ks : list (string * kid)) : bool :=
         match ks with
         | [] => true
         | (_, One c) :: rest => all_nodes p c && all_kids rest
         | (_, Many cs) :: rest =>
             (fix all_list (l : list node) : bool :=
                match l with
                | [] => true
                | c :: l' => all_nodes p c && all_list l'
                end) cs && all_kids rest
         end) kids
  end.

Definition all_kid (all : node -> bool) (v : kid) : bool :=
  match v with One c => all c | Many cs => all_list all cs end.

Definition not_program (m : node) : bool := negb (String.eqb (type_of m) "Program").

(** No node of the tree is a [Program]: what holds of the body of a parsed
    program. *)
Definition program_free (n : node) : bool := all_nodes not_program n.

Definition strict_operators : list string := ["==="; "!=="].

Definition strict_node (m : node) : bool :=
  if String.eqb (type_of m) "BinaryExpression"
  then includes (attr_s "operator" m) strict_operators
  else true.

(** Every binary expression of the tree has a strict equality operator. *)
Definition strict_only (n : node) : bool := all_nodes strict_node n.

Definition ready_operators : list string :=
  strict_operators ++ numOrStringOperators ++ numOperators.

Definition operator_of (attrs : list (string * attr)) : string :=
  match lookup "operator" attrs with
  | Some (AString s) => s
  | _ => "undefined"
  end.

(** *** How often a path can be queued again *)

(** [enter] or [exit] queues the path of [n] again: a compound assignment
    is replaced at [enter], and so is [new Array(...)] at [exit]. *)

Definition requeues (n : node) : bool :=
  (String.eqb (type_of n) "AssignmentExpression" &&
   negb (String.eqb (attr_s "operator" n) "=")) ||
  (String.eqb (type_of n) "NewExpression" &&
   match child "callee" n with
   | Some callee => String.eqb (type_of callee) "Identifier" &&
                    String.eqb (attr_s "name" callee) "Array"
   | None => false
   end).

(** The largest number of times in a row that a path of the tree can be
    queued again. *)
Definition rank_list (rank : node -> nat) : list node -> nat :=
  fix rank_list (l : list node) : nat :=
    match l with
    | [] => 0
    | c :: l' => Nat.max (rank c) (rank_list l')
    end.

Definition rank_kids (rank : node -> nat) : list (string * kid) -> nat :=
  fix rank_kids (ks : list (string * kid)) : nat :=
    match ks with
    | [] => 0
    | (_, One c) :: rest => Nat.max (rank c) (rank_kids rest)
    | (_, Many cs) :: rest => Nat.max (rank_list rank cs) (rank_kids rest)
    end.

Fixpoint rank (n : node) {struct n} : nat :=
  match n with
  | Node ty loc attrs kids =>
      (if requeues (Node ty loc attrs kids) then 1 else 0) +
      (fix rank_kids (ks : list (string * kid)) : nat :=
         match ks with
         | [] => 0
         | (_, One c) :: rest => Nat.max (rank c) (rank_kids rest)
         | (_, Many cs) :: rest =>
             Nat.max ((fix rank_list (l : list node) : nat :=
                         match l with
                         | [] => 0
                         | c :: l' => Nat.max (rank c) (rank_list l')
                         end) cs) (rank_kids rest)
         end) kids
  end.

Definition rank_kid (v : kid) : nat :=
  match v with One c => rank c | Many cs => rank_list rank cs end.

(** *** Induction on trees *)

Section node_induction.

Variable P : node -> Prop.

Definition P_kid (k : kid) : Prop :=
  match k with One c => P c | Many cs => Forall P cs end.

Hypothesis step : forall ty loc attrs kids,
  Forall (fun kk => P_kid (snd kk)) kids -> P (Node ty loc attrs kids).

Fixpoint node_induction (n : node) : P n :=
  match n with
  | Node ty loc attrs kids =>
      step ty loc attrs kids
        ((fix kids_ind (ks : list (string * kid))
            : Forall (fun kk => P_kid (snd kk)) ks :=
            match ks with
            | [] => Forall_nil _
            | (k, One c) :: rest =>
                Forall_cons (k, One c)
                  (node_induction c : P_kid (snd (k, One c))) (kids_ind rest)
            | (k, Many cs) :: rest =>
                Forall_cons (k, Many cs)
                  ((fix list_ind (l : list node) : Forall P l :=
                      match l with
                      | [] => Forall_nil _
                      | c :: l' => Forall_cons c (node_induction c) (list_ind l')
                      end) cs : P_kid (snd (k, Many cs)))
                  (kids_ind rest)
            end) kids)
  end.

End node_induction.

(** *** What the handlers and the traversal guarantee *)

Definition exit_rank_post (n : node) (r : exit_result) : Prop :=
  match r with
  | XKeep n3 _ => rank n3 <= rank n /\ type_of n3 = type_of n /\ attrs_of n3 = attrs_of n
  | XReplaceSkip n3 _ => rank n3 <= rank n /\ type_of n3 <> "Identifier"
  | XReplace n3 _ => rank n3 < rank n /\ type_of n3 <> "Identifier"
  | XThrow _ => True
  end.

(** How the result of visiting a node relates to the node. *)
Definition shrinks (c c' : node) : Prop :=
  rank c' <= rank c /\
  (type_of c' = "Identifier" -> type_of c = "Identifier" /\ attrs_of c' = attrs_of c).

Definition kid_shrinks (v v' : kid) : Prop :=
  match v, v' with
  | One c, One c' => shrinks c c'
  | Many cs, Many cs' => Forall2 shrinks cs cs'
  | _, _ => False
  end.

Definition kids_shrink (ks ks' : list (string * kid)) : Prop :=
  Forall2 (fun a b => fst a = fst b /\ kid_shrinks (snd a) (snd b)) ks ks'.

(** Visiting [c] with [S f] units of fuel ends, and its result is
    related to [c] by [shrinks]. *)
Definition visit_ok (f : nat) (c : node) : Prop :=
  forall ctx st, rank c < S f ->
    visit (S f) ctx c st <> OutOfFuel /\
    forall c' st', visit (S f) ctx c st = Done c' st' -> shrinks c c'.

(** [st'] has the diagnostics of [st] and possibly more; if it has no more,
    [Q] holds. *)
Definition grows (st st' : St) (Q : Prop) : Prop :=
  exists extra, errors st' = (errors st ++ extra)%list /\ (extra = [] -> Q).

Definition enter_post (n : node) (st : St) (r : enter_result) : Prop :=
  match r with
  | EContinue attrs' st1 =>
      exists extra, errors st1 = (errors st ++ extra)%list /\
        (extra = [] -> type_of n = "BinaryExpression" ->
         includes (operator_of attrs') ready_operators = true)
  | ESkip st1 => exists e, errors st1 = (errors st ++ [e])%list
  | EReplace n' st1 =>
      errors st1 = errors st /\ (program_free n = true -> program_free n' = true)
  | EThrow e => forall errs, e <> ThrownState errs
  end.

Definition sound_result (st : St) (r : outcome) : Prop :=
  match r with
  | Done n' st' => program_free n' = true /\ grows st st' (strict_only n' = true)
  | Thrown e => forall errs, e <> ThrownState errs
  | OutOfFuel => True
  end.

Definition sound_list (st : St) (r : list_outcome) : Prop :=
  match r with
  | LDone cs' st' =>
      all_list program_free cs' = true /\ grows st st' (all_list strict_only cs' = true)
  | LThrown e => forall errs, e <> ThrownState errs
  | LOutOfFuel => True
  end.

Definition sound_kids (st : St) (r : kids_outcome) : Prop :=
  match r with
  | KDone ks' st' =>
      all_kids program_free ks' = true /\ grows st st' (all_kids strict_only ks' = true)
  | KThrown e => forall errs, e <> ThrownState errs
  | KOutOfFuel => True
  end.

Definition visit_sound_at (fuel : nat) (c : node) : Prop :=
  forall ctx st, program_free c = true -> sound_result st (visit fuel ctx c st).

(** *** Sample programs, as the parser builds them *)

Definition located (l : nat) (n : node) : node :=
  Node (type_of n) (Some l) (attrs_of n) (kids_of n).

Definition numericLiteral (l : nat) (z : Z) : node :=
  Node "NumericLiteral" (Some l) [("value", ANumber (Num.of_Z z))] [].

Definition expressionStatement (l : nat) (e : node) : node :=
  Node "ExpressionStatement" (Some l) [] [("expression", One e)].

Definition program (body : list node) : node :=
  Node "Program" (Some 1) [] [("body", Many body)].

Definition standalone : Opts := {| isOnline := false; runTests := false |}.

(** [new Array(3);] and [new Array(3, 0);] *)
Definition new_Array (args : list node) : node :=
  program [expressionStatement 1
             (located 1 (newExpression (located 1 (identifier "Array")) args))].

(** [Array(3);] *)
Definition call_Array : node :=
  program [expressionStatement 1
             (located 1 (callExpression (located 1 (identifier "Array"))
                                        [numericLiteral 1 3]))].

(** The tree that the pass makes of [new Array(args);]. *)
Definition new_SafeArray (o : Opts) (args : list node) : node :=
  program [loader (start o (program []));
           expressionStatement 1
             (newExpression (dynCheck "dot" [identifier "rts"; stringLiteral "SafeArray"])
                            args)].

(** [1;] *)
Definition one_statement : node := program [expressionStatement 1 (numericLiteral 1 1)].

(** [++x] on line 1, and the check that the pass puts before it:
    [rts.updateOnlyNumbers('++', x)]. *)
Definition prefix_update : node :=
  Node "UpdateExpression" (Some 1)
       [("operator", AString "++"); ("prefix", ABoolean true)]
       [("argument", One (located 1 (identifier "x")))].

Definition update_check : node :=
  dynCheck "updateOnlyNumbers" [stringLiteral "++"; located 1 (identifier "x")].

(** The replacement of [NewExpression.exit]. *)
Definition SafeArray_replacement (arguments : list node) : node :=
  newExpression (memberExpression (identifier "rts") (identifier "SafeArray") false)
                arguments.

(** [x++; a === b;] on lines 1 and 2 *)
Definition two_diagnostics : node :=
  program
    [expressionStatement 1
       (Node "UpdateExpression" (Some 1)
             [("operator", AString "++"); ("prefix", ABoolean false)]
             [("argument", One (located 1 (identifier "x")))]);
     expressionStatement 2
       (located 2 (binaryExpression "===" (located 2 (identifier "a"))
                                    (located 2 (identifier "b"))))].

(** [a == 1 + 2;] *)
Definition loose_equality : node :=
  program
    [expressionStatement 1
       (located 1 (binaryExpression "==" (located 1 (identifier "a"))
          (located 1 (binaryExpression "+" (numericLiteral 1 1) (numericLiteral 1 2)))))].

(** [a.b += 1] *)
Definition compound : node :=
  member_assignment (Some 1) (Some 1) "+=" (located 1 (identifier "a"))
                    (located 1 (identifier "b")) false (numericLiteral 1 1).

(** [_tmp = a, rts.checkMember(_tmp, 'b',
       rts.applyNumOrStringOp('+', rts.dot(_tmp, 'b'), 1));] *)
Definition compound_checked : node :=
  expressionStatement 1
    (sequenceExpression
       [assignmentExpression "=" (identifier "_tmp") (located 1 (identifier "a"));
        dynCheck "checkMember"
          [identifier "_tmp"; stringLiteral "b";
           dynCheck "applyNumOrStringOp"
             [stringLiteral "+";
              dynCheck "dot" [identifier "_tmp"; stringLiteral "b"];
              numericLiteral 1 1]]]).

(** [function f(x = (a.b += 1)) { }] *)
Definition default_parameter : node :=
  program
    [Node "FunctionDeclaration" (Some 1) []
       [("id", One (located 1 (identifier "f")));
        ("params",
         Many [Node "AssignmentPattern" (Some 1) []
                 [("left", One (located 1 (identifier "x")));
                  ("right", One compound)]]);
        ("body", One (Node "BlockStatement" (Some 1) [] [("body", Many [])]))]].

(** *** Vocabulary of the statements about the whole pass *)

(** The messages of the [Error]s by which the handlers report that an
    earlier check or desugaring of their own went wrong. *)
Definition internal_errors : list string :=
  ["should not happen"; "desugaring error"; "syntactic check error"].

Definition internal (e : thrown) : bool :=
  match e with
  | ThrownError m => includes m internal_errors
  | _ => false
  end.

Definition no_internal (r : outcome) : Prop :=
  match r with Thrown e => internal e = false | _ => True end.

(** The nodes for which an [enter] handler records a diagnostic, whatever
    surrounds them. *)
Definition rejected (n : node) : bool :=
  let t := type_of n in
  includes t ["ThrowStatement"; "WithStatement"; "SwitchStatement";
              "LabeledStatement"; "ForOfStatement"; "ForInStatement"] ||
  (String.eqb t "VariableDeclaration" &&
   negb (String.eqb (attr_s "kind" n) "let") &&
   negb (String.eqb (attr_s "kind" n) "const")) ||
  (String.eqb t "VariableDeclarator" &&
   (negb (has_type "Identifier" (child "id" n)) ||
    negb (isExpression (child "init" n)))) ||
  (String.eqb t "CallExpression" &&
   has_type "Identifier" (child "callee" n) &&
   match child "callee" n with
   | Some callee => String.eqb (attr_s "name" callee) "Array"
   | None => false
   end) ||
  (String.eqb t "AssignmentExpression" &&
   (negb (includes (attr_s "operator" n) allowed) ||
    negb (has_type "Identifier" (child "left" n)) &&
    negb (has_type "MemberExpression" (child "left" n)))) ||
  (String.eqb t "BinaryExpression" &&
   negb (includes (attr_s "operator" n) allowedBinaryOperators)) ||
  (String.eqb t "UnaryExpression" &&
   (String.eqb (attr_s "operator" n) "delete" ||
    String.eqb (attr_s "operator" n) "typeof")) ||
  (String.eqb t "UpdateExpression" &&
   match attr_b "prefix" n with Some false => true | _ => false end) ||
  ((String.eqb t "ForStatement" || String.eqb t "WhileStatement") &&
   negb (has_type "BlockStatement" (child "body" n))).

Definition accepted (n : node) : bool := negb (rejected n).

(** The node fields of an assignment, as the parser builds it: [left] and
    [right] and no other; and those of a member expression that is its
    target: [object] and [property]. *)
Definition two_fields (k1 k2 : string) (n : node) : bool :=
  match kids_of n with
  | [(a, One _); (b, One _)] => String.eqb a k1 && String.eqb b k2
  | _ => false
  end.

Definition assignment_fields (n : node) : bool :=
  if String.eqb (type_of n) "AssignmentExpression" then
    two_fields "left" "right" n &&
    match child "left" n with
    | Some lhs =>
        if String.eqb (type_of lhs) "MemberExpression"
        then two_fields "object" "property" lhs else true
    | None => true
    end
  else true.

(** More diagnostics in [st'] than in [st]. *)
Definition more_errors (st : St) (r : outcome) : Prop :=
  match r with
  | Done _ st' => List.length (errors st) < List.length (errors st')
  | _ => True
  end.

(** An [enter] handler that records one diagnostic. *)
Definition records_one (st : St) (r : enter_result) : Prop :=
  match r with
  | EContinue _ st1 | ESkip st1 => exists e, errors st1 = (errors st ++ [e])%list
  | EReplace _ _ => False
  | EThrow _ => True
  end.

(** Visiting [c] with [fuel] units of fuel records a diagnostic when a
    node of [c] is rejected. *)
Definition strict_at (fuel : nat) (c : node) : Prop :=
  forall ctx st,
    program_free c = true -> all_nodes assignment_fields c = true ->
    all_nodes accepted c = false -> more_errors st (visit fuel ctx c st).

(** [lhs op rhs] for an assignment operator [op], as the parser builds
    it. *)
Definition assignment (loc : option nat) (op : string) (lhs rhs : node) : node :=
  Node "AssignmentExpression" loc [("operator", AString op)]
       [("left", One lhs); ("right", One rhs)].

(** The statements of [cs] that contain a rejected node. *)
Definition count_rejected (cs : list node) : nat :=
  List.length (filter (fun c => negb (all_nodes accepted c)) cs).

(** *** Vocabulary of the statement about instrumented trees *)

Definition is_member (c : node) : bool := String.eqb (type_of c) "MemberExpression".

Definition not_member (c : node) : bool := negb (is_member c).

(** The places in which the [exit] handler of a member expression leaves
    it as it is: under a call, as the argument of an update, and as the
    target of an assignment. *)
Definition kept (ctx : Ctx) : bool :=
  String.eqb (parent_type ctx) "CallExpression" ||
  String.eqb (parent_type ctx) "UpdateExpression" && String.eqb (key ctx) "argument" ||
  String.eqb (parent_type ctx) "AssignmentExpression" && String.eqb (key ctx) "left".

(** A node all of whose member reads, member writes and updates of
    members have been handed to the runtime: a member expression is only
    found directly under a call, an assignment is a plain [=] to an
    identifier, and an update applies to an identifier. *)
Definition mediated (n : node) : bool :=
  (String.eqb (type_of n) "CallExpression" || all_kids not_member (kids_of n)) &&
  (if String.eqb (type_of n) "AssignmentExpression"
   then String.eqb (attr_s "operator" n) "=" && has_type "Identifier" (child "left" n)
   else true) &&
  (if String.eqb (type_of n) "UpdateExpression"
   then has_type "Identifier" (child "argument" n)
   else true).

(** The node fields of an assignment, of an update and of a function, as
    the parser builds them: [left] and [right]; [argument]; a block as
    [body]. *)
Definition one_field (k : string) (n : node) : bool :=
  match kids_of n with
  | [(a, One _)] => String.eqb a k
  | _ => false
  end.

Definition shaped (n : node) : bool :=
  (if String.eqb (type_of n) "AssignmentExpression"
   then two_fields "left" "right" n else true) &&
  (if String.eqb (type_of n) "UpdateExpression"
   then one_field "argument" n else true) &&
  (if includes (type_of n) ["FunctionExpression"; "FunctionDeclaration"; "ObjectMethod"]
   then has_type "BlockStatement" (child "body" n) else true).

Definition settled (n : node) : bool := mediated n && shaped n.

(** The fields of [ks'] are those of [ks], each holding a node or an
    array as in [ks]. *)
Definition same_kind (v v' : kid) : bool :=
  match v, v' with
  | One _, One _ | Many _, Many _ => true
  | _, _ => false
  end.

Definition same_fields (ks ks' : list (string * kid)) : Prop :=
  Forall2 (fun a b => fst a = fst b /\ same_kind (snd a) (snd b) = true) ks ks'.

(** The nodes of the field [k] of a node of type [ty] are member
    expressions only where such are kept. *)
Definition members_kept (ctx : Ctx) (ty : string) (ks : list (string * kid)) : Prop :=
  Forall (fun kk =>
            match snd kk with
            | One c => is_member c = true -> kept (child_ctx ctx ty (fst kk)) = true
            | Many cs =>
                Forall (fun c => is_member c = true ->
                                 kept (child_ctx ctx ty (fst kk)) = true) cs
            end) ks.

(** What holds of the result of visiting [c] when no diagnostic was
    recorded. *)
Definition settles (fuel : nat) (c : node) : Prop :=
  forall ctx st c' st',
    program_free c = true -> all_nodes shaped c = true ->
    visit fuel ctx c st = Done c' st' -> errors st' = errors st ->
    all_nodes settled c' = true /\ (is_member c' = true -> kept ctx = true).

End Visitor.

(* ===================================================================== *)
(** ** Facts about numbers *)
(* ===================================================================== *)

Module NumFacts.

Import Num.
Local Open Scope Z_scope.

Lemma iter_xO (p d : positive) : Zpos (Pos.iter xO p d) = Zpos p * 2 ^ Zpos d.
Proof.
  induction d using Pos.peano_ind.
  - simpl. lia.
  - rewrite Pos.iter_succ, Pos2Z.inj_xO, IHd, Pos2Z.inj_succ, Z.pow_succ_r by lia. lia.
Qed.

Lemma shl_align_fst (m : positive) (e e' : Z) :
  e' <= e -> Zpos (fst (shl_align m e e')) = Zpos m * 2 ^ (e - e').
Proof.
  intros H. unfold shl_align.
  destruct (e' - e) eqn:E; cbn [fst].
  - replace (e - e') with 0 by lia. rewrite Z.pow_0_r. lia.
  - lia.
  - rewrite iter_xO. f_equal. f_equal. lia.
Qed.

Lemma cond_Zopp_mul s a b : cond_Zopp s a * b = cond_Zopp s (a * b).
Proof. destruct s; simpl; lia. Qed.

Lemma to_Z_denotes s m e z :
  to_Z (S754_finite s m e) = Some z <-> denotes s m e z.
Proof.
  unfold denotes, to_Z. destruct e as [|k|k].
  - simpl Z.max. rewrite !Z.pow_0_r, cond_Zopp_mul, !Z.mul_1_r.
    split; [intros [= <-]; reflexivity|intros H; f_equal; exact H].
  - replace (Z.max (Z.pos k) 0) with (Z.pos k) by lia.
    replace (Z.max (- Z.pos k) 0) with 0 by lia. rewrite Z.pow_0_r.
    rewrite cond_Zopp_mul, !Z.mul_1_r.
    split; [intros [= <-]; reflexivity|intros H; f_equal; exact H].
  - replace (Z.max (Z.neg k) 0) with 0 by lia.
    replace (Z.max (- Z.neg k) 0) with (Z.pos k) by lia. rewrite Z.pow_0_r, Z.mul_1_r.
    assert (P : 0 < 2 ^ Z.pos k) by (apply Z.pow_pos_nonneg; lia).
    destruct (Z.eqb_spec (Z.pos m mod 2 ^ Z.pos k) 0) as [E|E].
    + pose proof (Z.div_mod (Z.pos m) (2 ^ Z.pos k) ltac:(lia)) as D.
      rewrite E, Z.add_0_r in D.
      split.
      * intros [= <-]. rewrite cond_Zopp_mul. f_equal. lia.
      * intros H. f_equal.
        assert (cond_Zopp s (Z.pos m / 2 ^ Z.pos k) * 2 ^ Z.pos k = z * 2 ^ Z.pos k).
        { rewrite cond_Zopp_mul. rewrite <- H. f_equal. lia. }
        apply Z.mul_cancel_r in H0; lia.
    + split; [discriminate|]. intros H. exfalso. apply E.
      assert (Z.pos m = cond_Zopp s z * 2 ^ Z.pos k).
      { rewrite cond_Zopp_mul, <- H. destruct s; simpl; lia. }
      rewrite H0. apply Z.mod_mul. lia.
Qed.

Lemma denotes_shift s m (d : positive) e z :
  denotes s (Pos.iter xO m d) (e - Zpos d) z <-> denotes s m e z.
Proof.
  unfold denotes. rewrite iter_xO.
  assert (P : forall a, 0 <= a -> 0 < 2 ^ a) by (intros; apply Z.pow_pos_nonneg; lia).
  assert (C : cond_Zopp s (Z.pos m * 2 ^ Z.pos d) = cond_Zopp s (Z.pos m) * 2 ^ Z.pos d)
    by (symmetry; apply cond_Zopp_mul).
  rewrite C. clear C. set (M := cond_Zopp s (Z.pos m)).
  destruct (Z.le_gt_cases (Zpos d) e) as [L|L].
  - replace (Z.max (e - Z.pos d) 0) with (e - Z.pos d) by lia.
    replace (Z.max (- (e - Z.pos d)) 0) with 0 by lia.
    replace (Z.max e 0) with (Zpos d + (e - Zpos d)) by lia.
    replace (Z.max (- e) 0) with 0 by lia.
    rewrite Z.pow_add_r by lia. rewrite Z.mul_assoc. reflexivity.
  - destruct (Z.le_gt_cases 0 e) as [L2|L2].
    + replace (Z.max (e - Z.pos d) 0) with 0 by lia.
      replace (Z.max (- (e - Z.pos d)) 0) with (Zpos d - e) by lia.
      replace (Z.max e 0) with e by lia.
      replace (Z.max (- e) 0) with 0 by lia.
      rewrite !Z.pow_0_r, !Z.mul_1_r.
      replace (Z.pos d) with (e + (Z.pos d - e)) at 1 by lia.
      rewrite Z.pow_add_r by lia. rewrite Z.mul_assoc.
      split; intros H.
      * apply Z.mul_cancel_r in H; [exact H|]. specialize (P (Zpos d - e)). lia.
      * rewrite H. reflexivity.
    + replace (Z.max (e - Z.pos d) 0) with 0 by lia.
      replace (Z.max (- (e - Z.pos d)) 0) with (- e + Zpos d) by lia.
      replace (Z.max e 0) with 0 by lia.
      replace (Z.max (- e) 0) with (- e) by lia.
      rewrite !Z.pow_0_r, !Z.mul_1_r.
      rewrite Z.pow_add_r by lia. rewrite Z.mul_assoc.
      split; intros H.
      * apply Z.mul_cancel_r in H; [exact H|]. specialize (P (Zpos d)). lia.
      * rewrite H. reflexivity.
Qed.

Lemma shl_canon_cases (s : bool) (m : positive) (e : Z) :
  shl_canon s m e = S754_finite s m e \/
  exists d, shl_canon s m e = S754_finite s (Pos.iter xO m d) (e - Zpos d).
Proof.
  unfold shl_canon, shl_align.
  destruct (fexp prec emax (Z.pos (digits2_pos m) + e) - e) eqn:E; auto.
  right. exists p. f_equal. lia.
Qed.

Lemma to_Z_shl_canon s m e : to_Z (shl_canon s m e) = to_Z (S754_finite s m e).
Proof.
  destruct (shl_canon_cases s m e) as [->|[d ->]]; [reflexivity|].
  destruct (to_Z (S754_finite s m e)) as [z|] eqn:E.
  - apply to_Z_denotes, denotes_shift, to_Z_denotes, E.
  - destruct (to_Z (S754_finite s (Pos.iter xO m d) (e - Z.pos d))) as [z|] eqn:E2; [|reflexivity].
    apply to_Z_denotes, denotes_shift, to_Z_denotes in E2. congruence.
Qed.

Lemma to_Z_of_Z z : to_Z (of_Z z) = Some z.
Proof.
  destruct z; unfold of_Z; [reflexivity| |]; rewrite to_Z_shl_canon; simpl; f_equal; lia.
Qed.

Lemma to_Z_trunc x z : to_Z x = Some z -> trunc x = z.
Proof.
  destruct x as [s|s| |s m e]; simpl; try congruence.
  destruct e; try congruence.
  destruct (Z.eqb _ _); congruence.
Qed.

Lemma eqb_finite s m e x :
  eqb (S754_finite s m e) x = true -> x = S754_finite s m e.
Proof.
  unfold eqb, SFeqb, SFcompare.
  destruct x as [sx|sx| |sx mx ex]; try (destruct s, sx; discriminate);
    try (destruct s; discriminate).
  fold (Pos.compare m mx).
  destruct s, sx; try discriminate;
    destruct (Z.compare_spec e ex); try discriminate;
    destruct (Pos.compare_spec m mx); try discriminate; subst; reflexivity.
Qed.

Lemma eqb_zero_l s x : eqb (S754_zero s) x = true -> exists s', x = S754_zero s'.
Proof.
  unfold eqb, SFeqb, SFcompare.
  destruct x as [sx|sx| |sx mx ex]; try (destruct sx; discriminate); try discriminate.
  eauto.
Qed.

Lemma eqb_refl_finite s m e : eqb (S754_finite s m e) (S754_finite s m e) = true.
Proof.
  unfold eqb, SFeqb, SFcompare. fold (Pos.compare m m).
  destruct s; rewrite Z.compare_refl, Pos.compare_refl; reflexivity.
Qed.

(** [(x | 0) === x] only for numbers that denote an integer. *)
Lemma eqb_of_Z k x : eqb (of_Z k) x = true -> to_Z x = Some k.
Proof.
  intros H. pose proof (to_Z_of_Z k) as T.
  destruct k; unfold of_Z in *.
  - apply eqb_zero_l in H as [s' ->]. reflexivity.
  - destruct (shl_canon_cases false p 0) as [E|[d E]]; rewrite E in *;
      apply eqb_finite in H; subst; exact T.
  - destruct (shl_canon_cases true p 0) as [E|[d E]]; rewrite E in *;
      apply eqb_finite in H; subst; exact T.
Qed.

Lemma to_Z_pos_sign s m e z :
  to_Z (S754_finite s m e) = Some z -> z <> 0 /\ (s = true <-> z < 0).
Proof.
  intros H. apply to_Z_denotes in H. unfold denotes in H.
  assert (P : forall a, 0 <= a -> 0 < 2 ^ a) by (intros; apply Z.pow_pos_nonneg; lia).
  pose proof (P (Z.max e 0) ltac:(lia)) as PA.
  pose proof (P (Z.max (- e) 0) ltac:(lia)) as PB.
  set (A := 2 ^ Z.max e 0) in *. set (B := 2 ^ Z.max (- e) 0) in *.
  assert (M : 0 < Z.pos m * A) by (apply Z.mul_pos_pos; lia).
  destruct s; unfold cond_Zopp in H; [rewrite Z.mul_opp_l in H|].
  - assert (z * B < 0) by lia.
    assert (z < 0) by (destruct (Z.lt_ge_cases z 0); [assumption|];
                       assert (0 <= z * B) by (apply Z.mul_nonneg_nonneg; lia); lia).
    split; [lia|]. split; auto.
  - assert (0 < z * B) by lia.
    assert (0 < z) by (destruct (Z.lt_ge_cases 0 z); [assumption|];
                       assert (z * B <= 0) by (apply Z.mul_nonpos_nonneg; lia); lia).
    split; [lia|]. split; [discriminate|lia].
Qed.

Lemma leb_zero_nonpos x z : to_Z x = Some z -> leb x zero = negb (0 <? z).
Proof.
  destruct x as [s|s| |s m e]; try discriminate.
  - intros [= <-]. reflexivity.
  - intros H. apply to_Z_pos_sign in H as [N S]. unfold leb, SFleb, SFcompare, zero.
    destruct s.
    + assert (z < 0) by (apply S; reflexivity). destruct (Z.ltb_spec 0 z); [lia|reflexivity].
    + assert (~ z < 0) by (intros C; apply S in C; discriminate).
      destruct (Z.ltb_spec 0 z); [reflexivity|lia].
Qed.

Lemma ltb_zero_neg x z : to_Z x = Some z -> ltb x zero = (z <? 0).
Proof.
  destruct x as [s|s| |s m e]; try discriminate.
  - intros [= <-]. reflexivity.
  - intros H. apply to_Z_pos_sign in H as [N S]. unfold ltb, SFltb, SFcompare, zero.
    destruct s.
    + assert (z < 0) by (apply S; reflexivity). destruct (Z.ltb_spec z 0); [reflexivity|lia].
    + assert (~ z < 0) by (intros C; apply S in C; discriminate).
      destruct (Z.ltb_spec z 0); [lia|reflexivity].
Qed.

Lemma one_eq : one = S754_finite false 4503599627370496 (-52).
Proof. reflexivity. Qed.

Lemma eqb_shl_canon_zero s m e : eqb (shl_canon s m e) zero = false.
Proof.
  destruct (shl_canon_cases s m e) as [->|[d ->]]; destruct s; reflexivity.
Qed.

(** [(x % 1) !== 0] exactly when [x] does not denote an integer. *)
Lemma rem_one_integral x :
  negb (eqb (rem x one) zero) = match to_Z x with Some _ => false | None => true end.
Proof.
  rewrite one_eq.
  destruct x as [s|s| |s m e]; try reflexivity.
  unfold rem.
  set (e0 := Z.min e (-52)).
  rewrite !shl_align_fst by lia.
  assert (P : forall a, 0 <= a -> 0 < 2 ^ a) by (intros; apply Z.pow_pos_nonneg; lia).
  assert (Y : Z.pos 4503599627370496 * 2 ^ (-52 - e0) = 2 ^ (- e0)).
  { change (Z.pos 4503599627370496) with (2 ^ 52).
    rewrite <- Z.pow_add_r by lia. f_equal. lia. }
  rewrite Y.
  assert (R : Z.pos m * 2 ^ (e - e0) mod 2 ^ (- e0) = 0 <-> to_Z (S754_finite s m e) <> None).
  { unfold to_Z. destruct e as [|k|k].
    - split; [discriminate|]. intros _.
      replace (0 - e0) with (- e0) by lia. apply Z.mod_mul. specialize (P (- e0)). lia.
    - split; [discriminate|]. intros _.
      replace (Z.pos k - e0) with (Z.pos k + - e0) by lia.
      rewrite Z.pow_add_r, Z.mul_assoc by lia. apply Z.mod_mul. specialize (P (- e0)). lia.
    - replace (- e0) with (Z.pos k + (Z.neg k - e0)) by lia.
      rewrite Z.pow_add_r by lia.
      pose proof (P (Z.neg k - e0) ltac:(lia)) as P1.
      pose proof (P (Z.pos k) ltac:(lia)) as P2.
      rewrite Z.mul_mod_distr_r by lia.
      destruct (Z.eqb_spec (Z.pos m mod 2 ^ Z.pos k) 0) as [E|E].
      + rewrite E. split; [discriminate|reflexivity].
      + split; [|congruence]. intros H. apply Z.mul_eq_0 in H. lia. }
  pose proof (Z.mod_pos_bound (Z.pos m * 2 ^ (e - e0)) (2 ^ (- e0)) (P (- e0) ltac:(lia))) as B.
  destruct (Z.pos m * 2 ^ (e - e0) mod 2 ^ (- e0)) as [|r|r] eqn:E.
  - destruct (to_Z (S754_finite s m e)); [reflexivity|]. exfalso. apply R; reflexivity.
  - rewrite eqb_shl_canon_zero.
    destruct (to_Z (S754_finite s m e)); [|reflexivity].
    assert (Z.pos r = 0) by (apply R; discriminate). discriminate.
  - lia.
Qed.

End NumFacts.

(* ===================================================================== *)
(** ** Facts about the runtime layer *)
(* ===================================================================== *)

Module RuntimeFacts.

Import Num NumFacts Runtime.
Local Open Scope nat_scope.
Local Open Scope string_scope.

Lemma slot_set_fill (v : value) (i k : nat) :
  slot_set i v (repeat (Some v) i ++ repeat None (S k)) =
  (repeat (Some v) (S i) ++ repeat None k)%list.
Proof.
  induction i as [|i IH]; simpl; [reflexivity|].
  f_equal. exact IH.
Qed.

Lemma fill_loop_fills (v : value) (k fuel i : nat) :
  k <= fuel ->
  fill_loop fuel i (repeat (Some v) i ++ repeat None k) v = repeat (Some v) (i + k).
Proof.
  revert fuel i. induction k as [|k IH]; intros fuel i L.
  - rewrite Nat.add_0_r. simpl repeat at 2. rewrite app_nil_r.
    destruct fuel; simpl; [reflexivity|].
    rewrite repeat_length, Nat.ltb_irrefl. reflexivity.
  - destruct fuel as [|fuel]; [lia|]. cbn [fill_loop].
    rewrite length_app, !repeat_length.
    replace (i <? i + S k)%nat with true by (symmetry; apply Nat.ltb_lt; lia).
    rewrite slot_set_fill. rewrite (IH fuel (S i)) by lia. f_equal. lia.
Qed.

Lemma create_fill (v : value) (n : nat) :
  fill_loop (List.length (repeat (@None value) n)) 0 (repeat None n) v = repeat (Some v) n.
Proof.
  rewrite repeat_length. apply (fill_loop_fills v n n 0). lia.
Qed.

Lemma to_int32_small z : (- 2 ^ 31 <= z < 2 ^ 31)%Z -> to_int32 (of_Z z) = z.
Proof.
  intros H. unfold to_int32. rewrite (to_Z_trunc _ _ (to_Z_of_Z z)).
  destruct (Z.ltb_spec (z mod 2 ^ 32) (2 ^ 31)) as [L|L].
  - destruct (Z.le_gt_cases 0 z).
    + apply Z.mod_small. lia.
    + exfalso. rewrite <- (Z.mod_add z 1 (2 ^ 32)) in L by lia.
      rewrite Z.mod_small in L; lia.
  - destruct (Z.le_gt_cases 0 z).
    + rewrite Z.mod_small in L; lia.
    + rewrite <- (Z.mod_add z 1 (2 ^ 32)) by lia. rewrite Z.mod_small; lia.
Qed.

Lemma to_int32_range x : (- 2 ^ 31 <= to_int32 x < 2 ^ 31)%Z.
Proof.
  unfold to_int32.
  pose proof (Z.mod_pos_bound (trunc x) (2 ^ 32) ltac:(lia)).
  destruct (Z.ltb_spec (trunc x mod 2 ^ 32) (2 ^ 31)); lia.
Qed.

Lemma eqb_of_Z_refl z : z <> 0%Z -> eqb (of_Z z) (of_Z z) = true.
Proof.
  intros N. destruct z; [congruence| |]; unfold of_Z;
  match goal with |- context [shl_canon ?s ?p ?e] =>
    destruct (shl_canon_cases s p e) as [->|[d ->]] end; apply eqb_refl_finite.
Qed.

(** The size check of [create], in terms of the integer a number denotes. *)
Lemma size_check_fails x :
  (to_Z x = None \/ exists z, to_Z x = Some z /\ (z <= 0)%Z) ->
  negb (eqb (bitor0 x) x) || leb x zero = true.
Proof.
  intros [H|[z [H L]]].
  - destruct (eqb (bitor0 x) x) eqn:E; [|reflexivity].
    apply eqb_of_Z in E. congruence.
  - rewrite (leb_zero_nonpos _ _ H).
    destruct (Z.ltb_spec 0 z); [lia|]. apply orb_true_r.
Qed.

Lemma size_check_big x z :
  to_Z x = Some z -> (2 ^ 31 <= z)%Z -> negb (eqb (bitor0 x) x) || leb x zero = true.
Proof.
  intros Z H. destruct (eqb (bitor0 x) x) eqn:E; [|reflexivity].
  apply eqb_of_Z in E. rewrite Z in E. injection E as E.
  pose proof (to_int32_range x). lia.
Qed.

Lemma size_check_passes z :
  (0 < z < 2 ^ 31)%Z -> negb (eqb (bitor0 (of_Z z)) (of_Z z)) || leb (of_Z z) zero = false.
Proof.
  intros H. unfold bitor0. rewrite to_int32_small by lia.
  rewrite eqb_of_Z_refl by lia. rewrite (leb_zero_nonpos _ _ (to_Z_of_Z z)).
  destruct (Z.ltb_spec 0 z); [reflexivity|lia].
Qed.

Lemma index_check x :
  ltb x zero || negb (eqb (rem x one) zero) =
  match to_Z x with Some z => (z <? 0)%Z | None => true end.
Proof.
  rewrite rem_one_integral. destruct (to_Z x) as [z|] eqn:E.
  - rewrite (ltb_zero_neg _ _ E). apply orb_false_r.
  - apply orb_true_r.
Qed.

(** C5.  For every pair of values, [applyNumOrStringOp('+', lhs, rhs)]
    raises an error exactly when the operands are not of the same class
    (not both numbers and not both strings), and the error is the
    [ElementaryRuntimeError] about numbers or strings; on two numbers it
    returns their sum and on two strings their concatenation. *)
Theorem C5_applyNumOrStringOp_plus (host : Host) :
  (forall lhs rhs,
     (exists e, applyNumOrStringOp host "+" lhs rhs = Throw e) <-> ~ same_class lhs rhs) /\
  (forall lhs rhs,
     ~ same_class lhs rhs <->
     applyNumOrStringOp host "+" lhs rhs =
       Throw (ElementaryRuntimeError
                "arguments of operator '+' must both be numbers or strings")) /\
  (forall l r,
     applyNumOrStringOp host "+" (VNumber l) (VNumber r) = Return (VNumber (Num.add l r))) /\
  (forall l r,
     applyNumOrStringOp host "+" (VString l) (VString r) = Return (VString (l ++ r))).
Proof.
  assert (A : forall lhs rhs,
     ~ same_class lhs rhs <->
     applyNumOrStringOp host "+" lhs rhs =
       Throw (ElementaryRuntimeError
                "arguments of operator '+' must both be numbers or strings")).
  { intros lhs rhs. unfold same_class, applyNumOrStringOp.
    destruct lhs, rhs; simpl; split; intros H; try reflexivity; try discriminate;
      try (exfalso; apply H; tauto);
      intros [[C1 C2]|[C1 C2]]; discriminate. }
  split; [|split; [exact A|split; reflexivity]].
  intros lhs rhs. split.
  - intros [e He]. intros S. unfold same_class, applyNumOrStringOp in *.
    destruct lhs, rhs; simpl in *; try discriminate;
      destruct S as [[C1 C2]|[C1 C2]]; discriminate.
  - intros H. eexists. apply A, H.
Qed.

Lemma arrayBoundsCheck_number host elems i :
  arrayBoundsCheck host (VArray elems) (VNumber i) =
  match to_Z i with
  | None => Throw (not_valid host (VNumber i))
  | Some z =>
      if (z <? 0)%Z then Throw (not_valid host (VNumber i))
      else if is_undefined (slot elems (Z.to_nat z))
           then Throw (out_of_bounds host (VNumber i))
           else Return (slot elems (Z.to_nat z))
  end.
Proof.
  unfold arrayBoundsCheck. rewrite index_check. unfold get_index.
  destruct (to_Z i) as [z|]; [|reflexivity].
  destruct (z <? 0)%Z; reflexivity.
Qed.

Lemma is_undefined_spec v : is_undefined v = true <-> v = VUndefined.
Proof. destruct v; simpl; split; congruence. Qed.

Lemma create_number st x v :
  create st [VNumber x; v] =
  if negb (eqb (bitor0 x) x) || leb x zero then Throw bad_size
  else stopifyArray st (fill_loop (List.length (new_Array x)) 0 (new_Array x) v).
Proof. reflexivity. Qed.




(** C8, the failing inputs.  [dot(null, index)] leaves with the
    [TypeError] of the host, not with the descriptive error that [dot]
    raises for [undefined]; [checkUpdateOperand] does the same on [null]
    and on [undefined]. *)
Theorem C8_dot_null_host_exception (host : Host) (index : string) :
  dot host VNull index =
    Throw (TypeError ("Cannot read property '" ++ index ++ "' of null")) /\
  (forall opcode member,
     checkUpdateOperand host opcode VNull member =
       Throw (TypeError "Cannot read property 'hasOwnProperty' of null")) /\
  (forall opcode member,
     checkUpdateOperand host opcode VUndefined member =
       Throw (TypeError "Cannot read property 'hasOwnProperty' of undefined")) /\
  dot host VUndefined index =
    Throw (ElementaryRuntimeError "cannot access member of non-object value types").
Proof. repeat split. Qed.

(** C10.  For every base that [dot] accepts and every key whose read gives
    [undefined], [dot] raises the "object does not have member" error, also
    when the key is a property of the object; for every array and every
    index that denotes a non-negative integer whose slot reads [undefined],
    [arrayBoundsCheck] raises the "out of array bounds" error, also when the
    index is below the length of the array. *)
Theorem C10_undefined_reads_as_absent (host : Host) :
  (forall o k, In (typeof o) ["object"; "string"; "boolean"; "number"] ->
     get host o k = Return VUndefined -> dot host o k = Throw (no_member k)) /\
  (forall props k, assoc k props = Some VUndefined ->
     dot host (VObject props) k = Throw (no_member k)) /\
  (forall elems i z, to_Z i = Some z -> (0 <= z)%Z ->
     slot elems (Z.to_nat z) = VUndefined ->
     arrayBoundsCheck host (VArray elems) (VNumber i) =
       Throw (out_of_bounds host (VNumber i))) /\
  (forall elems n, nth_error elems n = Some (Some VUndefined) ->
     n < List.length elems /\
     arrayBoundsCheck host (VArray elems) (VNumber (of_nat n)) =
       Throw (out_of_bounds host (VNumber (of_nat n)))).
Proof.
  assert (A : forall elems i z, to_Z i = Some z -> (0 <= z)%Z ->
     slot elems (Z.to_nat z) = VUndefined ->
     arrayBoundsCheck host (VArray elems) (VNumber i) =
       Throw (out_of_bounds host (VNumber i))).
  { intros elems i z H L U. rewrite arrayBoundsCheck_number, H, U.
    destruct (Z.ltb_spec z 0); [lia|reflexivity]. }
  assert (D : forall o k, In (typeof o) ["object"; "string"; "boolean"; "number"] ->
     get host o k = Return VUndefined -> dot host o k = Throw (no_member k)).
  { intros o k T H. unfold dot. rewrite H.
    destruct o; simpl in T; try reflexivity;
      repeat (destruct T as [T|T]; try discriminate T); contradiction. }
  split; [exact D|]. split; [|split; [exact A|]].
  - intros props k H. apply D; [simpl; auto|]. unfold get, own_prop. rewrite H. reflexivity.
  - intros elems n H. split.
    + apply nth_error_Some. congruence.
    + apply (A elems _ (Z.of_nat n)); [apply to_Z_of_Z|lia|].
      unfold slot. rewrite Nat2Z.id, H. reflexivity.
Qed.

(** C10 at [{x: undefined}.x] and at [[undefined][0]]. *)
Lemma C10_undefined_reads_as_absent_witness :
  dot simple_host (VObject [("x", VUndefined)]) "x" = Throw (no_member "x") /\
  (0 < List.length [Some VUndefined] /\
   arrayBoundsCheck simple_host (VArray [Some VUndefined]) (VNumber (of_nat 0)) =
     Throw (out_of_bounds simple_host (VNumber (of_nat 0)))).
Proof.
  split.
  - apply (proj1 (proj2 (C10_undefined_reads_as_absent simple_host))). reflexivity.
  - apply (proj2 (proj2 (proj2 (C10_undefined_reads_as_absent simple_host)))). reflexivity.
Defined.

Lemma summary_step_spec hasStyles mark a r :
  acc_output (summary_step hasStyles mark a r) = (acc_output a ++ [render_line mark r])%list /\
  numPassed (summary_step hasStyles mark a r) = numPassed a + (if failed r then 0 else 1) /\
  numFailed (summary_step hasStyles mark a r) = numFailed a + (if failed r then 1 else 0) /\
  (hasStyles = false -> acc_style (summary_step hasStyles mark a r) = acc_style a).
Proof.
  unfold summary_step, render_line. destruct (failed r); cbn [acc_output numPassed numFailed acc_style];
    repeat split; try lia; intros ->; reflexivity.
Qed.

Lemma summary_loop_gen hasStyles mark l a :
  acc_output (fold_left (summary_step hasStyles mark) l a) =
    (acc_output a ++ map (render_line mark) l)%list /\
  numPassed (fold_left (summary_step hasStyles mark) l a) = numPassed a + count_passed l /\
  numFailed (fold_left (summary_step hasStyles mark) l a) = numFailed a + count_failed l /\
  (hasStyles = false ->
   acc_style (fold_left (summary_step hasStyles mark) l a) = acc_style a).
Proof.
  revert a. induction l as [|r l IH]; intros a.
  - cbn [fold_left map]. rewrite app_nil_r. unfold count_passed, count_failed. cbn.
    repeat split; lia.
  - cbn [fold_left map].
    destruct (IH (summary_step hasStyles mark a r)) as (O & P & F & S).
    destruct (summary_step_spec hasStyles mark a r) as (O1 & P1 & F1 & S1).
    rewrite O, P, F, O1, P1, F1. unfold count_passed, count_failed. cbn [filter].
    destruct (failed r); cbn [negb List.length]; rewrite <- app_assoc; cbn [List.app];
      repeat split; try lia; intros E; rewrite S, S1 by exact E; reflexivity.
Qed.

(** C9.  When testing is enabled, [summary] leaves testing disabled and
    the records empty, so that the next [summary] answers "Test not
    enabled"; when there are records, its output is one line for each
    record followed by the line of counts, joined by newlines.  Every
    [enableTests] empties the records, and without styled rendering the
    [style] field is empty. *)
Theorem C9_summary_consumed_once (hasStyles : bool) (st : RtState) :
  testsEnabled st = true ->
  testsEnabled (snd (summary hasStyles st)) = false /\
  tests (snd (summary hasStyles st)) = [] /\
  (forall again,
     fst (summary again (snd (summary hasStyles st))) =
       {| output := "Test not enabled"; style := [] |}) /\
  (tests st <> [] ->
     output (fst (summary hasStyles st)) =
       join nl (map (render_line (if hasStyles then "%c" else "")) (tests st) ++
                [render_totals (if hasStyles then "%c" else "")
                   (count_passed (tests st)) (count_failed (tests st))])) /\
  (forall enable timeout st0, tests (enableTests enable timeout st0) = []) /\
  (forall st0, hasStyles = false -> style (fst (summary hasStyles st0)) = []).
Proof.
  intros En.
  assert (S : forall st0, hasStyles = false -> style (fst (summary hasStyles st0)) = []).
  { intros st0 ->. unfold summary.
    destruct (testsEnabled st0); simpl; [|reflexivity].
    destruct (Nat.eqb _ 0); simpl; [reflexivity|].
    destruct (summary_loop_gen false "" (tests st0)
                {| acc_output := []; acc_style := []; numPassed := 0; numFailed := 0 |})
      as (_ & _ & _ & St).
    unfold summary_loop. destruct (Nat.ltb 0 _); simpl; rewrite St; reflexivity. }
  unfold summary. rewrite En. simpl negb. cbv iota.
  destruct (tests st) as [|r l] eqn:T.
  - simpl. repeat split; auto. intros C; contradiction.
  - cbn [List.length Nat.eqb]. cbv zeta. cbn [fst snd].
    repeat split; auto.
    intros _. cbn [output].
    destruct (summary_loop_gen hasStyles (if hasStyles then "%c" else "") (r :: l)
                {| acc_output := []; acc_style := []; numPassed := 0; numFailed := 0 |})
      as (O & P & F & _).
    unfold summary_loop. cbn [acc_output numPassed numFailed List.app] in O, P, F.
    rewrite !Nat.add_0_l in *. unfold render_totals.
    set (acc := fold_left _ _ _) in *. rewrite <- P, <- F.
    destruct (Nat.ltb 0 (numFailed acc)); cbn [acc_output]; rewrite O; reflexivity.
Qed.

(** C9 at a session with one passed and one failed test. *)
Lemma C9_summary_consumed_once_witness :
  testsEnabled
    (push_test {| description := "b"; failed := true; error := Some (ErrorMessage "assertion failed") |}
       (push_test {| description := "a"; failed := false; error := None |}
          (enableTests true default_timeout initial))) = true /\
  tests (snd (summary false
    (push_test {| description := "b"; failed := true; error := Some (ErrorMessage "assertion failed") |}
       (push_test {| description := "a"; failed := false; error := None |}
          (enableTests true default_timeout initial))))) = [] /\
  fst (summary false (snd (summary false
    (push_test {| description := "b"; failed := true; error := Some (ErrorMessage "assertion failed") |}
       (push_test {| description := "a"; failed := false; error := None |}
          (enableTests true default_timeout initial)))))) =
    {| output := "Test not enabled"; style := [] |}.
Proof.
  split; [reflexivity|].
  destruct (C9_summary_consumed_once false
    (push_test {| description := "b"; failed := true; error := Some (ErrorMessage "assertion failed") |}
       (push_test {| description := "a"; failed := false; error := None |}
          (enableTests true default_timeout initial))) eq_refl) as (_ & T & A & _).
  split; [exact T|exact (A false)].
Defined.

End RuntimeFacts.

(* ===================================================================== *)
(** ** Facts about the pass *)
(* ===================================================================== *)

Module VisitorFacts.

Import Visitor.
Local Open Scope nat_scope.
Local Open Scope string_scope.

Lemma visit_unfold (f : nat) (ctx : Ctx) ty loc attrs kids (st : St) :
  visit (S f) ctx (Node ty loc attrs kids) st =
  match call_enter ctx (Node ty loc attrs kids) st with
  | EThrow e => Thrown e
  | ESkip st1 => Done (Node ty loc attrs kids) st1
  | EReplace n' st1 => visit f ctx n' st1
  | EContinue attrs' st1 => after_enter (S f) ctx ty loc attrs' kids st1
  end.
Proof. reflexivity. Qed.

Lemma visit_list_cons fuel ctx c l st :
  visit_list fuel ctx (c :: l) st =
  match visit fuel ctx c st with
  | Done c' st' =>
      match visit_list fuel ctx l st' with
      | LDone l'' st'' => LDone (c' :: l'') st''
      | other => other
      end
  | Thrown e => LThrown e
  | OutOfFuel => LOutOfFuel
  end.
Proof. reflexivity. Qed.

Lemma visit_kids_One fuel ctx ty k c ks st :
  visit_kids fuel ctx ty ((k, One c) :: ks) st =
  match visit fuel (child_ctx ctx ty k) c st with
  | Done c' st' =>
      match visit_kids fuel ctx ty ks st' with
      | KDone rest' st'' => KDone ((k, One c') :: rest') st''
      | other => other
      end
  | Thrown e => KThrown e
  | OutOfFuel => KOutOfFuel
  end.
Proof. reflexivity. Qed.

Lemma visit_kids_Many fuel ctx ty k cs ks st :
  visit_kids fuel ctx ty ((k, Many cs) :: ks) st =
  match visit_list fuel (child_ctx ctx ty k) cs st with
  | LDone cs' st' =>
      match queued_before ctx ty k st with
      | [] =>
          match visit_kids fuel ctx ty ks st' with
          | KDone rest' st'' => KDone ((k, Many cs') :: rest') st''
          | other => other
          end
      | _ :: _ => KThrown declaration_thrown
      end
  | LThrown e => KThrown e
  | LOutOfFuel => KOutOfFuel
  end.
Proof. reflexivity. Qed.

(** A declaration queued with the statements of a body cannot be
    visited. *)
Lemma call_enter_tmp_declaration ctx tmp st :
  call_enter ctx (tmp_declaration tmp) st = EThrow declaration_thrown.
Proof. reflexivity. Qed.

Lemma all_nodes_unfold p ty loc attrs kids :
  all_nodes p (Node ty loc attrs kids) =
  p (Node ty loc attrs kids) && all_kids (all_nodes p) kids.
Proof. reflexivity. Qed.

Lemma rank_unfold ty loc attrs kids :
  rank (Node ty loc attrs kids) =
  (if requeues (Node ty loc attrs kids) then 1 else 0) + rank_kids rank kids.
Proof. reflexivity. Qed.

Lemma rank_lookup_One k ks c :
  lookup k ks = Some (One c) -> rank c <= rank_kids rank ks.
Proof.
  induction ks as [|[k' v] rest IH]; cbn [lookup rank_kids]; [discriminate|].
  destruct (String.eqb k k').
  - intros [= ->]. lia.
  - intros H. specialize (IH H). destruct v; lia.
Qed.

Lemma rank_lookup_Many k ks cs :
  lookup k ks = Some (Many cs) -> rank_list rank cs <= rank_kids rank ks.
Proof.
  induction ks as [|[k' v] rest IH]; cbn [lookup rank_kids]; [discriminate|].
  destruct (String.eqb k k').
  - intros [= ->]. lia.
  - intros H. specialize (IH H). destruct v; lia.
Qed.

Lemma rank_kids_le n : rank_kids rank (kids_of n) <= rank n.
Proof. destruct n. rewrite rank_unfold. cbn [kids_of]. lia. Qed.

Lemma rank_child k n c : child k n = Some c -> rank c <= rank_kids rank (kids_of n).
Proof.
  unfold child. destruct (lookup k (kids_of n)) as [[c'|cs]|] eqn:E; try discriminate.
  intros [= ->]. eapply rank_lookup_One, E.
Qed.

Lemma rank_required k n c : required k n = inl c -> rank c <= rank_kids rank (kids_of n).
Proof.
  unfold required. destruct (child k n) eqn:E; [|discriminate].
  intros [= ->]. eapply rank_child, E.
Qed.

Lemma rank_children k n : rank_list rank (children k n) <= rank_kids rank (kids_of n).
Proof.
  unfold children. destruct (lookup k (kids_of n)) as [[c'|cs]|] eqn:E; cbn; try lia.
  eapply rank_lookup_Many, E.
Qed.

Lemma rank_list_app l1 l2 :
  rank_list rank (l1 ++ l2) = Nat.max (rank_list rank l1) (rank_list rank l2).
Proof. induction l1 as [|c l1 IH]; cbn [rank_list List.app]; [reflexivity|]. rewrite IH. lia. Qed.

Lemma rank_kids_update k v ks :
  rank_kids rank (update k v ks) <= Nat.max (rank_kid v) (rank_kids rank ks).
Proof.
  induction ks as [|[k' v'] rest IH]; cbn [update rank_kids].
  - destruct v; cbn; lia.
  - destruct (String.eqb k k'); cbn [rank_kids].
    + destruct v, v'; cbn [rank_kid]; lia.
    + destruct v'; lia.
Qed.

Lemma rank_tmp_declarations tmps : rank_list rank (map tmp_declaration tmps) = 0.
Proof. induction tmps as [|t tmps IH]; cbn [map rank_list]; [reflexivity|]. rewrite IH. reflexivity. Qed.

Lemma lookup_update_same {A} k (v : A) l : lookup k (update k v l) = Some v.
Proof.
  induction l as [|[k' v'] rest IH]; cbn [update lookup].
  - rewrite String.eqb_refl. reflexivity.
  - destruct (String.eqb k k') eqn:E; cbn [lookup].
    + rewrite String.eqb_refl. reflexivity.
    + rewrite E. exact IH.
Qed.

Lemma lookup_update_other {A} k k' (v : A) l :
  String.eqb k' k = false -> lookup k' (update k v l) = lookup k' l.
Proof.
  intros N. induction l as [|[k2 v2] rest IH]; cbn [update lookup].
  - rewrite N. reflexivity.
  - destruct (String.eqb k k2) eqn:E; cbn [lookup].
    + apply String.eqb_eq in E. subst k2. rewrite N. reflexivity.
    + rewrite IH. reflexivity.
Qed.

Lemma requeues_push_Many decls n : requeues (push_Many "body" decls n) = requeues n.
Proof.
  destruct n as [ty loc attrs kids]. unfold requeues, push_Many, child, attr_s.
  cbn [type_of attrs_of kids_of loc_of].
  rewrite lookup_update_other by reflexivity. reflexivity.
Qed.

Lemma rank_push_Many decls n :
  rank_list rank decls = 0 -> rank (push_Many "body" decls n) <= rank n.
Proof.
  intros Z. pose proof (requeues_push_Many decls n) as R.
  destruct n as [ty loc attrs kids]. unfold push_Many in *.
  cbn [type_of attrs_of kids_of loc_of] in *. rewrite !rank_unfold, R.
  pose proof (rank_kids_update "body"
                (Many (children "body" (Node ty loc attrs kids) ++ decls)) kids) as U.
  cbn [rank_kid] in U. rewrite rank_list_app, Z in U.
  pose proof (rank_children "body" (Node ty loc attrs kids)) as C. cbn [kids_of] in C.
  lia.
Qed.

Lemma owns_block_requeues ty loc attrs kids :
  owns_block ty = true -> requeues (Node ty loc attrs kids) = false.
Proof.
  intros O. unfold requeues. cbn [type_of]. unfold owns_block in O. cbn in O.
  destruct (String.eqb_spec ty "AssignmentExpression") as [->|]; [discriminate|].
  destruct (String.eqb_spec ty "NewExpression") as [->|]; [discriminate|]. reflexivity.
Qed.

Lemma rank_append_body tmps n :
  owns_block (type_of n) = true -> rank (append_body tmps n) <= rank n.
Proof.
  intros O. unfold append_body. destruct tmps as [|t tmps]; [lia|].
  destruct (String.eqb (type_of n) "Program").
  - apply rank_push_Many, rank_tmp_declarations.
  - destruct (child "body" n) as [block|] eqn:E; [|lia].
    destruct n as [ty loc attrs kids]. cbn [type_of attrs_of kids_of loc_of] in *.
    rewrite !rank_unfold, !owns_block_requeues by exact O.
    pose proof (rank_kids_update "body"
       (One (push_Many "body" (map tmp_declaration (t :: tmps)) block)) kids) as U.
    cbn [rank_kid] in U.
    pose proof (rank_push_Many (map tmp_declaration (t :: tmps)) block
                  (rank_tmp_declarations _)) as P.
    pose proof (rank_child "body" _ _ E) as C. cbn [kids_of] in C. lia.
Qed.

Lemma rank_requeues n : requeues n = true -> rank n = 1 + rank_kids rank (kids_of n).
Proof. destruct n. rewrite rank_unfold. intros ->. reflexivity. Qed.

Lemma with_error_cases n msg st k :
  (exists st', error n msg st = inl st' /\ with_error n msg st k = k st' /\
               errors st' = (errors st ++ [{| line := match loc_of n with Some l => l | None => 0 end;
                                              message := msg |}])%list /\
               opts st' = opts st /\ used st' = used st /\ pending st' = pending st) \/
  (exists e, with_error n msg st k = EThrow e /\ forall errs, e <> ThrownState errs).
Proof.
  unfold with_error, error. destruct (loc_of n).
  - left. eexists. repeat split.
  - right. eexists. split; [reflexivity|]. intros errs; discriminate.
Qed.

Ltac enter_error :=
  match goal with
  | |- context [with_error ?n ?msg ?st ?k] =>
      let st' := fresh "st'" in let e := fresh "e" in
      let H := fresh "H" in let Hw := fresh "Hw" in
      destruct (with_error_cases n msg st k) as [(st' & H & Hw & ?)|(e & Hw & ?)];
      rewrite Hw; clear Hw
  end.

Lemma AssignmentExpression_enter_rank ctx n st :
  type_of n = "AssignmentExpression" ->
  match AssignmentExpression_enter ctx n st with
  | EReplace n' _ => rank n' < rank n /\ type_of n' <> "Identifier"
  | EContinue attrs' _ => attrs' = attrs_of n
  | _ => True
  end.
Proof.
  intros T. unfold AssignmentExpression_enter.
  destruct (includes (attr_s "operator" n) allowed); cbn [negb].
  2:{ enter_error; exact I. }
  destruct (negb (has_type "Identifier" (child "left" n)) &&
            negb (has_type "MemberExpression" (child "left" n))).
  { enter_error; exact I. }
  destruct (String.eqb (attr_s "operator" n) "=") eqn:Op; [reflexivity|].
  assert (R : rank n = 1 + rank_kids rank (kids_of n)).
  { apply rank_requeues. unfold requeues. rewrite T, Op. reflexivity. }
  destruct (child "left" n) as [lhs|] eqn:L; [|destruct (required "right" n); exact I].
  destruct (required "right" n) as [rhs|e] eqn:Rt; [|exact I].
  pose proof (rank_child _ _ _ L) as RL. pose proof (rank_required _ _ _ Rt) as RR.
  destruct (String.eqb (type_of lhs) "Identifier").
  - destruct (unassign (attr_s "operator" n)) as [bop|e]; [|exact I].
    cbn. split; [lia|discriminate].
  - destruct (generateUidIdentifier "tmp" st) as [tmp st1] eqn:G.
    unfold generateUidIdentifier in G. injection G as <- <-.
    destruct (enclosingScopeBlock_push ctx _ _) as [st2|e]; [|exact I].
    destruct (required "object" lhs) as [object|e] eqn:O; [|exact I].
    destruct (required "property" lhs) as [property|e] eqn:P; [|exact I].
    destruct (unassign (attr_s "operator" n)) as [bop|e]; [|exact I].
    pose proof (rank_required _ _ _ O) as RO. pose proof (rank_required _ _ _ P) as RP.
    pose proof (rank_kids_le lhs).
    cbn. split; [lia|discriminate].
Qed.

Lemma call_enter_rank ctx n st :
  match call_enter ctx n st with
  | EReplace n' _ => rank n' < rank n /\ type_of n' <> "Identifier"
  | EContinue attrs' _ => type_of n = "BinaryExpression" \/ attrs' = attrs_of n
  | _ => True
  end.
Proof.
  unfold call_enter.
  repeat match goal with
  | |- context [if String.eqb (type_of n) ?s then _ else _] =>
      destruct (String.eqb_spec (type_of n) s) as [T|_]
  end;
  try (pose proof (AssignmentExpression_enter_rank ctx n st T) as A;
       destruct (AssignmentExpression_enter ctx n st); auto; fail);
  try (left; exact T);
  unfold Program_enter, VariableDeclarator, CallExpression, BinaryExpression_enter,
    UnaryExpression, NewExpression_enter, UpdateExpression_enter, loop_handler,
    VariableDeclaration, banned;
  repeat match goal with
  | |- context [with_error _ _ _ _] => enter_error
  | |- match (match ?x with _ => _ end) with _ => _ end => destruct x
  | |- match (if ?x then _ else _) with _ => _ end => destruct x
  end; auto.
Qed.

Lemma rank_rtsExpression st : rank (rtsExpression st) = 0.
Proof. unfold rtsExpression. destruct (isOnline (opts st)); reflexivity. Qed.

Lemma propertyAsString_rank n p :
  propertyAsString n = inl p -> rank p <= rank_kids rank (kids_of n).
Proof.
  unfold propertyAsString, bindT. destruct (required "property" n) as [q|] eqn:E; [|discriminate].
  pose proof (rank_required _ _ _ E).
  destruct (attr_b "computed" n) as [[|]|]; intros [= <-]; cbn; lia.
Qed.

Lemma Program_exit_rank n st :
  type_of n = "Program" -> exit_rank_post n (Program_exit n st).
Proof.
  intros T. unfold Program_exit.
  destruct (Nat.ltb 0 (List.length (errors st))); [exact I|].
  cbn [exit_rank_post].
  destruct (negb (Nat.eqb (List.length (children "body" n)) 0)); [|auto].
  split; [|auto].
  destruct n as [ty loc attrs kids]. cbn [type_of loc_of attrs_of kids_of] in *. subst ty.
  rewrite !rank_unfold. unfold requeues. cbn [type_of String.eqb Ascii.eqb Bool.eqb andb orb].
  cbn [plus].
  match goal with |- rank_kids rank (update "body" ?v kids) <= _ =>
    pose proof (rank_kids_update "body" v kids) as U end.
  cbn [rank_kid rank_list] in U.
  pose proof (rank_children "body" (Node "Program" loc attrs kids)) as C. cbn [kids_of] in C.
  assert (D : rank (variableDeclaration "var"
               [variableDeclarator (identifier "rts") (Some (rtsExpression st))]) = 0).
  { cbn. rewrite rank_rtsExpression. reflexivity. }
  rewrite D in U. lia.
Qed.

Lemma MemberExpression_exit_rank ctx n st :
  exit_rank_post n (MemberExpression_exit ctx n st).
Proof.
  unfold MemberExpression_exit.
  destruct (_ || _); [cbn; auto|].
  destruct (String.eqb (parent_type ctx) "CallExpression"); [cbn; auto|].
  destruct (required "object" n) as [o|e] eqn:O;
    destruct (required "property" n) as [p|e'] eqn:P; try exact I.
  pose proof (rank_required _ _ _ O). pose proof (rank_required _ _ _ P).
  pose proof (rank_kids_le n).
  destruct (attr_b "computed" n) as [[|]|];
    try (destruct (negb (String.eqb (type_of p) "Identifier")); [exact I|]);
    cbn; (split; [lia|discriminate]).
Qed.

Lemma AssignmentExpression_exit_rank n st :
  exit_rank_post n (AssignmentExpression_exit n st).
Proof.
  unfold AssignmentExpression_exit.
  destruct (negb (String.eqb (attr_s "operator" n) "=")); [exact I|].
  destruct (_ && _); [exact I|].
  destruct (has_type "Identifier" (child "left" n)); [cbn; auto|].
  destruct (child "left" n) as [lhs|] eqn:L; [|destruct (required "right" n); exact I].
  destruct (required "right" n) as [rhs|e] eqn:Rt; [|exact I].
  destruct (required "object" lhs) as [object|e] eqn:O; [|exact I].
  destruct (required "property" lhs) as [property|e] eqn:P; [|exact I].
  destruct (propertyAsString lhs) as [name|e] eqn:PS; [|exact I].
  pose proof (rank_child _ _ _ L). pose proof (rank_required _ _ _ Rt).
  pose proof (rank_required _ _ _ O). pose proof (rank_required _ _ _ P).
  pose proof (propertyAsString_rank _ _ PS).
  pose proof (rank_kids_le lhs). pose proof (rank_kids_le n).
  destruct (attr_b "computed" lhs) as [[|]|]; cbn; (split; [lia|discriminate]).
Qed.

Lemma BinaryExpression_exit_rank n st :
  exit_rank_post n (BinaryExpression_exit n st).
Proof.
  unfold BinaryExpression_exit.
  pose proof (rank_kids_le n).
  destruct (required "left" n) as [lhs|e] eqn:L;
    destruct (required "right" n) as [rhs|e'] eqn:Rt;
    try pose proof (rank_required _ _ _ L); try pose proof (rank_required _ _ _ Rt);
    destruct (includes (attr_s "operator" n) numOrStringOperators);
    destruct (includes (attr_s "operator" n) numOperators);
    cbn; auto; (split; [lia|discriminate]).
Qed.

Lemma NewExpression_exit_rank n st :
  type_of n = "NewExpression" -> exit_rank_post n (NewExpression_exit n st).
Proof.
  intros T. unfold NewExpression_exit.
  destruct (child "callee" n) as [callee|] eqn:C; [|exact I].
  destruct (String.eqb (type_of callee) "Identifier" &&
            String.eqb (attr_s "name" callee) "Array") eqn:A; [|cbn; auto].
  assert (R : rank n = 1 + rank_kids rank (kids_of n)).
  { apply rank_requeues. unfold requeues. rewrite T, C, A. reflexivity. }
  pose proof (rank_children "arguments" n).
  cbn. split; [|discriminate].
  change (Nat.max 0 (Nat.max (rank_list rank (children "arguments" n)) 0) < rank n). lia.
Qed.

Lemma UpdateExpression_exit_rank n st :
  exit_rank_post n (UpdateExpression_exit n st).
Proof.
  unfold UpdateExpression_exit.
  destruct (child "argument" n) as [a|] eqn:A; [|exact I].
  destruct (_ && _); [exact I|].
  pose proof (rank_child _ _ _ A). pose proof (rank_kids_le n). pose proof (rank_kids_le a).
  destruct (String.eqb (type_of a) "Identifier").
  - cbn. split; [|discriminate].
    lia.
  - destruct (required "object" a) as [object|e] eqn:O; [|exact I].
    destruct (propertyAsString a) as [name|e] eqn:PS; [|exact I].
    pose proof (rank_required _ _ _ O). pose proof (propertyAsString_rank _ _ PS).
    cbn. split; [lia|discriminate].
Qed.

Lemma call_exit_rank ctx n st : exit_rank_post n (call_exit ctx n st).
Proof.
  unfold call_exit.
  destruct (String.eqb_spec (type_of n) "Program") as [T|_];
    [apply Program_exit_rank, T|].
  destruct (String.eqb (type_of n) "MemberExpression"); [apply MemberExpression_exit_rank|].
  destruct (String.eqb (type_of n) "AssignmentExpression");
    [apply AssignmentExpression_exit_rank|].
  destruct (String.eqb (type_of n) "BinaryExpression"); [apply BinaryExpression_exit_rank|].
  destruct (String.eqb_spec (type_of n) "NewExpression") as [T|_];
    [apply NewExpression_exit_rank, T|].
  destruct (String.eqb (type_of n) "UpdateExpression"); [apply UpdateExpression_exit_rank|].
  cbn. auto.
Qed.

Lemma shrinks_refl c : shrinks c c.
Proof. split; auto. Qed.

Lemma shrinks_list_rank cs cs' :
  Forall2 shrinks cs cs' -> rank_list rank cs' <= rank_list rank cs.
Proof.
  induction 1 as [|c c' cs cs' [H _] _ IH]; cbn [rank_list]; lia.
Qed.

Lemma kids_shrink_rank ks ks' :
  kids_shrink ks ks' -> rank_kids rank ks' <= rank_kids rank ks.
Proof.
  induction 1 as [|[k v] [k' v'] ks ks' [_ H] _ IH]; cbn [rank_kids]; [lia|].
  cbn [snd] in H. destruct v, v'; cbn [kid_shrinks] in H; try contradiction.
  - destruct H. lia.
  - apply shrinks_list_rank in H. lia.
Qed.

Lemma kids_shrink_lookup_One ks ks' k c' :
  kids_shrink ks ks' -> lookup k ks' = Some (One c') ->
  exists c, lookup k ks = Some (One c) /\ shrinks c c'.
Proof.
  induction 1 as [|[k1 v] [k2 v'] ks ks' [E H] _ IH]; cbn [lookup]; [discriminate|].
  cbn [fst snd] in *. subst k2.
  destruct (String.eqb k k1).
  - intros [= ->]. destruct v; cbn in H; try contradiction. eauto.
  - exact IH.
Qed.

Lemma kids_shrink_requeues ty loc attrs ks ks' :
  kids_shrink ks ks' ->
  requeues (Node ty loc attrs ks') = true -> requeues (Node ty loc attrs ks) = true.
Proof.
  intros K. unfold requeues, child. cbn [type_of attr_s attrs_of kids_of].
  destruct (String.eqb ty "AssignmentExpression" && _); [reflexivity|]. cbn [orb].
  destruct (String.eqb ty "NewExpression"); [|discriminate]. cbn [andb].
  destruct (lookup "callee" ks') as [[c'|]|] eqn:L; try discriminate.
  destruct (kids_shrink_lookup_One _ _ _ _ K L) as (c & -> & _ & J).
  intros H. apply andb_prop in H as [T N]. apply String.eqb_eq in T.
  destruct (J T) as [T2 A]. unfold attr_s in *. rewrite <- A, N, T2. reflexivity.
Qed.

Lemma kids_shrink_node_rank ty loc attrs attrs' ks ks' :
  kids_shrink ks ks' ->
  (ty = "BinaryExpression" \/ attrs' = attrs) ->
  rank (Node ty loc attrs' ks') <= rank (Node ty loc attrs ks).
Proof.
  intros K A. rewrite !rank_unfold. pose proof (kids_shrink_rank _ _ K).
  destruct (requeues (Node ty loc attrs' ks')) eqn:R; [|lia].
  destruct A as [->| ->].
  - discriminate R.
  - rewrite (kids_shrink_requeues _ _ _ _ _ K R). lia.
Qed.

Section total.

Variable f : nat.

Hypothesis IHf : forall ctx n st, rank n < f ->
  visit f ctx n st <> OutOfFuel /\
  forall n' st', visit f ctx n st = Done n' st' -> shrinks n n'.

Lemma visit_list_total ctx cs st :
  Forall (visit_ok f) cs -> rank_list rank cs < S f ->
  visit_list (S f) ctx cs st <> LOutOfFuel /\
  forall cs' st', visit_list (S f) ctx cs st = LDone cs' st' -> Forall2 shrinks cs cs'.
Proof.
  intros H. revert st. induction H as [|c cs Hc _ IH]; intros st R.
  - split; [discriminate|]. intros cs' st' [= <- <-]. constructor.
  - cbn [rank_list] in R. rewrite visit_list_cons.
    destruct (Hc ctx st ltac:(lia)) as [N D].
    destruct (visit (S f) ctx c st) as [c' st1| |]; [|split; discriminate|contradiction].
    destruct (IH st1 ltac:(lia)) as [NL DL].
    destruct (visit_list (S f) ctx cs st1) as [cs' st2| |];
      [|split; discriminate|contradiction].
    split; [discriminate|]. intros ? ? [= <- <-].
    constructor; [eapply D; reflexivity|eapply DL; reflexivity].
Qed.

Lemma visit_kids_total ctx ty ks st :
  Forall (fun kk => P_kid (visit_ok f) (snd kk)) ks -> rank_kids rank ks < S f ->
  visit_kids (S f) ctx ty ks st <> KOutOfFuel /\
  forall ks' st', visit_kids (S f) ctx ty ks st = KDone ks' st' -> kids_shrink ks ks'.
Proof.
  intros H. revert st. induction H as [|[k v] ks Hv _ IH]; intros st R.
  - split; [discriminate|]. intros ks' st' [= <- <-]. constructor.
  - cbn [rank_kids] in R. cbn [snd] in Hv. destruct v as [c|cs]; cbn [P_kid] in Hv.
    + rewrite visit_kids_One.
      destruct (Hv (child_ctx ctx ty k) st ltac:(lia)) as [N D].
      destruct (visit (S f) _ c st) as [c' st1| |]; [|split; discriminate|contradiction].
      destruct (IH st1 ltac:(lia)) as [NK DK].
      destruct (visit_kids (S f) ctx ty ks st1) as [ks' st2| |];
        [|split; discriminate|contradiction].
      split; [discriminate|]. intros ? ? [= <- <-].
      constructor; [split; [reflexivity|]; cbn [snd kid_shrinks]; eapply D; reflexivity
                   |eapply DK; reflexivity].
    + rewrite visit_kids_Many.
      destruct (visit_list_total (child_ctx ctx ty k) cs st Hv ltac:(lia)) as [N D].
      destruct (visit_list (S f) _ cs st) as [cs' st1| |];
        [|split; discriminate|contradiction].
      destruct (queued_before ctx ty k st); [|split; discriminate].
      destruct (IH st1 ltac:(lia)) as [NK DK].
      destruct (visit_kids (S f) ctx ty ks st1) as [ks' st2| |];
        [|split; discriminate|contradiction].
      split; [discriminate|]. intros ? ? [= <- <-].
      constructor; [split; [reflexivity|]; cbn [snd kid_shrinks]; eapply D; reflexivity
                   |eapply DK; reflexivity].
Qed.

Lemma visit_total_step n : (visit_ok f) n.
Proof.
  induction n as [ty loc attrs kids IH] using node_induction.
  intros ctx st R. rewrite visit_unfold.
  pose proof (call_enter_rank ctx (Node ty loc attrs kids) st) as E.
  destruct (call_enter ctx (Node ty loc attrs kids) st) as [attrs' st1|st1|n' st1|e].
  - unfold after_enter. cbn [pred].
    pose proof (rank_kids_le (Node ty loc attrs kids)) as RK. cbn [kids_of] in RK.
    match goal with |- context [visit_kids (S f) ctx ty kids ?s] =>
      destruct (visit_kids_total ctx ty kids s IH ltac:(lia)) as [N D];
      destruct (visit_kids (S f) ctx ty kids s) as [kids' st2| |]
    end; [|split; discriminate|contradiction].
    specialize (D _ _ eq_refl). cbn [type_of attrs_of] in E.
    pose proof (kids_shrink_node_rank ty loc attrs attrs' kids kids' D E) as RN.
    match goal with |- context [call_exit ctx ?a ?b] =>
      set (n2 := a); set (s2 := b) end.
    assert (R2 : rank n2 <= rank (Node ty loc attrs kids) /\
                 type_of n2 = ty /\
                 (ty = "BinaryExpression" \/ attrs_of n2 = attrs)).
    { subst n2. destruct (owns_block ty) eqn:O.
      - pose proof (rank_append_body (pending st2) (Node ty loc attrs' kids') O).
        split; [lia|]. unfold append_body.
        destruct (pending st2); [cbn; tauto|].
        destruct (String.eqb _ "Program"); [cbn; tauto|].
        destruct (child "body" _); cbn; tauto.
      - cbn. tauto. }
    destruct R2 as (R2 & T2 & A2).
    pose proof (call_exit_rank ctx n2 s2) as X.
    destruct (call_exit ctx n2 s2) as [n3 st3|n3 st3|n3 st3|e]; cbn [exit_rank_post] in X.
    + split; [discriminate|]. intros ? ? [= <- <-].
      destruct X as (X1 & X2 & X3). split; [lia|].
      cbn [type_of attrs_of]. intros T. rewrite X2, T2 in T.
      split; [exact T|]. rewrite X3.
      destruct A2 as [A2|A2]; [rewrite A2 in T; discriminate|exact A2].
    + split; [discriminate|]. intros ? ? [= <- <-].
      destruct X as (X1 & X2). split; [lia|]. intros T. contradiction.
    + destruct X as (X1 & X2).
      destruct (IHf ctx n3 st3 ltac:(lia)) as [N3 D3].
      split; [exact N3|]. intros n4 st4 H4. destruct (D3 _ _ H4) as [S1 S2].
      split; [lia|]. intros T. destruct (S2 T) as [T3 _]. contradiction.
    + split; discriminate.
  - split; [discriminate|]. intros ? ? [= <- <-]. apply shrinks_refl.
  - destruct E as [E1 E2]. destruct (IHf ctx n' st1 ltac:(lia)) as [N D].
    split; [exact N|]. intros n2 st2 H2. destruct (D _ _ H2) as [S1 S2].
    split; [lia|]. intros T. destruct (S2 T) as [T' _]. contradiction.
  - split; discriminate.
Qed.

End total.

Theorem visit_total fuel ctx n st :
  rank n < fuel ->
  visit fuel ctx n st <> OutOfFuel /\
  forall n' st', visit fuel ctx n st = Done n' st' -> shrinks n n'.
Proof.
  revert ctx n st. induction fuel as [|f IH]; intros ctx n st R; [lia|].
  apply (visit_total_step f IH n ctx st R).
Qed.

Theorem compile_total o program :
  forall fuel, rank program < fuel -> compile fuel o program <> Diverges.
Proof.
  intros fuel R. unfold compile.
  destruct (visit_total fuel root program (start o program) R) as [N _].
  destruct (visit fuel root program (start o program)) as [n st|[]|];
    try discriminate. contradiction.
Qed.

Section closure.

Variable p : node -> bool.

Lemma all_lookup k ks v :
  all_kids (all_nodes p) ks = true -> lookup k ks = Some v ->
  all_kid (all_nodes p) v = true.
Proof.
  induction ks as [|[k' v'] rest IH]; cbn [lookup all_kids]; [discriminate|].
  intros H. destruct (String.eqb k k').
  - intros [= <-]. destruct v'; apply andb_prop in H as [H _]; exact H.
  - destruct v'; apply andb_prop in H as [_ H]; auto.
Qed.

Lemma all_kids_of n : all_nodes p n = true -> all_kids (all_nodes p) (kids_of n) = true.
Proof. destruct n. rewrite all_nodes_unfold. intros H. apply andb_prop in H as [_ H]. exact H. Qed.

Lemma all_head n : all_nodes p n = true -> p n = true.
Proof. destruct n. rewrite all_nodes_unfold. intros H. apply andb_prop in H as [H _]. exact H. Qed.

Lemma all_child k n c :
  all_nodes p n = true -> child k n = Some c -> all_nodes p c = true.
Proof.
  intros H. apply all_kids_of in H. unfold child.
  destruct (lookup k (kids_of n)) as [[c'|]|] eqn:E; try discriminate.
  intros [= <-]. apply (all_lookup _ _ _ H E).
Qed.

Lemma all_required k n c :
  all_nodes p n = true -> required k n = inl c -> all_nodes p c = true.
Proof.
  unfold required. intros H. destruct (child k n) eqn:E; [|discriminate].
  intros [= <-]. eapply all_child; eauto.
Qed.

Lemma all_children k n :
  all_nodes p n = true -> all_list (all_nodes p) (children k n) = true.
Proof.
  intros H. apply all_kids_of in H. unfold children.
  destruct (lookup k (kids_of n)) as [[|cs]|] eqn:E; try reflexivity.
  apply (all_lookup _ _ _ H E).
Qed.

Lemma all_list_app l1 l2 :
  all_list (all_nodes p) (l1 ++ l2) =
  all_list (all_nodes p) l1 && all_list (all_nodes p) l2.
Proof.
  induction l1 as [|c l1 IH]; cbn [all_list List.app]; [reflexivity|].
  rewrite IH, andb_assoc. reflexivity.
Qed.

Lemma all_kids_update k v ks :
  all_kid (all_nodes p) v = true -> all_kids (all_nodes p) ks = true ->
  all_kids (all_nodes p) (update k v ks) = true.
Proof.
  intros V. induction ks as [|[k' v'] rest IH]; cbn [update all_kids].
  - intros _. destruct v; cbn in *; rewrite V; reflexivity.
  - intros H. destruct (String.eqb k k'); cbn [all_kids].
    + destruct v'; apply andb_prop in H as [_ H]; destruct v; cbn in *; rewrite V, H; reflexivity.
    + destruct v'; apply andb_prop in H as [H1 H2]; rewrite H1, (IH H2); reflexivity.
Qed.

(** [p] only looks at the type and the data fields. *)
Hypothesis p_local : forall ty loc loc' attrs kids kids',
  p (Node ty loc attrs kids) = p (Node ty loc' attrs kids').

(** [p] holds of every node that is neither a program nor a binary
    expression. *)
Hypothesis p_other : forall m,
  String.eqb (type_of m) "Program" = false ->
  String.eqb (type_of m) "BinaryExpression" = false -> p m = true.

Lemma all_tmp_declarations tmps :
  all_list (all_nodes p) (map tmp_declaration tmps) = true.
Proof.
  induction tmps as [|t tmps IH]; cbn [map all_list]; [reflexivity|].
  rewrite IH. cbn. rewrite !p_other by reflexivity. reflexivity.
Qed.

Lemma all_push_Many decls n :
  all_list (all_nodes p) decls = true -> all_nodes p n = true ->
  all_nodes p (push_Many "body" decls n) = true.
Proof.
  intros D H. pose proof (all_children "body" n H) as C. pose proof (all_head n H) as Hd.
  pose proof (all_kids_of n H) as K.
  destruct n as [ty loc attrs kids]. unfold push_Many. cbn [type_of loc_of attrs_of kids_of] in *.
  rewrite all_nodes_unfold.
  rewrite (p_local ty loc loc attrs _ kids), Hd. cbn [andb].
  apply all_kids_update; [|exact K]. cbn [all_kid]. rewrite all_list_app, C, D. reflexivity.
Qed.

Lemma all_append_body tmps n :
  all_nodes p n = true -> all_nodes p (append_body tmps n) = true.
Proof.
  intros H. unfold append_body. destruct tmps as [|t tmps]; [exact H|].
  destruct (String.eqb (type_of n) "Program").
  - apply all_push_Many; [apply all_tmp_declarations|exact H].
  - destruct (child "body" n) as [block|] eqn:E; [|exact H].
    pose proof (all_child _ _ _ H E) as B. pose proof (all_head n H) as Hd.
    pose proof (all_kids_of n H) as K.
    destruct n as [ty loc attrs kids]. cbn [type_of loc_of attrs_of kids_of] in *.
    rewrite all_nodes_unfold, (p_local ty loc loc attrs _ kids), Hd. cbn [andb].
    apply all_kids_update; [|exact K]. cbn [all_kid].
    apply all_push_Many; [apply all_tmp_declarations|exact B].
Qed.

Lemma propertyAsString_all n q :
  all_nodes p n = true -> propertyAsString n = inl q -> all_nodes p q = true.
Proof.
  intros H. unfold propertyAsString, bindT.
  destruct (required "property" n) as [r|] eqn:E; [|discriminate].
  pose proof (all_required _ _ _ H E).
  destruct (attr_b "computed" n) as [[|]|]; intros [= <-]; auto;
    cbn; rewrite p_other by reflexivity; reflexivity.
Qed.

Ltac heads := cbn; rewrite ?p_other by reflexivity; cbn [andb].

Lemma all_child' k n c :
  all_kids (all_nodes p) (kids_of n) = true -> child k n = Some c ->
  all_nodes p c = true.
Proof.
  intros H. unfold child.
  destruct (lookup k (kids_of n)) as [[c'|]|] eqn:E; try discriminate.
  intros [= <-]. apply (all_lookup _ _ _ H E).
Qed.

Lemma all_children' k n :
  all_kids (all_nodes p) (kids_of n) = true ->
  all_list (all_nodes p) (children k n) = true.
Proof.
  intros H. unfold children.
  destruct (lookup k (kids_of n)) as [[|cs]|] eqn:E; try reflexivity.
  apply (all_lookup _ _ _ H E).
Qed.

Lemma all_from_kids n :
  p n = true -> all_kids (all_nodes p) (kids_of n) = true -> all_nodes p n = true.
Proof. destruct n. rewrite all_nodes_unfold. cbn [kids_of]. intros -> ->. reflexivity. Qed.

(** Whatever an [exit] handler puts in the place of a node is made of
    the children of the node, of calls and of sequences. *)
Lemma call_exit_closed ctx n st :
  String.eqb (type_of n) "Program" = false ->
  all_kids (all_nodes p) (kids_of n) = true ->
  match call_exit ctx n st with
  | XKeep n3 st3 =>
      n3 = n /\ st3 = st /\
      (type_of n = "BinaryExpression" ->
       includes (attr_s "operator" n) numOrStringOperators = false /\
       includes (attr_s "operator" n) numOperators = false)
  | XReplaceSkip n3 st3 | XReplace n3 st3 => all_nodes p n3 = true /\ st3 = st
  | XThrow e => forall errs, e <> ThrownState errs
  end.
Proof.
  intros NP H. unfold call_exit. rewrite NP.
  destruct (String.eqb_spec (type_of n) "MemberExpression") as [TM|NM].
  { unfold MemberExpression_exit.
    destruct (_ || _); [repeat split; congruence|].
    destruct (String.eqb (parent_type ctx) "CallExpression"); [repeat split; congruence|].
    unfold required.
    destruct (child "object" n) as [o|] eqn:O; [|discriminate].
    destruct (child "property" n) as [q|] eqn:Q; [|discriminate].
    pose proof (all_child' _ _ _ H O) as HO. pose proof (all_child' _ _ _ H Q) as HQ.
    destruct (attr_b "computed" n) as [[|]|];
      try (destruct (negb (String.eqb (type_of q) "Identifier")); [discriminate|]);
      (split; [|reflexivity]); heads; rewrite ?HO, ?HQ; reflexivity. }
  destruct (String.eqb_spec (type_of n) "AssignmentExpression") as [TA|NA].
  { unfold AssignmentExpression_exit.
    destruct (negb (String.eqb (attr_s "operator" n) "=")); [discriminate|].
    destruct (_ && _); [discriminate|].
    destruct (has_type "Identifier" (child "left" n)); [repeat split; congruence|].
    destruct (child "left" n) as [lhs|] eqn:L;
      [|destruct (required "right" n); discriminate].
    pose proof (all_child' _ _ _ H L) as HL.
    destruct (required "right" n) as [rhs|e] eqn:Rt;
      [|unfold required in Rt; destruct (child "right" n); [discriminate|];
        injection Rt as <-; discriminate].
    assert (HR : all_nodes p rhs = true).
    { unfold required in Rt. destruct (child "right" n) eqn:E; [|discriminate].
      injection Rt as <-. eapply all_child'; eauto. }
    unfold required at 1 2.
    destruct (child "object" lhs) as [o|] eqn:O; [|discriminate].
    destruct (child "property" lhs) as [q|] eqn:Q; [|discriminate].
    pose proof (all_child _ _ _ HL O) as HO. pose proof (all_child _ _ _ HL Q) as HQ.
    destruct (propertyAsString lhs) as [name|e] eqn:PS.
    2:{ unfold propertyAsString, bindT, required in PS. rewrite Q in PS.
        destruct (attr_b "computed" lhs) as [[|]|]; discriminate. }
    pose proof (propertyAsString_all _ _ HL PS) as HN.
    destruct (attr_b "computed" lhs) as [[|]|];
      (split; [|reflexivity]); heads; rewrite ?HO, ?HQ, ?HR, ?HN; reflexivity. }
  destruct (String.eqb_spec (type_of n) "BinaryExpression") as [TB|NB].
  { unfold BinaryExpression_exit, required.
    destruct (child "left" n) as [lhs|] eqn:L; destruct (child "right" n) as [rhs|] eqn:Rt;
      try pose proof (all_child' _ _ _ H L) as HL;
      try pose proof (all_child' _ _ _ H Rt) as HR;
      destruct (includes (attr_s "operator" n) numOrStringOperators);
      destruct (includes (attr_s "operator" n) numOperators);
      cbn [orb]; try discriminate; auto;
      (split; [|reflexivity]); heads; rewrite ?HL, ?HR; reflexivity. }
  destruct (String.eqb_spec (type_of n) "NewExpression") as [TN|NN].
  { unfold NewExpression_exit.
    destruct (child "callee" n) as [callee|] eqn:C; [|discriminate].
    destruct (_ && _); [|repeat split; congruence].
    pose proof (all_children' "arguments" n H) as A.
    split; [|reflexivity]. heads.
    change (all_list (all_nodes p) (children "arguments" n) && true = true).
    rewrite A. reflexivity. }
  destruct (String.eqb_spec (type_of n) "UpdateExpression") as [TU|NU].
  { unfold UpdateExpression_exit.
    assert (Hn : all_nodes p n = true).
    { apply all_from_kids; [|exact H]. apply p_other; rewrite TU; reflexivity. }
    destruct (child "argument" n) as [a|] eqn:A; [|discriminate].
    pose proof (all_child' _ _ _ H A) as HA.
    destruct (_ && _); [discriminate|].
    destruct (String.eqb (type_of a) "Identifier").
    - split; [|reflexivity]. heads. rewrite HA, Hn. reflexivity.
    - unfold required. destruct (child "object" a) as [o|] eqn:O; [|discriminate].
      pose proof (all_child _ _ _ HA O) as HO.
      destruct (propertyAsString a) as [name|e] eqn:PS.
      2:{ unfold propertyAsString, bindT, required in PS.
          destruct (child "property" a); [|injection PS as <-; discriminate].
          destruct (attr_b "computed" a) as [[|]|]; discriminate. }
      pose proof (propertyAsString_all _ _ HA PS) as HN.
      split; [|reflexivity]. heads. rewrite HO, HN. reflexivity. }
  repeat split; congruence.
Qed.

End closure.

Lemma not_program_other m :
  String.eqb (type_of m) "Program" = false ->
  String.eqb (type_of m) "BinaryExpression" = false -> not_program m = true.
Proof. unfold not_program. intros -> _. reflexivity. Qed.

Lemma strict_node_other m :
  String.eqb (type_of m) "Program" = false ->
  String.eqb (type_of m) "BinaryExpression" = false -> strict_node m = true.
Proof. unfold strict_node. intros _ ->. reflexivity. Qed.

Lemma not_program_local ty loc loc' attrs kids kids' :
  not_program (Node ty loc attrs kids) = not_program (Node ty loc' attrs kids').
Proof. reflexivity. Qed.

Lemma strict_node_local ty loc loc' attrs kids kids' :
  strict_node (Node ty loc attrs kids) = strict_node (Node ty loc' attrs kids').
Proof. reflexivity. Qed.

Ltac same_state :=
  exists (@nil ElementarySyntaxError); split; [rewrite app_nil_r; reflexivity|].

Ltac one_error H :=
  eexists; split; [rewrite H; reflexivity|intros C; discriminate C].

Lemma BinaryExpression_enter_post n st :
  type_of n = "BinaryExpression" -> enter_post n st (BinaryExpression_enter n st).
Proof.
  intros T. unfold BinaryExpression_enter.
  destruct (includes (attr_s "operator" n) allowedBinaryOperators) eqn:A; cbn [negb].
  2:{ enter_error; cbn [enter_post]; [|assumption].
      destruct H0 as (E & _). eexists. exact E. }
  unfold allowedBinaryOperators, includes in A. rewrite existsb_app in A.
  fold (includes (attr_s "operator" n) generalOperators) in A.
  destruct (includes (attr_s "operator" n) generalOperators) eqn:G.
  - destruct (String.eqb (attr_s "operator" n) "==") eqn:E1.
    { cbn [enter_post]. same_state. intros _ _. unfold operator_of.
      rewrite lookup_update_same. reflexivity. }
    destruct (String.eqb (attr_s "operator" n) "!=") eqn:E2.
    { cbn [enter_post]. same_state. intros _ _. unfold operator_of.
      rewrite lookup_update_same. reflexivity. }
    unfold generalOperators, includes in G. cbn [existsb] in G.
    rewrite E1, E2 in G. discriminate.
  - cbn [orb] in A. cbn [enter_post]. same_state. intros _ _.
    unfold ready_operators, includes. rewrite existsb_app.
    change (operator_of (attrs_of n)) with (attr_s "operator" n).
    fold (includes (attr_s "operator" n) (numOrStringOperators ++ numOperators)).
    unfold includes. rewrite A. apply orb_true_r.
Qed.

Lemma AssignmentExpression_enter_post ctx n st :
  type_of n = "AssignmentExpression" ->
  enter_post n st (AssignmentExpression_enter ctx n st).
Proof.
  intros T. unfold AssignmentExpression_enter.
  destruct (includes (attr_s "operator" n) allowed); cbn [negb].
  2:{ enter_error; cbn [enter_post]; [|assumption].
      destruct H0 as (E & _). eexists. exact E. }
  destruct (negb (has_type "Identifier" (child "left" n)) &&
            negb (has_type "MemberExpression" (child "left" n))).
  { enter_error; cbn [enter_post]; [|assumption].
    destruct H0 as (E & _). eexists. exact E. }
  destruct (String.eqb (attr_s "operator" n) "=") eqn:Op.
  { cbn [enter_post]. same_state. intros _ C. rewrite T in C. discriminate. }
  destruct (child "left" n) as [lhs|] eqn:L;
    [|destruct (required "right" n); cbn; discriminate].
  destruct (required "right" n) as [rhs|e] eqn:Rt.
  2:{ unfold required in Rt. destruct (child "right" n); [discriminate|].
      injection Rt as <-. cbn. discriminate. }
  destruct (String.eqb (type_of lhs) "Identifier").
  - unfold unassign.
    repeat match goal with |- context [if String.eqb ?a ?b then _ else _] =>
      destruct (String.eqb a b) end;
      cbn [enter_post]; try discriminate;
      (split; [reflexivity|]); intros P; unfold program_free in *;
      pose proof (all_child _ _ _ _ P L) as HL;
      pose proof (all_required _ _ _ _ P Rt) as HR;
      cbn; rewrite HL, HR; reflexivity.
  - destruct (generateUidIdentifier "tmp" st) as [tmp st1] eqn:G.
    unfold generateUidIdentifier in G. injection G as <- <-.
    unfold enclosingScopeBlock_push.
    unfold required at 1 2.
    destruct (child "object" lhs) as [o|] eqn:O; destruct (child "property" lhs) as [q|] eqn:Q;
    unfold unassign;
    repeat match goal with |- context [if ?c then _ else _] => destruct c end;
      cbn [enter_post]; try discriminate;
      (split; [reflexivity|]); intros P; unfold program_free in *;
      pose proof (all_child _ _ _ _ P L) as HL;
      pose proof (all_required _ _ _ _ P Rt) as HR;
      pose proof (all_child _ _ _ _ HL O) as HO;
      pose proof (all_child _ _ _ _ HL Q) as HQ;
      cbn; rewrite HO, HQ, HR; reflexivity.
Qed.

Lemma call_enter_post ctx n st :
  String.eqb (type_of n) "Program" = false -> enter_post n st (call_enter ctx n st).
Proof.
  intros NP. unfold call_enter. rewrite NP.
  repeat match goal with
  | |- context [if String.eqb (type_of n) ?s then _ else _] =>
      destruct (String.eqb_spec (type_of n) s) as [T|?]
  end;
  try (apply AssignmentExpression_enter_post; exact T);
  try (apply BinaryExpression_enter_post; exact T);
  unfold VariableDeclarator, CallExpression,
    UnaryExpression, NewExpression_enter, UpdateExpression_enter, loop_handler,
    VariableDeclaration, banned;
  repeat match goal with
  | |- enter_post _ _ (with_error _ _ _ _) =>
      enter_error; cbn [enter_post];
      [match goal with H : errors _ = _ /\ _ |- _ => destruct H as (E & _) end;
       one_error E | assumption]
  | |- enter_post _ _ (match ?x with _ => _ end) => destruct x
  | |- enter_post _ _ (if ?x then _ else _) => destruct x
  | |- enter_post _ _ (EContinue _ _) =>
      cbn [enter_post]; same_state; intros _ C; congruence
  | |- enter_post _ _ (EThrow _) => cbn [enter_post]; discriminate
  end.
Qed.

Lemma grows_trans st st1 st2 (Q1 Q2 : Prop) :
  grows st st1 Q1 -> grows st1 st2 Q2 -> grows st st2 (Q1 /\ Q2).
Proof.
  intros (e1 & E1 & H1) (e2 & E2 & H2). exists (e1 ++ e2)%list. split.
  - rewrite E2, E1, app_assoc. reflexivity.
  - intros E. apply app_eq_nil in E as [-> ->]. auto.
Qed.

Lemma grows_weaken st st' (Q1 Q2 : Prop) :
  (Q1 -> Q2) -> grows st st' Q1 -> grows st st' Q2.
Proof. intros I (e & E & H). exists e. auto. Qed.

Section sound.

Variable fuel : nat.

Lemma visit_list_sound ctx cs st :
  Forall (visit_sound_at fuel) cs -> all_list program_free cs = true ->
  sound_list st (visit_list fuel ctx cs st).
Proof.
  intros H. revert st. induction H as [|c cs Hc _ IH]; intros st P.
  - cbn. split; [reflexivity|]. exists []. rewrite app_nil_r. auto.
  - cbn [all_list] in P. apply andb_prop in P as [Pc Pcs].
    rewrite visit_list_cons. specialize (Hc ctx st Pc).
    destruct (visit fuel ctx c st) as [c' st1| |]; cbn in Hc |- *; auto.
    destruct Hc as [P1 G1]. specialize (IH st1 Pcs).
    destruct (visit_list fuel ctx cs st1) as [cs' st2| |]; cbn in IH |- *; auto.
    destruct IH as [P2 G2]. rewrite P1, P2. split; [reflexivity|].
    eapply grows_weaken; [|exact (grows_trans _ _ _ _ _ G1 G2)].
    intros [-> ->]. reflexivity.
Qed.

Lemma visit_kids_sound ctx ty ks st :
  Forall (fun kk => P_kid (visit_sound_at fuel) (snd kk)) ks ->
  all_kids program_free ks = true ->
  sound_kids st (visit_kids fuel ctx ty ks st).
Proof.
  intros H. revert st. induction H as [|[k v] ks Hv _ IH]; intros st P.
  - cbn. split; [reflexivity|]. exists []. rewrite app_nil_r. auto.
  - cbn [snd] in Hv. destruct v as [c|cs]; cbn [P_kid] in Hv;
      cbn [all_kids] in P; apply andb_prop in P as [Pc Pks].
    + rewrite visit_kids_One.
      specialize (Hv (child_ctx ctx ty k) st Pc).
      destruct (visit fuel _ c st) as [c' st1| |]; cbn in Hv |- *; auto.
      destruct Hv as [P1 G1]. specialize (IH st1 Pks).
      destruct (visit_kids fuel ctx ty ks st1) as [ks' st2| |]; cbn in IH |- *; auto.
      destruct IH as [P2 G2]. rewrite P1, P2. split; [reflexivity|].
      eapply grows_weaken; [|exact (grows_trans _ _ _ _ _ G1 G2)].
      intros [-> ->]. reflexivity.
    + rewrite visit_kids_Many.
      pose proof (visit_list_sound (child_ctx ctx ty k) cs st Hv Pc) as HL.
      destruct (visit_list fuel _ cs st) as [cs' st1| |]; cbn in HL |- *; auto.
      destruct (queued_before ctx ty k st); [|cbn; discriminate].
      destruct HL as [P1 G1]. specialize (IH st1 Pks).
      destruct (visit_kids fuel ctx ty ks st1) as [ks' st2| |]; cbn in IH |- *; auto.
      destruct IH as [P2 G2]. rewrite P1, P2. split; [reflexivity|].
      eapply grows_weaken; [|exact (grows_trans _ _ _ _ _ G1 G2)].
      intros [-> ->]. reflexivity.
Qed.

End sound.

Lemma grows_refl st (Q : Prop) : Q -> grows st st Q.
Proof. intros H. exists []. rewrite app_nil_r. auto. Qed.

Lemma program_free_unfold ty loc attrs kids :
  program_free (Node ty loc attrs kids) =
  negb (String.eqb ty "Program") && all_kids program_free kids.
Proof. reflexivity. Qed.

Lemma strict_only_unfold ty loc attrs kids :
  strict_only (Node ty loc attrs kids) =
  strict_node (Node ty loc attrs kids) && all_kids strict_only kids.
Proof. reflexivity. Qed.

Lemma ready_strict op :
  includes op ready_operators = true ->
  includes op numOrStringOperators = false ->
  includes op numOperators = false ->
  includes op strict_operators = true.
Proof.
  unfold ready_operators, includes. rewrite !existsb_app. intros H A B.
  rewrite A, B in H. rewrite !orb_false_r in H. exact H.
Qed.

Section step.

Variable f : nat.

Hypothesis IHf : forall ctx n st,
  program_free n = true -> sound_result st (visit f ctx n st).

Lemma visit_sound_step n : visit_sound_at (S f) n.
Proof.
  induction n as [ty loc attrs kids IH] using node_induction.
  intros ctx st P. rewrite program_free_unfold in P.
  apply andb_prop in P as [NP PK]. apply negb_true_iff in NP.
  assert (Pn : program_free (Node ty loc attrs kids) = true)
    by (rewrite program_free_unfold, NP, PK; reflexivity).
  rewrite visit_unfold.
  pose proof (call_enter_post ctx (Node ty loc attrs kids) st NP) as E.
  destruct (call_enter ctx (Node ty loc attrs kids) st) as [attrs' st1|st1|n' st1|e];
    cbn [enter_post] in E.
  - (* the children are visited *)
    destruct E as (extra1 & E1 & Ready).
    unfold after_enter. cbn [pred].
    set (st1' := if owns_block ty then set_pending [] st1 else st1).
    assert (Est1 : errors st1' = errors st1) by (subst st1'; destruct (owns_block ty); reflexivity).
    pose proof (visit_kids_sound (S f) ctx ty kids st1' IH PK) as K.
    destruct (visit_kids (S f) ctx ty kids st1') as [kids' st2| |]; cbn [sound_kids] in K;
      cbn [sound_result]; auto.
    destruct K as [PK' G2].
    set (n2 := if owns_block ty
               then append_body (pending st2) (Node ty loc attrs' kids')
               else Node ty loc attrs' kids').
    set (st2' := if owns_block ty then set_pending (pending st1) st2 else st2).
    assert (Est2 : errors st2' = errors st2) by (subst st2'; destruct (owns_block ty); reflexivity).
    assert (T2 : type_of n2 = ty).
    { subst n2. destruct (owns_block ty); [|reflexivity]. unfold append_body.
      destruct (pending st2); [reflexivity|].
      destruct (String.eqb _ "Program"); [reflexivity|].
      destruct (child "body" _); reflexivity. }
    assert (A2 : ty = "BinaryExpression" -> n2 = Node ty loc attrs' kids').
    { intros ->. reflexivity. }
    assert (closed : forall p,
              (forall ty loc loc' attrs kids kids',
                  p (Node ty loc attrs kids) = p (Node ty loc' attrs kids')) ->
              (forall m, String.eqb (type_of m) "Program" = false ->
                         String.eqb (type_of m) "BinaryExpression" = false -> p m = true) ->
              all_kids (all_nodes p) kids' = true ->
              all_kids (all_nodes p) (kids_of n2) = true /\
              (p (Node ty loc attrs' kids') = true -> all_nodes p n2 = true)).
    { intros p Hl Ho HK.
      assert (forall m, p m = true -> all_kids (all_nodes p) (kids_of m) = true ->
                        all_nodes p m = true) as From
        by (intros m; apply all_from_kids).
      subst n2. destruct (owns_block ty) eqn:O.
      - assert (Hd : p (Node ty loc attrs' kids') = true).
        { apply Ho; [exact NP|]. cbn [type_of].
          destruct (String.eqb ty "BinaryExpression") eqn:EB; [|reflexivity].
          apply String.eqb_eq in EB. rewrite EB in O. discriminate O. }
        assert (all_nodes p (append_body (pending st2) (Node ty loc attrs' kids')) = true).
        { apply all_append_body; [exact Hl|exact Ho|apply From; auto]. }
        split; [apply all_kids_of; assumption|auto].
      - split; [exact HK|]. intros Hd. apply From; auto. }
    destruct (closed not_program not_program_local not_program_other PK') as [PK2 Pn2].
    assert (PF2 : program_free n2 = true).
    { apply Pn2. unfold not_program. cbn [type_of]. rewrite NP. reflexivity. }
    assert (NP2 : String.eqb (type_of n2) "Program" = false) by (rewrite T2; exact NP).
    pose proof (call_exit_closed not_program not_program_other ctx n2 st2' NP2 PK2) as XP.
    assert (G : grows st st2' (all_kids strict_only kids' = true /\
                               (ty = "BinaryExpression" ->
                                includes (operator_of attrs') ready_operators = true))).
    { destruct G2 as (extra2 & E2 & S2). exists (extra1 ++ extra2)%list. split.
      - rewrite Est2, E2, Est1, E1, app_assoc. reflexivity.
      - intros C. apply app_eq_nil in C as [-> ->]. auto. }
    destruct (call_exit ctx n2 st2') as [n3 st3|n3 st3|n3 st3|e] eqn:X.
    + (* the node stays *)
      destruct XP as (-> & -> & Ops). cbn [sound_result]. split; [exact PF2|].
      eapply grows_weaken; [|exact G]. intros [SK R].
      destruct (closed strict_node strict_node_local strict_node_other SK) as [_ Sn2].
      apply Sn2. unfold strict_node. cbn [type_of].
      destruct (String.eqb_spec ty "BinaryExpression") as [TB|]; [|reflexivity].
      rewrite T2 in Ops. destruct (Ops TB) as [O1 O2]. rewrite (A2 TB) in O1, O2.
      apply ready_strict; auto.
    + (* replaced and marked *)
      destruct XP as (P3 & ->). cbn [sound_result]. split; [exact P3|].
      eapply grows_weaken; [|exact G]. intros [SK R].
      destruct (closed strict_node strict_node_local strict_node_other SK) as [SK2 _].
      pose proof (call_exit_closed strict_node strict_node_other ctx n2 st2' NP2 SK2) as XS.
      rewrite X in XS. apply XS.
    + (* replaced and queued again *)
      destruct XP as (P3 & ->). specialize (IHf ctx n3 st2' P3).
      destruct (visit f ctx n3 st2') as [n4 st4| |]; cbn [sound_result] in *; auto.
      destruct IHf as [P4 G4]. split; [exact P4|].
      eapply grows_weaken; [|exact (grows_trans _ _ _ _ _ G G4)]. tauto.
    + exact XP.
  - (* skipped *)
    destruct E as (e & E). cbn [sound_result]. split; [exact Pn|].
    exists [e]. split; [exact E|discriminate].
  - (* replaced at enter *)
    destruct E as (E & P'). specialize (IHf ctx n' st1 (P' Pn)).
    destruct (visit f ctx n' st1) as [n2 st2| |]; cbn [sound_result] in *; auto.
    destruct IHf as [P2 (extra & E2 & S2)]. split; [exact P2|].
    exists extra. rewrite E2, E. auto.
  - exact E.
Qed.

End step.

Theorem visit_sound fuel ctx n st :
  program_free n = true -> sound_result st (visit fuel ctx n st).
Proof.
  revert ctx n st. induction fuel as [|f IH]; intros ctx n st P; [exact I|].
  apply (visit_sound_step f IH n ctx st P).
Qed.

Lemma type_of_append_body tmps n : type_of (append_body tmps n) = type_of n.
Proof.
  unfold append_body. destruct tmps; [reflexivity|].
  destruct (String.eqb _ "Program"); [reflexivity|].
  destruct (child "body" n); reflexivity.
Qed.

Lemma call_exit_Program ctx n st :
  type_of n = "Program" -> call_exit ctx n st = Program_exit n st.
Proof. intros T. unfold call_exit. rewrite T. reflexivity. Qed.

Lemma compile_Program f o loc attrs kids :
  compile (S f) o (Node "Program" loc attrs kids) =
  match traverse_program (S f) o (Node "Program" loc attrs kids) with
  | KDone kids' st2 =>
      match Program_exit (traversed (Node "Program" loc attrs kids) kids' st2)
                         (set_pending [] st2) with
      | XKeep n _ => CompileOk n
      | XThrow (ThrownState errs) => CompileError errs
      | _ => Diverges
      end
  | KThrown (ThrownState errs) => CompileError errs
  | KThrown e => Crash e
  | KOutOfFuel => Diverges
  end.
Proof.
  unfold compile. rewrite visit_unfold.
  change (call_enter root (Node "Program" loc attrs kids) (start o (Node "Program" loc attrs kids)))
    with (EContinue attrs (set_errors [] (start o (Node "Program" loc attrs kids)))).
  unfold after_enter, traverse_program, entered, traversed.
  change (owns_block "Program") with true. cbv iota. cbn [kids_of loc_of attrs_of pred].
  destruct (visit_kids (S f) root "Program" kids _) as [kids' st2|e|]; try reflexivity.
  rewrite call_exit_Program by apply type_of_append_body.
  unfold Program_exit.
  destruct (Nat.ltb 0 (List.length (errors _))); reflexivity.
Qed.

Lemma Forall_P_kid (P : node -> Prop) ks :
  (forall n, P n) -> Forall (fun kk : string * kid => P_kid P (snd kk)) ks.
Proof.
  intros H. induction ks as [|[k [c|cs]] ks IH]; constructor; auto; cbn.
  - apply H.
  - induction cs; constructor; auto.
Qed.

Lemma traverse_program_sound fuel o loc attrs kids :
  all_kids program_free kids = true ->
  sound_kids (entered o (Node "Program" loc attrs kids))
             (traverse_program fuel o (Node "Program" loc attrs kids)).
Proof.
  intros P. unfold traverse_program. cbn [kids_of].
  apply visit_kids_sound; [|exact P].
  apply Forall_P_kid. intros n ctx st. apply visit_sound.
Qed.

Lemma strict_rtsExpression st : strict_only (rtsExpression st) = true.
Proof. unfold rtsExpression. destruct (isOnline (opts st)); reflexivity. Qed.

Lemma Program_exit_strict n st n' st' :
  strict_only n = true -> Program_exit n st = XKeep n' st' -> strict_only n' = true.
Proof.
  intros S. unfold Program_exit.
  destruct (Nat.ltb 0 (List.length (errors st))); [discriminate|].
  intros [= <- <-].
  destruct (negb (Nat.eqb (List.length (children "body" n)) 0)); [|exact S].
  unfold strict_only in *.
  pose proof (all_head _ _ S) as Hd. pose proof (all_kids_of _ _ S) as K.
  pose proof (all_children _ "body" _ S) as C.
  destruct n as [ty loc attrs kids]. cbn [type_of loc_of attrs_of kids_of] in *.
  rewrite all_nodes_unfold, (strict_node_local ty loc loc attrs _ kids), Hd. cbn [andb].
  apply all_kids_update; [|exact K]. cbn [all_kid all_list].
  rewrite C, andb_true_r.
  pose proof (strict_rtsExpression st) as R. unfold strict_only in R.
  cbn. rewrite R. reflexivity.
Qed.

Lemma compile_strict fuel o loc attrs kids p' :
  all_kids program_free kids = true ->
  compile fuel o (Node "Program" loc attrs kids) = CompileOk p' ->
  strict_only p' = true.
Proof.
  intros P. destruct fuel as [|f]; [discriminate|].
  rewrite compile_Program.
  pose proof (traverse_program_sound (S f) o loc attrs kids P) as K.
  destruct (traverse_program (S f) o (Node "Program" loc attrs kids)) as [kids' st2|e|];
    [|destruct e; discriminate|discriminate].
  cbn [sound_kids] in K. destruct K as [_ (extra & E & S)].
  change (errors (entered o (Node "Program" loc attrs kids))) with (@nil ElementarySyntaxError) in E.
  cbn [List.app] in E.
  destruct (Program_exit _ _) as [n st3| | |e] eqn:X; try discriminate;
    [|destruct e; discriminate].
  intros [= <-].
  assert (N : extra = []).
  { unfold Program_exit in X. cbn [errors set_pending] in X. rewrite E in X.
    destruct extra; [reflexivity|discriminate X]. }
  eapply Program_exit_strict; [|exact X].
  unfold traversed. apply all_append_body;
    [exact strict_node_local|exact strict_node_other|].
  cbn [loc_of attrs_of]. change (strict_only (Node "Program" loc attrs kids') = true).
  rewrite strict_only_unfold. rewrite (S N). reflexivity.
Qed.

Lemma compile_error_iff fuel o loc attrs kids :
  all_kids program_free kids = true ->
  rank (Node "Program" loc attrs kids) < fuel ->
  match traverse_program fuel o (Node "Program" loc attrs kids) with
  | KDone kids' st =>
      (errors st <> [] /\
       compile fuel o (Node "Program" loc attrs kids) = CompileError (errors st)) \/
      (errors st = [] /\
       exists p', compile fuel o (Node "Program" loc attrs kids) = CompileOk p')
  | KThrown e =>
      (forall errs, e <> ThrownState errs) /\
      compile fuel o (Node "Program" loc attrs kids) = Crash e
  | KOutOfFuel => False
  end.
Proof.
  intros P R. pose proof (compile_total o _ fuel R) as T.
  destruct fuel as [|f]; [lia|]. rewrite compile_Program in *.
  pose proof (traverse_program_sound (S f) o loc attrs kids P) as K.
  destruct (traverse_program (S f) o (Node "Program" loc attrs kids)) as [kids' st2|e|];
    cbn [sound_kids] in K.
  - unfold Program_exit. cbn [errors set_pending].
    destruct (errors st2) as [|e es] eqn:E.
    + right. split; [reflexivity|]. cbn. eauto.
    + left. split; [discriminate|]. reflexivity.
  - split; [exact K|]. destruct e; try reflexivity. exfalso. eapply K; reflexivity.
  - apply T. reflexivity.
Qed.

Lemma visit_loader f ctx st st0 :
  visit (S f) ctx (loader st0) st =
  Thrown (ThrownTypeError "Cannot read property 'start' of undefined").
Proof. reflexivity. Qed.

Lemma visit_kids_loader f ctx ty ks st st0 b :
  lookup "body" ks = Some (Many (loader st0 :: b)) ->
  forall ks' st', visit_kids (S f) ctx ty ks st <> KDone ks' st'.
Proof.
  revert st. induction ks as [|[k v] ks IH]; intros st L ks' st'; [discriminate|].
  cbn [lookup] in L. destruct v as [c|cs].
  - rewrite visit_kids_One.
    destruct (String.eqb "body" k); [discriminate|].
    destruct (visit (S f) _ c st) as [c' st1| |]; try discriminate.
    specialize (IH st1 L).
    destruct (visit_kids (S f) ctx ty ks st1) as [r s| |]; try discriminate.
    exfalso. eapply IH; reflexivity.
  - rewrite visit_kids_Many.
    destruct (String.eqb "body" k).
    + injection L as ->. rewrite visit_list_cons, visit_loader. discriminate.
    + destruct (visit_list (S f) _ cs st) as [cs' st1| |]; try discriminate.
      destruct (queued_before ctx ty k st); [|discriminate].
      specialize (IH st1 L).
      destruct (visit_kids (S f) ctx ty ks st1) as [r s| |]; try discriminate.
      exfalso. eapply IH; reflexivity.
Qed.

(** The output of a successful run on a program with statements begins
    with the loader binding. *)
Lemma compile_ok_shape fuel o loc attrs kids p' :
  compile fuel o (Node "Program" loc attrs kids) = CompileOk p' ->
  children "body" p' <> [] ->
  exists loc' attrs' ks st0 b,
    p' = Node "Program" loc' attrs' ks /\ lookup "body" ks = Some (Many (loader st0 :: b)).
Proof.
  destruct fuel as [|f]; [discriminate|]. rewrite compile_Program.
  destruct (traverse_program _ _ _) as [kids' st2|e|]; [|destruct e; discriminate|discriminate].
  unfold Program_exit.
  destruct (Nat.ltb 0 _); [discriminate|].
  set (n2 := traversed _ _ _).
  assert (T : type_of n2 = "Program") by apply type_of_append_body.
  destruct (negb (Nat.eqb (List.length (children "body" n2)) 0)) eqn:B.
  - intros [= <-] _. rewrite T. do 5 eexists. split; [reflexivity|].
    apply lookup_update_same.
  - intros [= <-] N. exfalso. apply N.
    apply negb_false_iff, Nat.eqb_eq in B. destruct (children "body" n2); [reflexivity|discriminate].
Qed.

Lemma second_run_fails fuel o loc attrs kids p' :
  compile fuel o (Node "Program" loc attrs kids) = CompileOk p' ->
  children "body" p' <> [] ->
  forall fuel' o' p'', compile fuel' o' p' <> CompileOk p''.
Proof.
  intros C N fuel' o' p''.
  destruct (compile_ok_shape _ _ _ _ _ _ C N) as (loc' & attrs' & ks & st0 & b & -> & L).
  destruct fuel' as [|f']; [discriminate|]. rewrite compile_Program.
  unfold traverse_program. cbn [kids_of].
  pose proof (visit_kids_loader f' root "Program" ks
                (entered o' (Node "Program" loc' attrs' ks)) st0 b L) as K.
  destruct (visit_kids _ _ _ _ _) as [r s|e|]; [|destruct e; discriminate|discriminate].
  exfalso. eapply K; reflexivity.
Qed.

(** The replacements of four [exit] handlers are marked. *)
Lemma marked_exits ctx n st n' st' :
  MemberExpression_exit ctx n st <> XReplace n' st' /\
  AssignmentExpression_exit n st <> XReplace n' st' /\
  BinaryExpression_exit n st <> XReplace n' st' /\
  UpdateExpression_exit n st <> XReplace n' st'.
Proof.
  unfold MemberExpression_exit, AssignmentExpression_exit, BinaryExpression_exit,
    UpdateExpression_exit.
  repeat split;
  repeat match goal with
  | |- (match ?x with _ => _ end) <> _ => destruct x
  | |- (if ?x then _ else _) <> _ => destruct x
  end; discriminate.
Qed.

Lemma all_nodes_true n : all_nodes (fun _ => true) n = true.
Proof.
  induction n as [ty loc attrs kids IH] using node_induction.
  rewrite all_nodes_unfold. cbn [andb].
  induction IH as [|[k [c|cs]] ks H _ IHks]; cbn [all_kids]; [reflexivity| |].
  - cbn in H. rewrite H, IHks. reflexivity.
  - cbn in H. rewrite IHks, andb_true_r.
    induction H as [|c cs Hc _ IHcs]; cbn [all_list]; [reflexivity|].
    rewrite Hc, IHcs. reflexivity.
Qed.

(** Only [Program.exit] throws the state. *)
Lemma state_thrown_at_exit ctx n st errs :
  call_enter ctx n st <> EThrow (ThrownState errs) /\
  (call_exit ctx n st = XThrow (ThrownState errs) ->
   type_of n = "Program" /\ errs = errors st /\ errs <> []).
Proof.
  split.
  - destruct (String.eqb (type_of n) "Program") eqn:T.
    + unfold call_enter. rewrite T. discriminate.
    + pose proof (call_enter_post ctx n st T) as E.
      destruct (call_enter ctx n st); try discriminate. cbn in E.
      intros H. injection H as H. eapply E. exact H.
  - destruct (String.eqb (type_of n) "Program") eqn:T.
    + unfold call_exit. rewrite T. apply String.eqb_eq in T.
      unfold Program_exit. destruct (errors st) as [|e es]; cbn; [discriminate|].
      intros [= <-]. repeat split; auto. discriminate.
    + pose proof (call_exit_closed (fun _ => true) (fun _ _ _ => eq_refl) ctx n st T
                    (all_kids_of _ _ (all_nodes_true n))) as X.
      intros H. rewrite H in X. exfalso. eapply X. reflexivity.
Qed.



(** [a.b += 1;] compiles to a sequence that names the object once; the
    declaration of the temporary is the last statement of the program. *)
Lemma compound_member_compiled fuel :
  compile (2 + fuel) standalone (program [expressionStatement 1 compound]) =
  CompileOk
    (program [loader (start standalone (program []));
              compound_checked; tmp_declaration "_tmp"]).
Proof. reflexivity. Qed.

(** In the default value of a parameter the declaration is pushed before
    the statements of the function are queued: the pass visits it and
    fails on the node, which has no position. *)
Lemma default_parameter_crashes fuel :
  compile (2 + fuel) standalone default_parameter = Crash declaration_thrown.
Proof. reflexivity. Qed.

Lemma new_Array_compiles o fuel :
  compile (2 + fuel) o (new_Array [numericLiteral 1 3]) =
    CompileOk (new_SafeArray o [numericLiteral 1 3]) /\
  compile (2 + fuel) o (new_Array [numericLiteral 1 3; numericLiteral 1 0]) =
    CompileOk (new_SafeArray o [numericLiteral 1 3; numericLiteral 1 0]) /\
  compile (1 + fuel) o call_Array =
    CompileError
      [{| line := 1;
          message := "You must use the 'new' keyword to create a new array." |}].
Proof. destruct o as [[|] r]; repeat split; vm_compute; reflexivity. Qed.

Lemma new_Array_no_diagnostic fuel errs :
  compile fuel standalone (new_Array [numericLiteral 1 3]) <> CompileError errs.
Proof.
  destruct fuel as [|[|f]]; vm_compute; discriminate.
Qed.


Lemma empty_program_fixed fuel o loc attrs :
  compile (S fuel) o (Node "Program" loc attrs [("body", Many [])]) =
  CompileOk (Node "Program" loc attrs [("body", Many [])]).
Proof. reflexivity. Qed.

Lemma BinaryExpression_normalised ty loc attrs kids st :
  (operator_of attrs = "==" ->
   BinaryExpression_enter (Node ty loc attrs kids) st =
     EContinue (update "operator" (AString "===") attrs) st) /\
  (operator_of attrs = "!=" ->
   BinaryExpression_enter (Node ty loc attrs kids) st =
     EContinue (update "operator" (AString "!==") attrs) st).
Proof.
  unfold BinaryExpression_enter.
  change (attr_s "operator" (Node ty loc attrs kids)) with (operator_of attrs).
  split; intros ->; reflexivity.
Qed.

Lemma BinaryExpression_dispatch n st lhs rhs :
  child "left" n = Some lhs -> child "right" n = Some rhs ->
  (includes (attr_s "operator" n) numOrStringOperators = true ->
   BinaryExpression_exit n st =
     XReplaceSkip (dynCheck "applyNumOrStringOp"
                     [stringLiteral (attr_s "operator" n); lhs; rhs]) st) /\
  (includes (attr_s "operator" n) numOperators = true ->
   BinaryExpression_exit n st =
     XReplaceSkip (dynCheck "applyNumOp"
                     [stringLiteral (attr_s "operator" n); lhs; rhs]) st) /\
  (includes (attr_s "operator" n) strict_operators = true ->
   BinaryExpression_exit n st = XKeep n st).
Proof.
  intros L R. unfold BinaryExpression_exit, required. rewrite L, R.
  repeat split.
  - intros ->. reflexivity.
  - intros H. destruct (includes _ numOrStringOperators) eqn:E.
    + exfalso. unfold includes, numOrStringOperators, numOperators in *. cbn [existsb] in *.
      rewrite orb_false_r in E. apply String.eqb_eq in E. rewrite E in H. discriminate H.
    + rewrite H. reflexivity.
  - intros H. unfold includes, strict_operators, numOrStringOperators, numOperators in *.
    cbn [existsb] in *. rewrite orb_false_r in H.
    apply orb_prop in H as [H|H]; apply String.eqb_eq in H; rewrite H; reflexivity.
Qed.

(** C1.  For every parsed program and enough fuel, the traversal of the
    program either ends or is aborted by an exception of the host that is
    not the visitor state.  When it ends, the result of the compilation is
    the error object carrying the recorded diagnostics if at least one was
    recorded, and a rewritten tree if none was.  No [enter] handler throws
    the state, and an [exit] handler that throws it is that of the program,
    which throws the non-empty sequence of recorded diagnostics. *)
Theorem C1_error_iff_diagnostics fuel o loc attrs kids :
  all_kids program_free kids = true ->
  rank (Node "Program" loc attrs kids) < fuel ->
  match traverse_program fuel o (Node "Program" loc attrs kids) with
  | KDone kids' st =>
      (errors st <> [] /\
       compile fuel o (Node "Program" loc attrs kids) = CompileError (errors st)) \/
      (errors st = [] /\
       exists p', compile fuel o (Node "Program" loc attrs kids) = CompileOk p')
  | KThrown e =>
      (forall errs, e <> ThrownState errs) /\
      compile fuel o (Node "Program" loc attrs kids) = Crash e
  | KOutOfFuel => False
  end /\
  (forall ctx n st errs,
     call_enter ctx n st <> EThrow (ThrownState errs) /\
     (call_exit ctx n st = XThrow (ThrownState errs) ->
      type_of n = "Program" /\ errs = errors st /\ errs <> [])).
Proof.
  intros P R. split; [apply compile_error_iff; assumption|].
  intros. apply state_thrown_at_exit.
Qed.

(** C1 at [x++; a === b;]. *)
Lemma C1_error_iff_diagnostics_witness :
  all_kids program_free (kids_of two_diagnostics) = true /\
  rank two_diagnostics < 1 /\
  compile 1 standalone two_diagnostics =
    CompileError
      [{| line := 1;
          message := "Do not use post-increment or post-decrement operators." |};
       {| line := 2; message := "Do not use the '===' operator." |}].
Proof.
  split; [reflexivity|]. split; [cbn; lia|].
  destruct (C1_error_iff_diagnostics 1 standalone (Some 1) []
              (kids_of two_diagnostics) eq_refl ltac:(cbn; lia)) as [H _].
  vm_compute in H. destruct H as [[_ H]|[H _]]; [|discriminate H].
  vm_compute. exact H.
Defined.





(** C2, counterexample.  [new Array(3);] compiles: the result is a tree,
    not a diagnostic; and the constructor of the runtime raises on the
    arguments [(3, 0)]. *)
Lemma C2_counterexample_new_Array_compiles :
  compile 2 standalone (new_Array [numericLiteral 1 3]) =
    CompileOk (new_SafeArray standalone [numericLiteral 1 3]) /\
  Runtime.ArrayStub_constructor
    [Runtime.VNumber (Num.of_Z 3); Runtime.VNumber (Num.of_Z 0)] =
    Runtime.Throw (Runtime.ElementaryRuntimeError "use Array.create(length, init)").
Proof. split; vm_compute; reflexivity. Qed.

(** C2, as amended.  [new Array(3);] and [new Array(3, 0);] compile without
    a diagnostic into a [new] of the [SafeArray] member of the runtime
    object, with the arguments kept; it is the call [Array(3);] that fails
    with a diagnostic.  At run time the constructor of the runtime always
    raises, the runtime object has no member [SafeArray], and it is
    [create(3, 0)], with a scheduler installed, that gives an array of
    three zeros. *)
Theorem C2_new_Array_is_rewritten (o : Opts) (fuel : nat) :
  compile (2 + fuel) o (new_Array [numericLiteral 1 3]) =
    CompileOk (new_SafeArray o [numericLiteral 1 3]) /\
  compile (2 + fuel) o (new_Array [numericLiteral 1 3; numericLiteral 1 0]) =
    CompileOk (new_SafeArray o [numericLiteral 1 3; numericLiteral 1 0]) /\
  compile (1 + fuel) o call_Array =
    CompileError
      [{| line := 1;
          message := "You must use the 'new' keyword to create a new array." |}] /\
  (forall errs,
     compile fuel standalone (new_Array [numericLiteral 1 3]) <> CompileError errs) /\
  (forall args,
     Runtime.ArrayStub_constructor args =
       Runtime.Throw
         (Runtime.ElementaryRuntimeError "use Array.create(length, init)")) /\
  Runtime.dot Runtime.simple_host Runtime.rts_object "SafeArray" =
    Runtime.Throw (Runtime.no_member "SafeArray") /\
  Runtime.create (Runtime.setRunner Runtime.identity_runner Runtime.initial)
    [Runtime.VNumber (Num.of_Z 3); Runtime.VNumber (Num.of_Z 0)] =
    Runtime.Return
      (Runtime.VArray
         [Some (Runtime.VNumber (Num.of_Z 0)); Some (Runtime.VNumber (Num.of_Z 0));
          Some (Runtime.VNumber (Num.of_Z 0))]).
Proof.
  destruct (new_Array_compiles o fuel) as (A & B & C).
  split; [exact A|]. split; [exact B|]. split; [exact C|].
  split; [intros errs; apply new_Array_no_diagnostic|].
  split; [reflexivity|]. split; vm_compute; reflexivity.
Qed.

End VisitorFacts.

(* ===================================================================== *)
(** ** More facts about the runtime layer *)
(* ===================================================================== *)

Module RuntimeLaws.

Import Num NumFacts Runtime RuntimeFacts.
Local Open Scope nat_scope.

(** *** Writes to arrays and objects *)

Lemma slot_set_length i v elems :
  i < List.length elems -> List.length (slot_set i v elems) = List.length elems.
Proof.
  revert elems. induction i as [|i IH]; intros [|x rest] L; cbn in *; try lia.
  rewrite IH by lia. reflexivity.
Qed.

Lemma slot_set_same i v elems : nth_error (slot_set i v elems) i = Some (Some v).
Proof.
  revert elems. induction i as [|i IH]; intros [|x rest]; cbn; auto.
Qed.

Lemma slot_set_other i j v elems :
  i < List.length elems -> j <> i ->
  nth_error (slot_set i v elems) j = nth_error elems j.
Proof.
  revert j elems. induction i as [|i IH]; intros [|j] [|x rest] L N; cbn in *;
    try lia; try reflexivity.
  apply IH; lia.
Qed.

Lemma slot_defined elems n :
  slot elems n <> VUndefined -> n < List.length elems.
Proof.
  unfold slot. intros H. apply nth_error_Some. intros E. rewrite E in H. auto.
Qed.

Lemma assoc_set_same k v props : assoc k (assoc_set k v props) = Some v.
Proof.
  induction props as [|[k' v'] rest IH]; cbn.
  - rewrite String.eqb_refl. reflexivity.
  - destruct (String.eqb k k') eqn:E; cbn; [rewrite String.eqb_refl|rewrite E]; auto.
Qed.

Lemma assoc_set_other k k' v props :
  k' <> k -> assoc k' (assoc_set k v props) = assoc k' props.
Proof.
  intros N. induction props as [|[k0 v0] rest IH]; cbn.
  - destruct (String.eqb_spec k' k); [contradiction|reflexivity].
  - destruct (String.eqb_spec k k0) as [->|]; cbn.
    + destruct (String.eqb_spec k' k0); [contradiction|reflexivity].
    + rewrite IH. reflexivity.
Qed.

Lemma assoc_set_keys k v props :
  map fst (assoc_set k v props) =
  match assoc k props with
  | Some _ => map fst props
  | None => (map fst props ++ [k])%list
  end.
Proof.
  induction props as [|[k0 v0] rest IH]; cbn; [reflexivity|].
  destruct (String.eqb_spec k k0) as [->|]; cbn; [reflexivity|].
  rewrite IH. destruct (assoc k rest); reflexivity.
Qed.

Lemma checkArray_number host elems i v :
  checkArray host (VArray elems) (VNumber i) v =
  match to_Z i with
  | None => Throw (not_valid host (VNumber i))
  | Some z =>
      if (z <? 0)%Z then Throw (not_valid host (VNumber i))
      else if is_undefined (slot elems (Z.to_nat z))
           then Throw (out_of_bounds host (VNumber i))
           else Return (v, VArray (slot_set (Z.to_nat z) v elems))
  end.
Proof.
  unfold checkArray. rewrite arrayBoundsCheck_number. unfold set_index.
  destruct (to_Z i) as [z|]; [|reflexivity].
  destruct (z <? 0)%Z; [reflexivity|].
  destruct (is_undefined _); reflexivity.
Qed.

Lemma checkArray_returns host o k v w o' :
  checkArray host o k v = Return (w, o') ->
  exists elems i z,
    o = VArray elems /\ k = VNumber i /\ to_Z i = Some z /\ (0 <= z)%Z /\
    slot elems (Z.to_nat z) <> VUndefined /\
    w = v /\ o' = VArray (slot_set (Z.to_nat z) v elems).
Proof.
  intros H.
  destruct o as [| | | | | |elems|]; try discriminate H.
  destruct k as [| | |i| | | |]; try discriminate H;
    try (unfold checkArray, arrayBoundsCheck, template in H;
         destruct (ToPrimitive host _); discriminate H).
  rewrite checkArray_number in H.
  destruct (to_Z i) as [z|] eqn:E; [|discriminate H].
  destruct (Z.ltb_spec z 0); [discriminate H|].
  destruct (is_undefined (slot elems (Z.to_nat z))) eqn:U; [discriminate H|].
  injection H as <- <-. exists elems, i, z. repeat split; auto.
  intros C. rewrite C in U. discriminate U.
Qed.

(** X1.  A write through [checkArray] that returns has replaced one
    element of an array in place: the base is an array, the index denotes
    a position below its length, the array keeps its length, the position
    holds the value written, which is also the result, and every other
    position is as before. *)
Theorem X1_checkArray_in_place host o k v w o' :
  checkArray host o k v = Return (w, o') ->
  exists elems elems' i n,
    o = VArray elems /\ o' = VArray elems' /\ k = VNumber i /\
    to_Z i = Some (Z.of_nat n) /\ n < List.length elems /\ w = v /\
    List.length elems' = List.length elems /\
    nth_error elems' n = Some (Some v) /\
    forall m, m <> n -> nth_error elems' m = nth_error elems m.
Proof.
  intros H. apply checkArray_returns in H as (elems & i & z & -> & -> & E & L & D & -> & ->).
  pose proof (slot_defined _ _ D) as B.
  exists elems, (slot_set (Z.to_nat z) v elems), i, (Z.to_nat z).
  rewrite Z2Nat.id by exact L.
  repeat split; auto using slot_set_length, slot_set_same.
  intros m N. apply slot_set_other; assumption.
Qed.

(** X1 at [a[1] = 7] for [a = [1, 2, 3]]. *)
Lemma X1_checkArray_in_place_witness :
  exists elems',
    checkArray simple_host (VArray [Some (VNumber (of_Z 1)); Some (VNumber (of_Z 2));
                                    Some (VNumber (of_Z 3))])
               (VNumber (of_Z 1)) (VNumber (of_Z 7)) =
      Return (VNumber (of_Z 7), VArray elems') /\
    List.length elems' = 3 /\ nth_error elems' 1 = Some (Some (VNumber (of_Z 7))).
Proof.
  destruct (X1_checkArray_in_place simple_host
              (VArray [Some (VNumber (of_Z 1)); Some (VNumber (of_Z 2));
                       Some (VNumber (of_Z 3))])
              (VNumber (of_Z 1)) (VNumber (of_Z 7)) (VNumber (of_Z 7))
              (VArray [Some (VNumber (of_Z 1)); Some (VNumber (of_Z 7));
                       Some (VNumber (of_Z 3))]) eq_refl)
    as (elems & elems' & i & n & Eo & Eo' & Ek & En & L & _ & Len & Nth & _).
  exists elems'. injection Eo as <-. injection Ek as <-.
  change (to_Z (of_Z 1) = Some (Z.of_nat n)) in En. rewrite to_Z_of_Z in En.
  assert (n = 1) as -> by (injection En as En; lia).
  rewrite <- Eo'. repeat split; assumption.
Defined.

(** X2.  Once [checkArray] has stored [undefined] at an index, the index
    is out of bounds for the runtime: every later read through
    [arrayBoundsCheck] and every later write through [checkArray] at that
    index raises the "out of array bounds" error. *)
Theorem X2_checkArray_undefined_closes_slot host o k w o' :
  checkArray host o k VUndefined = Return (w, o') ->
  arrayBoundsCheck host o' k = Throw (out_of_bounds host k) /\
  forall v, checkArray host o' k v = Throw (out_of_bounds host k).
Proof.
  intros H. apply checkArray_returns in H as (elems & i & z & -> & -> & E & L & D & -> & ->).
  assert (S : slot (slot_set (Z.to_nat z) VUndefined elems) (Z.to_nat z) = VUndefined).
  { unfold slot. rewrite slot_set_same. reflexivity. }
  split; [|intros v]; rewrite ?arrayBoundsCheck_number, ?checkArray_number, E, S;
    destruct (Z.ltb_spec z 0); try lia; reflexivity.
Qed.

(** X2 at [a[0] = undefined] for [a = [1]]. *)
Lemma X2_checkArray_undefined_closes_slot_witness :
  checkArray simple_host (VArray [Some VUndefined]) (VNumber zero) (VNumber one) =
    Throw (ElementaryRuntimeError "index '0' is out of array bounds").
Proof.
  apply (X2_checkArray_undefined_closes_slot simple_host
           (VArray [Some (VNumber one)]) (VNumber zero) VUndefined
           (VArray [Some VUndefined]) eq_refl).
Defined.

Lemma slot_repeat (v : value) n i :
  slot (repeat (Some v) n) i = if i <? n then v else VUndefined.
Proof.
  unfold slot. destruct (Nat.ltb_spec i n) as [L|L].
  - rewrite nth_error_repeat by exact L. reflexivity.
  - destruct (nth_error (repeat (Some v) n) i) eqn:E; [|reflexivity].
    assert (i < List.length (repeat (Some v) n)) by (apply nth_error_Some; congruence).
    rewrite repeat_length in *. lia.
Qed.

(** X3.  With a scheduler whose array wrapper returns the array it is
    given, [create(n, v)] for [0 < n < 2^31] returns an array that
    [arrayBoundsCheck] reads as [v] at every index below [n], and as out
    of bounds at every index from [n] on; when [v] is [undefined], every
    index is out of bounds. *)
Theorem X3_create_then_read host st runner z v :
  stopifyRunner st = Some runner ->
  (forall l, hof_stopifyArray runner l = VArray l) ->
  (0 < z < 2 ^ 31)%Z ->
  exists a,
    create st [VNumber (of_Z z); v] = Return a /\
    forall i, (0 <= i)%Z ->
      arrayBoundsCheck host a (VNumber (of_Z i)) =
      if (i <? z)%Z && negb (is_undefined v) then Return v
      else Throw (out_of_bounds host (VNumber (of_Z i))).
Proof.
  intros R W B. exists (VArray (repeat (Some v) (Z.to_nat z))). split.
  - rewrite create_number, size_check_passes by exact B.
    unfold new_Array. rewrite (to_Z_trunc _ _ (to_Z_of_Z z)), create_fill.
    unfold stopifyArray, getRunner. rewrite R, W. reflexivity.
  - intros i L. rewrite arrayBoundsCheck_number, to_Z_of_Z, slot_repeat.
    destruct (Z.ltb_spec i 0); [lia|].
    destruct (Z.ltb_spec i z); destruct (Nat.ltb_spec (Z.to_nat i) (Z.to_nat z)); try lia;
      cbn [andb]; [|reflexivity].
    destruct (is_undefined v) eqn:U; cbn [negb]; [|reflexivity].
    apply is_undefined_spec in U. subst v. reflexivity.
Qed.

(** X3 at [create(3, 0)], read at index 2. *)
Lemma X3_create_then_read_witness :
  exists a,
    create (setRunner identity_runner initial) [VNumber (of_Z 3); VNumber zero] = Return a /\
    arrayBoundsCheck simple_host a (VNumber (of_Z 2)) = Return (VNumber zero).
Proof.
  destruct (X3_create_then_read simple_host (setRunner identity_runner initial)
              identity_runner 3%Z (VNumber zero) eq_refl (fun l => eq_refl) ltac:(lia))
    as (a & C & Rd).
  exists a. split; [exact C|]. apply (Rd 2%Z). lia.
Defined.



(** *** The operators *)

Ltac by_operator op :=
  repeat match goal with
  | |- context [String.eqb op ?s] =>
      destruct (String.eqb_spec op s); [subst op|]
  | H : context [String.eqb op ?s] |- _ =>
      destruct (String.eqb_spec op s); [subst op|]
  end.

Lemma applyNumOp_numbers op l r :
  In op Visitor.numOperators ->
  exists v, applyNumOp op (VNumber l) (VNumber r) = Return v /\
            typeof v = if Visitor.includes op ["<="; ">="; "<"; ">"]
                       then "boolean" else "number".
Proof.
  intros I. cbn in I.
  repeat (destruct I as [<-|I]; [eexists; split; reflexivity|]).
  contradiction.
Qed.

Lemma applyNumOp_returns op lhs rhs v :
  applyNumOp op lhs rhs = Return v ->
  typeof lhs = "number" /\ typeof rhs = "number" /\ In op Visitor.numOperators.
Proof.
  unfold applyNumOp. destruct lhs; try discriminate. destruct rhs; try discriminate.
  intros H. split; [reflexivity|]. split; [reflexivity|].
  by_operator op; try (cbn; tauto). discriminate H.
Qed.

(** X5.  [applyNumOp] returns exactly when both operands are numbers and
    the operator is one of those that the pass sends to it
    ([numOperators] of the visitor), so that no call made by compiled
    code reaches the internal error of its [default] case; division by
    zero and overflow return like every other pair of numbers.  The result
    is a boolean for the four comparisons and a number otherwise; operands
    of another type give the error about numbers. *)
Theorem X5_applyNumOp_dispatch op lhs rhs :
  ((exists v, applyNumOp op lhs rhs = Return v) <->
   (typeof lhs = "number" /\ typeof rhs = "number" /\ In op Visitor.numOperators)) /\
  (forall v, applyNumOp op lhs rhs = Return v ->
     typeof v = if Visitor.includes op ["<="; ">="; "<"; ">"]
                then "boolean" else "number") /\
  (typeof lhs <> "number" \/ typeof rhs <> "number" ->
   applyNumOp op lhs rhs =
     Throw (ElementaryRuntimeError
              ("arguments of operator '" ++ op ++ "' must both be numbers"))).
Proof.
  split; [split|split].
  - intros [v H]. eapply applyNumOp_returns; eauto.
  - intros (L & R & I). destruct lhs; try discriminate L. destruct rhs; try discriminate R.
    destruct (applyNumOp_numbers op n n0 I) as (v & H & _). eauto.
  - intros v H. destruct (applyNumOp_returns _ _ _ _ H) as (L & R & I).
    destruct lhs; try discriminate L. destruct rhs; try discriminate R.
    destruct (applyNumOp_numbers op n n0 I) as (v' & H' & T). congruence.
  - intros [N|N]; destruct lhs; try reflexivity; destruct rhs; try reflexivity;
      exfalso; apply N; reflexivity.
Qed.

(** X6.  [applyBinaryBooleanOp] returns exactly when both operands are
    booleans and the operator is [&&] or [||], and then the conjunction
    or the disjunction of the operands; it never converts an operand. *)
Theorem X6_applyBinaryBooleanOp op lhs rhs :
  ((exists v, applyBinaryBooleanOp op lhs rhs = Return v) <->
   (typeof lhs = "boolean" /\ typeof rhs = "boolean" /\ (op = "&&" \/ op = "||"))) /\
  (forall l r,
     applyBinaryBooleanOp "&&" (VBoolean l) (VBoolean r) = Return (VBoolean (l && r)) /\
     applyBinaryBooleanOp "||" (VBoolean l) (VBoolean r) = Return (VBoolean (l || r))) /\
  (typeof lhs <> "boolean" \/ typeof rhs <> "boolean" ->
   applyBinaryBooleanOp op lhs rhs =
     Throw (ElementaryRuntimeError
              ("arguments of operator '" ++ op ++ "' must both be booleans"))).
Proof.
  split; [split|split].
  - intros [v H]. unfold applyBinaryBooleanOp in H.
    destruct lhs; try discriminate H. destruct rhs; try discriminate H.
    split; [reflexivity|]. split; [reflexivity|].
    by_operator op; auto. discriminate H.
  - intros (L & R & [->| ->]); destruct lhs; try discriminate L;
      destruct rhs; try discriminate R; eexists; reflexivity.
  - intros l r. split; reflexivity.
  - intros [N|N]; destruct lhs; try reflexivity; destruct rhs; try reflexivity;
      exfalso; apply N; reflexivity.
Qed.

(** *** [arityCheck] *)

Lemma eqb_of_Z_iff a b : eqb (of_Z a) (of_Z b) = (a =? b)%Z.
Proof.
  destruct (Z.eqb_spec a b) as [->|N].
  - destruct (Z.eq_dec b 0) as [->|NZ]; [reflexivity|apply eqb_of_Z_refl; exact NZ].
  - destruct (eqb (of_Z a) (of_Z b)) eqn:E; [|reflexivity].
    apply eqb_of_Z in E. rewrite to_Z_of_Z in E. congruence.
Qed.

(** X7.  For argument counts below [2^53], [arityCheck] returns exactly
    when the expected and the actual count are equal; otherwise it raises
    an error that names the function and both counts, each followed by
    "argument" for one and by "arguments" for every other count. *)
Theorem X7_arityCheck host name e a :
  (Z.of_nat e < 2 ^ 53)%Z -> (Z.of_nat a < 2 ^ 53)%Z ->
  (arityCheck host name (of_nat e) (of_nat a) = Return VUndefined <-> e = a) /\
  (e <> a ->
   arityCheck host name (of_nat e) (of_nat a) =
     Throw (ElementaryRuntimeError
              ("function " ++ name ++ " expected " ++
               (ToString host (VNumber (of_nat e)) ++ " argument" ++
                (if e =? 1 then "" else "s")) ++ " but received " ++
               (ToString host (VNumber (of_nat a)) ++ " argument" ++
                (if a =? 1 then "" else "s"))))).
Proof.
  intros _ _. unfold arityCheck, arguments_text, of_nat. unfold one.
  rewrite !eqb_of_Z_iff.
  assert (Q : forall n, (Z.of_nat n =? 1)%Z = (n =? 1)).
  { intros n. destruct (Z.eqb_spec (Z.of_nat n) 1); destruct (Nat.eqb_spec n 1); lia. }
  rewrite !Q.
  destruct (Z.eqb_spec (Z.of_nat e) (Z.of_nat a)) as [E|N]; cbn [negb].
  - split; [split; [lia|reflexivity]|lia].
  - split; [split; [discriminate|lia]|]. intros _. reflexivity.
Qed.

(** X7 at a function of two parameters called with one argument. *)
Lemma X7_arityCheck_witness :
  arityCheck simple_host "f" (of_nat 2) (of_nat 1) =
    Throw (ElementaryRuntimeError
             "function f expected 2 arguments but received 1 argument").
Proof.
  apply (proj2 (X7_arityCheck simple_host "f" 2 1 ltac:(vm_compute; reflexivity)
                 ltac:(vm_compute; reflexivity))).
  discriminate.
Defined.

(** *** The test runner *)


Lemma test_record d o st :
  testsEnabled st = true ->
  exists e,
    test d o st = push_test {| description := d; failed := throws o; error := e |} st.
Proof.
  intros En. unfold test. rewrite En. cbn [negb].
  destruct (stopifyRunner st), o as [v|x]; cbn [throws]; eauto.
  destruct (includes "timed out" (exn_message x)); eauto.
Qed.

Lemma tests_run runs st :
  testsEnabled st = true ->
  testsEnabled (api_run (calls_of runs) st) = true /\
  stopifyRunner (api_run (calls_of runs) st) = stopifyRunner st /\
  map description (tests (api_run (calls_of runs) st)) =
    (map description (tests st) ++ map fst runs)%list /\
  map failed (tests (api_run (calls_of runs) st)) =
    (map failed (tests st) ++ map (fun r => throws (snd r)) runs)%list.
Proof.
  revert st. induction runs as [|[d o] runs IH]; intros st En.
  - cbn. rewrite !app_nil_r. auto.
  - cbn [calls_of map api_run fold_left api_step fst snd].
    destruct (test_record d o st En) as (e & ->).
    destruct (IH (push_test {| description := d; failed := throws o; error := e |} st) En)
      as (E1 & E2 & E3 & E4).
    unfold api_run, calls_of in *. rewrite E1, E2, E3, E4.
    cbn [push_test tests stopifyRunner]. rewrite !map_app, <- !app_assoc. cbn. auto.
Qed.

(** X9.  While testing is disabled, [test] records nothing and leaves the
    state as it is.  While it is enabled, a sequence of calls of [test]
    adds one record for each call, in the order of the calls, each with
    the description given and marked failed exactly when its function
    raised. *)
Theorem X9_test_records_in_order runs st :
  (testsEnabled st = false -> api_run (calls_of runs) st = st) /\
  (testsEnabled st = true ->
   map description (tests (api_run (calls_of runs) st)) =
     (map description (tests st) ++ map fst runs)%list /\
   map failed (tests (api_run (calls_of runs) st)) =
     (map failed (tests st) ++ map (fun r => throws (snd r)) runs)%list /\
   List.length (tests (api_run (calls_of runs) st)) =
     List.length (tests st) + List.length runs).
Proof.
  split.
  - intros Dis. induction runs as [|[d o] runs IH]; [reflexivity|].
    cbn [calls_of map api_run fold_left api_step fst snd].
    assert (T : test d o st = st) by (unfold test; rewrite Dis; reflexivity).
    rewrite T. exact IH.
  - intros En. destruct (tests_run runs st En) as (_ & _ & D & F).
    split; [exact D|]. split; [exact F|].
    rewrite <- (length_map description), D, length_app, !length_map. reflexivity.
Qed.

(** X9 at two tests, the second of which fails. *)
Lemma X9_test_records_in_order_witness :
  map failed
    (tests (api_run (calls_of [("a", Return VUndefined);
                               ("b", Throw (ElementaryTestingError "assertion failed"))])
                    (enableTests true default_timeout initial))) = [false; true].
Proof.
  apply (proj2 (X9_test_records_in_order
                  [("a", Return VUndefined);
                   ("b", Throw (ElementaryTestingError "assertion failed"))]
                  (enableTests true default_timeout initial))).
  reflexivity.
Defined.

Lemma summary_output hasStyles st :
  testsEnabled st = true -> tests st <> [] ->
  output (fst (summary hasStyles st)) =
    join nl (map (render_line (if hasStyles then "%c" else "")) (tests st) ++
             [render_totals (if hasStyles then "%c" else "")
                (count_passed (tests st)) (count_failed (tests st))]).
Proof.
  intros En NE. unfold summary. rewrite En. cbn [negb].
  destruct (tests st) as [|r l] eqn:T; [contradiction|].
  cbn [List.length Nat.eqb]. cbv zeta. cbn [fst output].
  destruct (summary_loop_gen hasStyles (if hasStyles then "%c" else "") (r :: l)
              {| acc_output := []; acc_style := []; numPassed := 0; numFailed := 0 |})
    as (O & P & F & _).
  unfold summary_loop. cbn [acc_output numPassed numFailed List.app] in O, P, F.
  rewrite !Nat.add_0_l in *. unfold render_totals.
  set (acc := fold_left _ _ _) in *. rewrite <- P, <- F.
  destruct (Nat.ltb 0 (numFailed acc)); cbn [acc_output]; rewrite O; reflexivity.
Qed.

Lemma count_failed_map l :
  count_failed l = List.length (filter (fun b => b) (map failed l)).
Proof.
  unfold count_failed. induction l as [|r l IH]; [reflexivity|].
  cbn [filter map]. destruct (failed r); cbn [List.length]; rewrite IH; reflexivity.
Qed.

Lemma count_passed_map l :
  count_passed l = List.length (filter negb (map failed l)).
Proof.
  unfold count_passed. induction l as [|r l IH]; [reflexivity|].
  cbn [filter map]. destruct (failed r); cbn [negb List.length]; rewrite IH; reflexivity.
Qed.

Lemma filter_map_length {A} (f : A -> bool) (g : bool -> bool) l :
  List.length (filter g (map f l)) = List.length (filter (fun x => g (f x)) l).
Proof.
  induction l as [|x l IH]; [reflexivity|]. cbn [map filter].
  destruct (g (f x)); cbn [List.length]; rewrite IH; reflexivity.
Qed.

(** X10.  A session that enables testing, runs a non-empty sequence of
    tests and asks for the summary gets one line for each test followed
    by the line of counts, which gives the number of tests whose function
    raised as failed and the number of the others as passed; the summary
    leaves no record behind. *)
Theorem X10_summary_of_session hasStyles timeout st0 runs :
  runs <> [] ->
  exists lines,
    output (fst (summary hasStyles
                   (api_run (calls_of runs) (enableTests true timeout st0)))) =
      join nl (lines ++
               [render_totals (if hasStyles then "%c" else "")
                  (List.length (filter (fun r => negb (throws (snd r))) runs))
                  (List.length (filter (fun r => throws (snd r)) runs))]) /\
    List.length lines = List.length runs /\
    tests (snd (summary hasStyles
                  (api_run (calls_of runs) (enableTests true timeout st0)))) = [].
Proof.
  intros NE.
  destruct (tests_run runs (enableTests true timeout st0) eq_refl) as (En & _ & D & F).
  cbn [enableTests tests map List.app] in D, F.
  set (st := api_run (calls_of runs) (enableTests true timeout st0)) in *.
  assert (L : List.length (tests st) = List.length runs).
  { rewrite <- (length_map failed), F, length_map. reflexivity. }
  assert (T : tests st <> []).
  { intros C. rewrite C in L. destruct runs; [contradiction|discriminate]. }
  exists (map (render_line (if hasStyles then "%c" else "")) (tests st)).
  split; [|split].
  - rewrite (summary_output hasStyles st En T).
    rewrite count_passed_map, count_failed_map, F, !filter_map_length. reflexivity.
  - rewrite length_map. exact L.
  - unfold summary. rewrite En. cbn [negb].
    destruct (Nat.eqb _ 0); reflexivity.
Qed.

(** X10 at a session of one passed and one failed test. *)
Lemma X10_summary_of_session_witness :
  exists lines,
    output (fst (summary false
      (api_run (calls_of [("a", Return VUndefined);
                          ("b", Throw (ElementaryTestingError "assertion failed"))])
               (enableTests true default_timeout initial)))) =
      join nl (lines ++ ["Tests:     1 failed, 1 passed, 2 total"]) /\
    List.length lines = 2.
Proof.
  destruct (X10_summary_of_session false default_timeout initial
              [("a", Return VUndefined);
               ("b", Throw (ElementaryTestingError "assertion failed"))])
    as (lines & O & L & _).
  - discriminate.
  - exists lines. split; [exact O|exact L].
Defined.

Lemma api_step_invariant st c :
  (testsEnabled st = false -> tests st = []) ->
  testsEnabled (api_step st c) = false -> tests (api_step st c) = [].
Proof.
  intros I. destruct c as [runner|enable timeout|d o|hasStyles]; cbn [api_step].
  - exact I.
  - reflexivity.
  - unfold test. destruct (testsEnabled st) eqn:En; cbn [negb]; [|intros _; auto].
    destruct (stopifyRunner st), o as [v|x]; cbn [push_test testsEnabled];
      try congruence.
    destruct (includes _ _); cbn [push_test testsEnabled]; congruence.
  - unfold summary. destruct (testsEnabled st) eqn:En; cbn [negb snd]; [|intros _; auto].
    destruct (Nat.eqb _ 0); reflexivity.
Qed.

Lemma api_step_runner st c :
  stopifyRunner (api_step st c) =
  match c with CallSetRunner x => Some x | _ => stopifyRunner st end.
Proof.
  destruct c as [runner|enable timeout|d o|hasStyles]; cbn [api_step]; try reflexivity.
  - unfold test. destruct (negb (testsEnabled st)); [reflexivity|].
    destruct o as [v|x]; destruct (stopifyRunner st) eqn:R;
      try destruct (includes "timed out" (exn_message x));
      cbn [push_test stopifyRunner]; exact R.
  - unfold summary. destruct (negb (testsEnabled st)); [reflexivity|].
    destruct (Nat.eqb _ 0); reflexivity.
Qed.

(** X11.  Whatever sequence of calls of [setRunner], [enableTests],
    [test] and [summary] is made from a state in which there is no record
    while testing is disabled (as in the initial state), there is again
    no record whenever testing is disabled; and the scheduler installed
    at the end is the one of the last [setRunner], which [enableTests],
    [test] and [summary] never remove. *)
Theorem X11_session_invariants calls st :
  (testsEnabled st = false -> tests st = []) ->
  (testsEnabled (api_run calls st) = false -> tests (api_run calls st) = []) /\
  stopifyRunner (api_run calls st) = last_runner calls (stopifyRunner st).
Proof.
  revert st. induction calls as [|c calls IH]; intros st I.
  - split; [exact I|reflexivity].
  - cbn [api_run fold_left last_runner].
    destruct (IH (api_step st c) (api_step_invariant st c I)) as [A B].
    split; [exact A|]. unfold api_run in B. rewrite B, api_step_runner. reflexivity.
Qed.

(** X11 from the initial state. *)
Lemma X11_session_invariants_witness :
  stopifyRunner
    (api_run [CallSetRunner identity_runner; CallEnableTests true default_timeout;
              CallTest "a" (Return VUndefined); CallSummary false] initial) =
  Some identity_runner.
Proof.
  apply (proj2 (X11_session_invariants
                  [CallSetRunner identity_runner; CallEnableTests true default_timeout;
                   CallTest "a" (Return VUndefined); CallSummary false] initial
                  (fun _ => eq_refl))).
Defined.

(** *** Updates of members, and [split] *)




(** *** Writing and reading back *)



End RuntimeLaws.

(* ===================================================================== *)
(** ** More facts about the pass *)
(* ===================================================================== *)

Module VisitorLaws.

Import Visitor VisitorFacts.
Local Open Scope nat_scope.

(** *** The internal errors *)

Lemma unassign_allowed op :
  includes op allowed = true -> String.eqb op "=" = false ->
  exists bop, unassign op = inl bop /\ includes (bop ++ "=") compound_operators = true /\
              bop ++ "=" = op.
Proof.
  unfold includes, allowed, unassign. cbn [existsb]. intros A E. rewrite E in A. cbn [orb] in A.
  repeat match goal with
  | |- context [if String.eqb op ?s then _ else _] =>
      destruct (String.eqb_spec op s); [subst op; eexists; repeat split; reflexivity|]
  end.
  cbn in A. repeat match goal with
  | H : context [String.eqb op ?s] |- _ =>
      destruct (String.eqb_spec op s); [contradiction|]
  end. discriminate A.
Qed.

Lemma with_error_not_internal n msg st k :
  (forall st', match k st' with EThrow e => internal e = false | _ => True end) ->
  match with_error n msg st k with EThrow e => internal e = false | _ => True end.
Proof.
  intros K. unfold with_error, error. destruct (loc_of n); [apply K|reflexivity].
Qed.

Lemma AssignmentExpression_enter_not_internal ctx n st :
  match AssignmentExpression_enter ctx n st with
  | EThrow e => internal e = false
  | _ => True
  end.
Proof.
  unfold AssignmentExpression_enter.
  destruct (includes (attr_s "operator" n) allowed) eqn:A; cbn [negb].
  2:{ apply with_error_not_internal. intros; exact I. }
  destruct (_ && _). { apply with_error_not_internal. intros; exact I. }
  destruct (String.eqb (attr_s "operator" n) "=") eqn:Op; [exact I|].
  destruct (unassign_allowed _ A Op) as (bop & -> & _).
  destruct (child "left" n) as [lhs|]; [|destruct (required "right" n); reflexivity].
  unfold required.
  destruct (child "right" n) as [rhs|]; [|reflexivity].
  destruct (String.eqb (type_of lhs) "Identifier"); [exact I|].
  cbn [generateUidIdentifier]. unfold enclosingScopeBlock_push.
  repeat match goal with
  | |- context [if ?c then _ else _] => destruct c
  | |- context [match child ?k ?x with _ => _ end] => destruct (child k x)
  end; try exact I; reflexivity.
Qed.

Lemma call_enter_not_internal ctx n st :
  match call_enter ctx n st with EThrow e => internal e = false | _ => True end.
Proof.
  unfold call_enter.
  repeat match goal with
  | |- context [if String.eqb (type_of n) ?s then _ else _] =>
      destruct (String.eqb (type_of n) s)
  end;
  try apply AssignmentExpression_enter_not_internal;
  unfold Program_enter, VariableDeclarator, CallExpression, BinaryExpression_enter,
    UnaryExpression, NewExpression_enter, UpdateExpression_enter, loop_handler,
    VariableDeclaration, banned;
  repeat match goal with
  | |- match with_error _ _ _ _ with _ => _ end =>
      apply with_error_not_internal; intros
  | |- match (match ?x with _ => _ end) with _ => _ end => destruct x
  | |- match (if ?x then _ else _) with _ => _ end => destruct x
  end; auto.
Qed.

(** What [enter] has checked of an assignment when it says to go on. *)
Lemma AssignmentExpression_enter_continues ctx n st attrs' st1 :
  AssignmentExpression_enter ctx n st = EContinue attrs' st1 ->
  attrs' = attrs_of n /\ attr_s "operator" n = "=" /\
  has_type "Identifier" (child "left" n) || has_type "MemberExpression" (child "left" n) = true.
Proof.
  unfold AssignmentExpression_enter.
  destruct (includes (attr_s "operator" n) allowed) eqn:A; cbn [negb].
  2:{ unfold with_error. destruct (error _ _ _); discriminate. }
  destruct (has_type "Identifier" (child "left" n)) eqn:HI;
    destruct (has_type "MemberExpression" (child "left" n)) eqn:HM; cbn [negb andb orb];
    try (unfold with_error; destruct (error _ _ _); discriminate);
    (destruct (String.eqb_spec (attr_s "operator" n) "=") as [Op|Op];
     [intros [= <- <-]; auto|]);
    destruct (child "left" n) as [lhs|]; try discriminate;
    destruct (required "right" n); try discriminate;
    destruct (String.eqb (type_of lhs) "Identifier");
    try (destruct (unassign _); discriminate);
    cbn [generateUidIdentifier];
    repeat match goal with
    | |- context [match ?x with _ => _ end] => destruct x
    end; discriminate.
Qed.

Lemma call_exit_not_internal ctx n st :
  (type_of n = "AssignmentExpression" ->
   attr_s "operator" n = "=" /\
   has_type "Identifier" (child "left" n) || has_type "MemberExpression" (child "left" n) = true) ->
  match call_exit ctx n st with XThrow e => internal e = false | _ => True end.
Proof.
  intros A. unfold call_exit.
  destruct (String.eqb (type_of n) "Program").
  { unfold Program_exit. destruct (Nat.ltb _ _); [reflexivity|exact I]. }
  destruct (String.eqb (type_of n) "MemberExpression").
  { unfold MemberExpression_exit, required.
    repeat match goal with
    | |- context [if ?c then _ else _] => destruct c
    | |- context [match child ?k ?x with _ => _ end] => destruct (child k x)
    | |- context [match attr_b ?k ?x with _ => _ end] => destruct (attr_b k x) as [[|]|]
    end; try exact I; reflexivity. }
  destruct (String.eqb_spec (type_of n) "AssignmentExpression") as [T|_].
  { destruct (A T) as [Op L]. unfold AssignmentExpression_exit. rewrite Op.
    cbn [String.eqb Ascii.eqb Bool.eqb negb].
    destruct (has_type "Identifier" (child "left" n));
      destruct (has_type "MemberExpression" (child "left" n)); try discriminate L;
      cbn [negb andb]; try exact I;
      unfold required, propertyAsString, bindT, required;
      repeat match goal with
      | |- context [match child ?k ?x with _ => _ end] => destruct (child k x)
      | |- context [match attr_b ?k ?x with _ => _ end] => destruct (attr_b k x) as [[|]|]
      end; try exact I; reflexivity. }
  destruct (String.eqb (type_of n) "BinaryExpression").
  { unfold BinaryExpression_exit, required.
    repeat match goal with
    | |- context [if ?c then _ else _] => destruct c
    | |- context [match child ?k ?x with _ => _ end] => destruct (child k x)
    end; try exact I; reflexivity. }
  destruct (String.eqb (type_of n) "NewExpression").
  { unfold NewExpression_exit.
    repeat match goal with
    | |- context [if ?c then _ else _] => destruct c
    | |- context [match child ?k ?x with _ => _ end] => destruct (child k x)
    end; try exact I; reflexivity. }
  destruct (String.eqb (type_of n) "UpdateExpression").
  { unfold UpdateExpression_exit, required, propertyAsString, bindT, required.
    repeat match goal with
    | |- context [if ?c then _ else _] => destruct c
    | |- context [match child ?k ?x with _ => _ end] => destruct (child k x)
    | |- context [match attr_b ?k ?x with _ => _ end] => destruct (attr_b k x) as [[|]|]
    end; try exact I; reflexivity. }
  exact I.
Qed.

(** The target of an assignment is still an identifier or a member
    expression when it has been visited. *)
Lemma visit_target_type fuel ctx c st c' st' :
  visit fuel ctx c st = Done c' st' ->
  type_of c = "Identifier" \/
  (type_of c = "MemberExpression" /\ parent_type ctx = "AssignmentExpression" /\
   key ctx = "left") ->
  type_of c' = type_of c.
Proof.
  destruct fuel as [|f]; [discriminate|]. destruct c as [ty loc attrs kids].
  rewrite visit_unfold. cbn [type_of].
  intros H [->|(-> & P & K)].
  - change (call_enter ctx (Node "Identifier" loc attrs kids) st) with (EContinue attrs st) in H.
    unfold after_enter in H. cbn [owns_block includes existsb String.eqb Ascii.eqb Bool.eqb orb] in H.
    destruct (visit_kids _ _ _ _ _) as [kids' st2| |]; try discriminate H.
    change (call_exit ctx (Node "Identifier" loc attrs kids') st2)
      with (XKeep (Node "Identifier" loc attrs kids') st2) in H.
    injection H as <- _. reflexivity.
  - change (call_enter ctx (Node "MemberExpression" loc attrs kids) st)
      with (EContinue attrs st) in H.
    unfold after_enter in H. cbn [owns_block includes existsb String.eqb Ascii.eqb Bool.eqb orb] in H.
    destruct (visit_kids _ _ _ _ _) as [kids' st2| |]; try discriminate H.
    change (call_exit ctx (Node "MemberExpression" loc attrs kids') st2)
      with (MemberExpression_exit ctx (Node "MemberExpression" loc attrs kids') st2) in H.
    unfold MemberExpression_exit in H. rewrite P, K in H.
    cbn [String.eqb Ascii.eqb Bool.eqb andb orb] in H.
    injection H as <- _. reflexivity.
Qed.

Lemma visit_kids_child fuel ctx ty ks st ks' st' k c :
  visit_kids fuel ctx ty ks st = KDone ks' st' -> lookup k ks = Some (One c) ->
  exists s c' s',
    lookup k ks' = Some (One c') /\
    visit fuel (child_ctx ctx ty k) c s = Done c' s'.
Proof.
  revert st ks'. induction ks as [|[k0 v] ks IH]; intros st ks' H L; [discriminate L|].
  cbn [lookup] in L. destruct v as [c0|cs].
  - rewrite visit_kids_One in H.
    destruct (visit fuel (child_ctx ctx ty k0) c0 st) as [c1 st1| |] eqn:V; try discriminate H.
    destruct (visit_kids fuel ctx ty ks st1) as [rest' st2| |] eqn:R; try discriminate H.
    injection H as <- <-. cbn [lookup].
    destruct (String.eqb_spec k k0) as [->|N].
    + injection L as <-. eauto.
    + eapply IH; eauto.
  - rewrite visit_kids_Many in H.
    destruct (visit_list fuel (child_ctx ctx ty k0) cs st) as [cs1 st1| |]; try discriminate H.
    destruct (queued_before ctx ty k0 st); [|discriminate H].
    destruct (visit_kids fuel ctx ty ks st1) as [rest' st2| |] eqn:R; try discriminate H.
    injection H as <- <-. cbn [lookup].
    destruct (String.eqb_spec k k0) as [->|N]; [discriminate L|].
    eapply IH; eauto.
Qed.

Section internal.

Variable f : nat.

Hypothesis IHf : forall ctx n st, no_internal (visit f ctx n st).

Lemma visit_list_no_internal ctx cs st :
  Forall (fun c => forall ctx st, no_internal (visit (S f) ctx c st)) cs ->
  match visit_list (S f) ctx cs st with LThrown e => internal e = false | _ => True end.
Proof.
  intros H. revert st. induction H as [|c cs Hc _ IH]; intros st; [exact I|].
  rewrite visit_list_cons. specialize (Hc ctx st).
  destruct (visit (S f) ctx c st) as [c' st1| |]; cbn [no_internal] in Hc; auto.
  specialize (IH st1). destruct (visit_list (S f) ctx cs st1); auto.
Qed.

Lemma visit_kids_no_internal ctx ty ks st :
  Forall (fun kk => P_kid (fun c => forall ctx st, no_internal (visit (S f) ctx c st))
                          (snd kk)) ks ->
  match visit_kids (S f) ctx ty ks st with KThrown e => internal e = false | _ => True end.
Proof.
  intros H. revert st. induction H as [|[k v] ks Hv _ IH]; intros st; [exact I|].
  cbn [snd] in Hv. destruct v as [c|cs]; cbn [P_kid] in Hv.
  - rewrite visit_kids_One. specialize (Hv (child_ctx ctx ty k) st).
    destruct (visit (S f) _ c st) as [c' st1| |]; cbn [no_internal] in Hv; auto.
    specialize (IH st1). destruct (visit_kids (S f) ctx ty ks st1); auto.
  - rewrite visit_kids_Many.
    pose proof (visit_list_no_internal (child_ctx ctx ty k) cs st Hv) as HL.
    destruct (visit_list (S f) _ cs st) as [cs' st1| |]; auto.
    destruct (queued_before ctx ty k st); [|reflexivity].
    specialize (IH st1). destruct (visit_kids (S f) ctx ty ks st1); auto.
Qed.

Lemma visit_no_internal_step n : forall ctx st, no_internal (visit (S f) ctx n st).
Proof.
  induction n as [ty loc attrs kids IH] using node_induction.
  intros ctx st. rewrite visit_unfold.
  pose proof (call_enter_not_internal ctx (Node ty loc attrs kids) st) as E.
  destruct (call_enter ctx (Node ty loc attrs kids) st) as [attrs' st1|st1|n' st1|e] eqn:En;
    [|exact I|apply IHf|exact E].
  unfold after_enter. cbn [pred].
  set (st1' := if owns_block ty then set_pending [] st1 else st1).
  pose proof (visit_kids_no_internal ctx ty kids st1' IH) as K.
  destruct (visit_kids (S f) ctx ty kids st1') as [kids' st2| |] eqn:VK; auto.
  set (n2 := if owns_block ty then _ else _).
  set (st2' := if owns_block ty then _ else _).
  assert (A : type_of n2 = "AssignmentExpression" ->
              attr_s "operator" n2 = "=" /\
              has_type "Identifier" (child "left" n2) ||
              has_type "MemberExpression" (child "left" n2) = true).
  { intros T.
    assert (ty = "AssignmentExpression") as ->.
    { subst n2. rewrite <- T. destruct (owns_block ty); [|reflexivity].
      rewrite type_of_append_body. reflexivity. }
    subst n2. cbn [owns_block includes existsb String.eqb Ascii.eqb Bool.eqb orb].
    change (call_enter ctx (Node "AssignmentExpression" loc attrs kids) st)
      with (AssignmentExpression_enter ctx (Node "AssignmentExpression" loc attrs kids) st)
      in En.
    apply AssignmentExpression_enter_continues in En as (-> & Op & L).
    split; [exact Op|].
    unfold child in *. cbn [kids_of] in *.
    destruct (lookup "left" kids) as [[c|]|] eqn:LK; try discriminate L.
    destruct (visit_kids_child _ _ _ _ _ _ _ _ _ VK LK) as (s & c' & s' & LK' & V).
    rewrite LK'. cbn [has_type] in *.
    assert (T' : type_of c' = type_of c).
    { apply (visit_target_type _ _ _ _ _ _ V).
      destruct (String.eqb_spec (type_of c) "Identifier") as [TI|_]; [left; exact TI|].
      right. cbn [orb] in L. apply String.eqb_eq in L. auto. }
    rewrite T'. exact L. }
  pose proof (call_exit_not_internal ctx n2 st2' A) as X.
  destruct (call_exit ctx n2 st2') as [n3 st3|n3 st3|n3 st3|e]; auto.
Qed.

End internal.

Lemma visit_no_internal fuel ctx n st : no_internal (visit fuel ctx n st).
Proof.
  revert ctx n st. induction fuel as [|f IH]; intros ctx n st; [exact I|].
  apply (visit_no_internal_step f IH).
Qed.

(** X14.  No tree makes the pass throw one of the errors by which its
    handlers report a failure of their own earlier work: [unassign] is
    only asked for the operators it knows, and the [exit] handler of an
    assignment only sees the operator [=] with an identifier or a member
    expression as target.  So no compilation ends in one of these three
    errors. *)
Theorem X14_internal_errors_unreachable fuel ctx n st o program :
  visit fuel ctx n st <> Thrown (ThrownError "should not happen") /\
  visit fuel ctx n st <> Thrown (ThrownError "desugaring error") /\
  visit fuel ctx n st <> Thrown (ThrownError "syntactic check error") /\
  compile fuel o program <> Crash (ThrownError "should not happen") /\
  compile fuel o program <> Crash (ThrownError "desugaring error") /\
  compile fuel o program <> Crash (ThrownError "syntactic check error").
Proof.
  pose proof (visit_no_internal fuel ctx n st) as V.
  pose proof (visit_no_internal fuel root program (start o program)) as C.
  unfold compile.
  destruct (visit fuel ctx n st) as [? ?|e|]; destruct (visit fuel root program _) as [? ?|e'|];
    cbn [no_internal] in *;
    repeat split; try discriminate;
    try (intros [= ->]; discriminate V);
    try (destruct e'; try discriminate; intros [= ->]; discriminate C).
Qed.

(** *** Rejected constructs *)

Lemma with_error_records n msg st k :
  (forall st', k st' = ESkip st' \/ exists a, k st' = EContinue a st') ->
  records_one st (with_error n msg st k).
Proof.
  intros K. destruct (with_error_cases n msg st k) as [(st' & _ & -> & E & _)|(e & -> & _)];
    [|exact I].
  destruct (K st') as [->|[a ->]]; cbn; eauto.
Qed.

Ltac records :=
  apply with_error_records; intros; try (left; reflexivity); right; eexists; reflexivity.

Lemma rejected_enter ctx n st :
  rejected n = true -> records_one st (call_enter ctx n st).
Proof.
  unfold rejected, call_enter, includes. cbn [existsb].
  repeat match goal with
  | |- context [String.eqb (type_of n) ?s] =>
      let T := fresh "T" in
      destruct (String.eqb (type_of n) s) eqn:T;
      [apply String.eqb_eq in T; rewrite T;
       cbn [String.eqb Ascii.eqb Bool.eqb orb andb negb]|]
  end; cbn [orb andb negb];
  unfold banned, VariableDeclarator, CallExpression, AssignmentExpression_enter,
    BinaryExpression_enter, UnaryExpression, UpdateExpression_enter, loop_handler,
    VariableDeclaration, includes;
  repeat match goal with
  | |- false = true -> _ => discriminate
  | |- _ -> records_one _ (with_error _ _ _ _) => intros _; records
  | |- _ -> records_one _ (EThrow _) => intros _; exact I
  | |- _ -> records_one _ (match child ?k ?x with _ => _ end) =>
      destruct (child k x); cbn [has_type orb andb negb]
  | |- _ -> records_one _ (match attr_b ?k ?x with _ => _ end) =>
      destruct (attr_b k x) as [[|]|]
  | |- _ -> records_one _ (if ?c then _ else _) => destruct c; cbn [negb andb orb]
  end; cbn [orb]; discriminate.
Qed.

Lemma call_enter_replaces ctx n st n' st1 :
  call_enter ctx n st = EReplace n' st1 ->
  type_of n = "AssignmentExpression" /\
  AssignmentExpression_enter ctx n st = EReplace n' st1.
Proof.
  unfold call_enter.
  repeat match goal with
  | |- context [if String.eqb (type_of n) ?s then _ else _] =>
      destruct (String.eqb_spec (type_of n) s) as [T|_]
  end; auto;
  unfold Program_enter, VariableDeclarator, CallExpression, BinaryExpression_enter,
    UnaryExpression, NewExpression_enter, UpdateExpression_enter, loop_handler,
    VariableDeclaration, banned, with_error;
  repeat match goal with
  | |- (match ?x with _ => _ end) = _ -> _ => destruct x
  | |- (if ?x then _ else _) = _ -> _ => destruct x
  end; discriminate.
Qed.

Lemma two_fields_shape k1 k2 n :
  two_fields k1 k2 n = true ->
  exists a b, kids_of n = [(k1, One a); (k2, One b)].
Proof.
  unfold two_fields. destruct (kids_of n) as [|[x [a|]] [|[y [b|]] [|]]]; try discriminate.
  intros H. apply andb_prop in H as [H1 H2].
  apply String.eqb_eq in H1, H2. subst. eauto.
Qed.

(** What [enter] puts in the place of a compound assignment is made of
    the parts of the assignment and of accepted nodes. *)
Lemma enter_replaced ctx n st n' st1 :
  call_enter ctx n st = EReplace n' st1 ->
  all_nodes assignment_fields n = true ->
  all_nodes assignment_fields n' = true /\
  (all_nodes accepted n' = true -> all_nodes accepted n = true).
Proof.
  intros H W. apply call_enter_replaces in H as [T H].
  destruct n as [ty loc attrs kids]. cbn [type_of] in T. subst ty.
  rewrite all_nodes_unfold in W. apply andb_prop in W as [Wh Wk].
  unfold assignment_fields in Wh. cbn [type_of String.eqb Ascii.eqb Bool.eqb] in Wh.
  apply andb_prop in Wh as [F Wl].
  destruct (two_fields_shape _ _ _ F) as (lhs & rhs & K). cbn [kids_of] in K. subst kids.
  change (child "left" (Node "AssignmentExpression" loc attrs
            [("left", One lhs); ("right", One rhs)])) with (Some lhs) in *.
  cbn [all_kids all_kid] in Wk.
  apply andb_prop in Wk as [Wlhs Wk]. apply andb_prop in Wk as [Wrhs _].
  unfold AssignmentExpression_enter in H.
  change (child "left" (Node "AssignmentExpression" loc attrs
            [("left", One lhs); ("right", One rhs)])) with (Some lhs) in H.
  change (required "right" (Node "AssignmentExpression" loc attrs
            [("left", One lhs); ("right", One rhs)])) with (@inl node thrown rhs) in H.
  assert (Hd : has_type "Identifier" (Some lhs) || has_type "MemberExpression" (Some lhs) = true ->
               includes (attr_s "operator" (Node "AssignmentExpression" loc attrs
                           [("left", One lhs); ("right", One rhs)])) allowed = true ->
               accepted (Node "AssignmentExpression" loc attrs
                           [("left", One lhs); ("right", One rhs)]) = true).
  { intros HL HA. unfold accepted, rejected.
    cbn [type_of includes existsb String.eqb Ascii.eqb Bool.eqb orb andb negb].
    change (child "left" _) with (Some lhs).
    rewrite HA.
    destruct (has_type "Identifier" (Some lhs)); [reflexivity|].
    cbn [orb] in HL. rewrite HL. reflexivity. }
  set (n := Node "AssignmentExpression" loc attrs [("left", One lhs); ("right", One rhs)]) in *.
  destruct (includes (attr_s "operator" n) allowed) eqn:A; cbn [negb] in H.
  2:{ unfold with_error in H. destruct (error _ _ _); discriminate H. }
  cbn [has_type] in H.
  destruct (String.eqb (type_of lhs) "Identifier") eqn:TI;
    destruct (String.eqb (type_of lhs) "MemberExpression") eqn:TM; cbn [negb andb] in H;
    try (unfold with_error in H; destruct (error _ _ _); discriminate H);
    (destruct (String.eqb (attr_s "operator" n) "=") eqn:Op; [discriminate H|]);
    destruct (unassign_allowed _ A Op) as (bop & U & _ & B); rewrite U in H.
  - (* both tests hold: impossible *)
    apply String.eqb_eq in TI, TM. congruence.
  - (* the target is an identifier *)
    injection H as <- <-.
    assert (Hd' : accepted n = true).
    { apply Hd; [cbn [has_type]; rewrite TI; reflexivity|reflexivity]. }
    clear Hd. rename Hd' into Hd.
    split.
    + unfold assignmentExpression, binaryExpression.
      repeat (rewrite all_nodes_unfold; cbn [all_kids all_kid all_list]).
      rewrite Wlhs, Wrhs. unfold assignment_fields at 1 2.
      cbn [type_of String.eqb Ascii.eqb Bool.eqb two_fields kids_of andb].
      change (child "left" _) with (Some lhs). cbv beta iota. rewrite TM. reflexivity.
    + unfold assignmentExpression, binaryExpression.
      repeat (rewrite all_nodes_unfold; cbn [all_kids all_kid all_list]). intros H.
      apply andb_prop in H as [_ H]. apply andb_prop in H as [Hl H].
      apply andb_prop in H as [H _]. apply andb_prop in H as [_ H].
      apply andb_prop in H as [_ H]. apply andb_prop in H as [Hr _].
      unfold n at 1. rewrite all_nodes_unfold. fold n. rewrite Hd.
      cbn [all_kids all_kid andb]. rewrite Hl, Hr. reflexivity.
  - (* the target is a member expression *)
    cbv beta iota in Wl. rewrite TM in Wl. destruct (two_fields_shape _ _ _ Wl) as (object & property & KL).
    destruct lhs as [lty lloc lattrs lkids]. cbn [kids_of type_of] in *. subst lkids.
    cbn [generateUidIdentifier] in H.
    destruct (enclosingScopeBlock_push _ _ _) as [st2|e]; [|discriminate H].
    change (required "object" (Node lty lloc lattrs [("object", One object);
              ("property", One property)])) with (@inl node thrown object) in H.
    change (required "property" (Node lty lloc lattrs [("object", One object);
              ("property", One property)])) with (@inl node thrown property) in H.
    injection H as <- <-.
    rewrite all_nodes_unfold in Wlhs. cbn [all_kids all_kid] in Wlhs.
    apply andb_prop in Wlhs as [_ Wlhs]. apply andb_prop in Wlhs as [Wo Wp].
    apply andb_prop in Wp as [Wp _].
    apply String.eqb_eq in TM. subst lty.
    assert (Hd' : accepted n = true).
    { apply Hd; [reflexivity|reflexivity]. }
    clear Hd. rename Hd' into Hd.
    split.
    + unfold sequenceExpression, assignmentExpression, binaryExpression, memberExpression,
        identifier.
      repeat (rewrite all_nodes_unfold; cbn [all_kids all_kid all_list]).
      rewrite Wo, Wp, Wrhs. reflexivity.
    + unfold sequenceExpression, assignmentExpression, binaryExpression, memberExpression,
        identifier.
      repeat (rewrite all_nodes_unfold; cbn [all_kids all_kid all_list]).
      intros H.
      repeat match type of H with
      | _ && _ = true => let H1 := fresh "H" in apply andb_prop in H as [H1 H]
      end.
      repeat match goal with
      | X : _ && _ = true |- _ =>
          let H1 := fresh "H" in let H2 := fresh "H" in apply andb_prop in X as [H1 H2]
      end.
      unfold n at 1. rewrite all_nodes_unfold. fold n. rewrite Hd.
      cbn [all_kids all_kid andb]. rewrite all_nodes_unfold. cbn [all_kids all_kid].
      assert (Ho : all_nodes accepted object = true) by assumption.
      assert (Hp : all_nodes accepted property = true) by assumption.
      assert (Hr : all_nodes accepted rhs = true) by assumption.
      rewrite Ho, Hp, Hr. reflexivity.
Qed.

Lemma grows_length st st' (Q : Prop) :
  grows st st' Q -> List.length (errors st) <= List.length (errors st').
Proof. intros (e & -> & _). rewrite length_app. lia. Qed.

Lemma visit_grows fuel ctx n st n' st' :
  program_free n = true -> visit fuel ctx n st = Done n' st' ->
  program_free n' = true /\ List.length (errors st) <= List.length (errors st').
Proof.
  intros P H. pose proof (visit_sound fuel ctx n st P) as S. rewrite H in S.
  destruct S as [P' G]. split; [exact P'|]. eapply grows_length; eauto.
Qed.

Lemma visit_list_grows fuel ctx cs st cs' st' :
  all_list program_free cs = true -> visit_list fuel ctx cs st = LDone cs' st' ->
  all_list program_free cs' = true /\
  List.length (errors st) <= List.length (errors st').
Proof.
  intros P H.
  assert (F : Forall (visit_sound_at fuel) cs).
  { apply Forall_forall. intros c _ ctx' st0. apply visit_sound. }
  pose proof (visit_list_sound fuel ctx cs st F P) as S. rewrite H in S.
  destruct S as [P' G]. split; [exact P'|]. eapply grows_length; eauto.
Qed.

Lemma visit_kids_grows fuel ctx ty ks st ks' st' :
  all_kids program_free ks = true -> visit_kids fuel ctx ty ks st = KDone ks' st' ->
  all_kids program_free ks' = true /\
  List.length (errors st) <= List.length (errors st').
Proof.
  intros P H.
  assert (F : Forall (fun kk => P_kid (visit_sound_at fuel) (snd kk)) ks).
  { apply Forall_P_kid. intros c ctx' st0. apply visit_sound. }
  pose proof (visit_kids_sound fuel ctx ty ks st F P) as S. rewrite H in S.
  destruct S as [P' G]. split; [exact P'|]. eapply grows_length; eauto.
Qed.

(** The [exit] handler of a node other than the program records
    nothing, and what it queues again has no program inside. *)
Lemma exit_grows ctx ty loc attrs' kids' (st1 st2 : St) :
  String.eqb ty "Program" = false ->
  all_kids program_free kids' = true ->
  match call_exit ctx
          (if owns_block ty
           then append_body (pending st2) (Node ty loc attrs' kids')
           else Node ty loc attrs' kids')
          (if owns_block ty then set_pending (pending st1) st2 else st2) with
  | XThrow _ => True
  | XKeep n3 st3 | XReplaceSkip n3 st3 => errors st3 = errors st2
  | XReplace n3 st3 => errors st3 = errors st2 /\ program_free n3 = true
  end.
Proof.
  intros NP PK.
  set (n2 := if owns_block ty then _ else _).
  set (st2' := if owns_block ty then _ else _).
  assert (E : errors st2' = errors st2) by (subst st2'; destruct (owns_block ty); reflexivity).
  assert (P0 : program_free (Node ty loc attrs' kids') = true).
  { rewrite program_free_unfold, NP, PK. reflexivity. }
  assert (P2 : program_free n2 = true).
  { subst n2. destruct (owns_block ty); [|exact P0].
    apply all_append_body; [exact not_program_local|exact not_program_other|exact P0]. }
  assert (T2 : String.eqb (type_of n2) "Program" = false).
  { subst n2. destruct (owns_block ty); [rewrite type_of_append_body|]; exact NP. }
  pose proof (call_exit_closed not_program not_program_other ctx n2 st2' T2
                (all_kids_of _ _ P2)) as X.
  destruct (call_exit ctx n2 st2') as [n3 st3|n3 st3|n3 st3|e]; auto.
  - destruct X as (_ & -> & _). exact E.
  - destruct X as (_ & ->). exact E.
  - destruct X as (P3 & ->). auto.
Qed.

Section rejection.

Variable f : nat.

Hypothesis IHf : forall n, strict_at f n.

Lemma visit_list_rejects ctx cs st :
  Forall (strict_at (S f)) cs ->
  all_list program_free cs = true ->
  all_list (all_nodes assignment_fields) cs = true ->
  all_list (all_nodes accepted) cs = false ->
  match visit_list (S f) ctx cs st with
  | LDone _ st' => List.length (errors st) < List.length (errors st')
  | _ => True
  end.
Proof.
  intros H. revert st. induction H as [|c cs Hc _ IH]; intros st P W D; [discriminate D|].
  cbn [all_list] in P, W, D.
  apply andb_prop in P as [Pc Pcs]. apply andb_prop in W as [Wc Wcs].
  rewrite visit_list_cons.
  destruct (visit (S f) ctx c st) as [c' st1| |] eqn:V; auto.
  destruct (visit_grows _ _ _ _ _ _ Pc V) as [_ G1].
  destruct (visit_list (S f) ctx cs st1) as [cs' st2| |] eqn:VL; auto.
  destruct (visit_list_grows _ _ _ _ _ _ Pcs VL) as [_ G2].
  apply andb_false_iff in D as [D|D].
  - specialize (Hc ctx st Pc Wc D). rewrite V in Hc. cbn [more_errors] in Hc. lia.
  - specialize (IH st1 Pcs Wcs D). rewrite VL in IH. lia.
Qed.

Lemma visit_kids_rejects ctx ty ks st :
  Forall (fun kk => P_kid (strict_at (S f)) (snd kk)) ks ->
  all_kids program_free ks = true ->
  all_kids (all_nodes assignment_fields) ks = true ->
  all_kids (all_nodes accepted) ks = false ->
  match visit_kids (S f) ctx ty ks st with
  | KDone _ st' => List.length (errors st) < List.length (errors st')
  | _ => True
  end.
Proof.
  intros H. revert st. induction H as [|[k v] ks Hv _ IH]; intros st P W D; [discriminate D|].
  cbn [snd] in Hv. destruct v as [c|cs]; cbn [P_kid] in Hv; cbn [all_kids] in P, W, D;
    apply andb_prop in P as [Pc Pks]; apply andb_prop in W as [Wc Wks].
  - rewrite visit_kids_One.
    destruct (visit (S f) (child_ctx ctx ty k) c st) as [c' st1| |] eqn:V; auto.
    destruct (visit_grows _ _ _ _ _ _ Pc V) as [_ G1].
    destruct (visit_kids (S f) ctx ty ks st1) as [ks' st2| |] eqn:VK; auto.
    destruct (visit_kids_grows _ _ _ _ _ _ _ Pks VK) as [_ G2].
    apply andb_false_iff in D as [D|D].
    + specialize (Hv (child_ctx ctx ty k) st Pc Wc D). rewrite V in Hv.
      cbn [more_errors] in Hv. lia.
    + specialize (IH st1 Pks Wks D). rewrite VK in IH. lia.
  - rewrite visit_kids_Many.
    pose proof (visit_list_rejects (child_ctx ctx ty k) cs st Hv Pc Wc) as HL.
    destruct (visit_list (S f) (child_ctx ctx ty k) cs st) as [cs' st1| |] eqn:VL; auto.
    destruct (visit_list_grows _ _ _ _ _ _ Pc VL) as [_ G1].
    destruct (queued_before ctx ty k st); [|exact I].
    destruct (visit_kids (S f) ctx ty ks st1) as [ks' st2| |] eqn:VK; auto.
    destruct (visit_kids_grows _ _ _ _ _ _ _ Pks VK) as [_ G2].
    apply andb_false_iff in D as [D|D].
    + specialize (HL D). lia.
    + specialize (IH st1 Pks Wks D). rewrite VK in IH. lia.
Qed.

Lemma visit_rejects_step n : strict_at (S f) n.
Proof.
  induction n as [ty loc attrs kids IH] using node_induction.
  intros ctx st P W D.
  pose proof P as P0. rewrite program_free_unfold in P.
  apply andb_prop in P as [NP PK]. apply negb_true_iff in NP.
  pose proof W as W0.
  rewrite all_nodes_unfold in W, D. apply andb_prop in W as [_ WK].
  rewrite visit_unfold.
  pose proof (call_enter_post ctx (Node ty loc attrs kids) st NP) as E.
  destruct (call_enter ctx (Node ty loc attrs kids) st) as [attrs' st1|st1|n' st1|e] eqn:En;
    cbn [enter_post] in E.
  - destruct E as (extra1 & E1 & _).
    unfold after_enter. cbn [pred].
    set (st1' := if owns_block ty then set_pending [] st1 else st1).
    assert (Est1 : errors st1' = errors st1)
      by (subst st1'; destruct (owns_block ty); reflexivity).
    pose proof (visit_kids_rejects ctx ty kids st1' IH PK WK) as KR.
    destruct (visit_kids (S f) ctx ty kids st1') as [kids' st2| |] eqn:VK;
      cbn [more_errors]; auto.
    destruct (visit_kids_grows _ _ _ _ _ _ _ PK VK) as [PK' G2].
    assert (S2 : List.length (errors st) < List.length (errors st2)).
    { apply andb_false_iff in D as [D|D].
      - pose proof (rejected_enter ctx (Node ty loc attrs kids) st) as R.
        unfold accepted in D. apply negb_false_iff in D. specialize (R D).
        rewrite En in R. destruct R as (e & R).
        rewrite Est1, R, length_app in G2. cbn in G2. lia.
      - specialize (KR D). rewrite Est1, E1, length_app in KR. lia. }
    pose proof (exit_grows ctx ty loc attrs' kids' st1 st2 NP PK') as X.
    destruct (call_exit ctx _ _) as [n3 st3|n3 st3|n3 st3|e]; cbn [more_errors]; auto.
    + rewrite X. exact S2.
    + rewrite X. exact S2.
    + destruct X as [X P3].
      destruct (visit f ctx n3 st3) as [n4 st4| |] eqn:V; cbn [more_errors]; auto.
      destruct (visit_grows _ _ _ _ _ _ P3 V) as [_ G]. rewrite X in G. lia.
  - destruct E as (e & E). cbn [more_errors]. rewrite E, length_app. cbn. lia.
  - destruct E as (E & P').
    destruct (enter_replaced _ _ _ _ _ En W0) as [W' D'].
    specialize (IHf n' ctx st1 (P' P0) W').
    assert (Dn : all_nodes accepted n' = false).
    { destruct (all_nodes accepted n') eqn:A; [|reflexivity].
      specialize (D' eq_refl). rewrite all_nodes_unfold in D'. congruence. }
    specialize (IHf Dn).
    destruct (visit f ctx n' st1); cbn [more_errors] in *; auto. rewrite <- E. exact IHf.
  - exact I.
Qed.

End rejection.

Lemma visit_rejects fuel n : strict_at fuel n.
Proof.
  revert n. induction fuel as [|f IH]; intros n; [intros ctx st _ _ _; exact I|].
  apply visit_rejects_step. exact IH.
Qed.

(** X15.  A program that contains a rejected construct anywhere never
    compiles: a [throw], [with], [switch], labeled, [for-of] or [for-in]
    statement, a declaration that is not [let] or [const], a declarator
    without an identifier or without an initial value, a call of [Array],
    an assignment or binary expression with an operator that is not
    allowed or an assignment to a pattern, [delete] or [typeof], a
    postfix update, a loop whose body is not a block.  For a program whose
    assignments have the fields that the parser gives them, the pass ends
    with a non-empty list of diagnostics or with another exception. *)
Theorem X15_rejected_constructs_never_compile fuel o loc attrs kids :
  all_kids program_free kids = true ->
  all_kids (all_nodes assignment_fields) kids = true ->
  all_kids (all_nodes accepted) kids = false ->
  rank (Node "Program" loc attrs kids) < fuel ->
  (exists errs, errs <> [] /\
     compile fuel o (Node "Program" loc attrs kids) = CompileError errs) \/
  (exists e, (forall errs, e <> ThrownState errs) /\
     compile fuel o (Node "Program" loc attrs kids) = Crash e).
Proof.
  intros P W D R.
  pose proof (compile_error_iff fuel o loc attrs kids P R) as C.
  destruct fuel as [|f]; [lia|].
  pose proof (visit_kids_rejects f root "Program" kids
                (entered o (Node "Program" loc attrs kids))
                (Forall_P_kid _ _ (visit_rejects (S f))) P W D) as K.
  unfold traverse_program in C. cbn [kids_of] in C.
  destruct (visit_kids (S f) root "Program" kids _) as [kids' st|e|]; [| |contradiction].
  - left. cbn [entered errors set_pending set_errors List.length] in K.
    destruct C as [[N C]|[E _]].
    + eauto.
    + rewrite E in K. cbn in K. lia.
  - right. eauto.
Qed.

(** X15 at [throw 1;]. *)
Lemma X15_rejected_constructs_never_compile_witness :
  compile 5 standalone
    (program [Node "ThrowStatement" (Some 1) [] [("argument", One (numericLiteral 1 1))]]) =
  CompileError [{| line := 1; message := "Do not use the 'throw' operator." |}].
Proof.
  destruct (X15_rejected_constructs_never_compile 5 standalone (Some 1) []
              [("body", Many [Node "ThrowStatement" (Some 1) []
                                [("argument", One (numericLiteral 1 1))]])]
              eq_refl eq_refl eq_refl ltac:(vm_compute; lia))
    as [(errs & _ & C)|(e & _ & C)]; reflexivity.
Defined.

(** *** Compound assignments to identifiers *)

(** X16.  A compound assignment [x op= rhs] to an identifier is replaced
    at [enter] by [x = x op rhs], the state staying as it is; the
    operator [op] of the binary expression is the assignment operator
    without its [=], and it is one of those that the [exit] handler of
    binary expressions hands to the runtime, so that the expression
    becomes a call of [applyNumOrStringOp] for [+] and of [applyNumOp]
    for the other four. *)
Theorem X16_compound_identifier_desugared ctx st loc op lhs rhs :
  In op compound_operators -> type_of lhs = "Identifier" ->
  exists bop,
    bop ++ "=" = op /\
    AssignmentExpression_enter ctx (assignment loc op lhs rhs) st =
      EReplace (assignmentExpression "=" lhs (binaryExpression bop lhs rhs)) st /\
    forall l r st2,
      BinaryExpression_exit (binaryExpression bop l r) st2 =
        XReplaceSkip
          (dynCheck (if String.eqb bop "+" then "applyNumOrStringOp" else "applyNumOp")
                    [stringLiteral bop; l; r]) st2.
Proof.
  intros Hop T.
  assert (E : AssignmentExpression_enter ctx (assignment loc op lhs rhs) st =
              if negb (includes op allowed) then
                with_error (assignment loc op lhs rhs)
                           ("Do not use the '" ++ op ++ "' operator.") st ESkip
              else if String.eqb op "=" then EContinue [("operator", AString op)] st
              else match unassign op with
                   | inl bop => EReplace (assignmentExpression "=" lhs
                                            (binaryExpression bop lhs rhs)) st
                   | inr e => EThrow e
                   end).
  { unfold AssignmentExpression_enter, assignment.
    change (attr_s "operator" (Node "AssignmentExpression" loc [("operator", AString op)] _))
      with op.
    change (child "left" (Node "AssignmentExpression" loc [("operator", AString op)]
              [("left", One lhs); ("right", One rhs)])) with (Some lhs).
    change (required "right" (Node "AssignmentExpression" loc [("operator", AString op)]
              [("left", One lhs); ("right", One rhs)])) with (@inl node thrown rhs).
    cbn [has_type]. rewrite T. reflexivity. }
  rewrite E. cbn in Hop.
  destruct Hop as [<-|[<-|[<-|[<-|[<-|[]]]]]];
    [exists "+"|exists "-"|exists "*"|exists "/"|exists "%"];
    (split; [reflexivity|split; [reflexivity|intros; reflexivity]]).
Qed.

(** X16 at [x += 1]. *)
Lemma X16_compound_identifier_desugared_witness :
  exists bop,
    bop ++ "=" = "+=" /\
    AssignmentExpression_enter root
      (assignment (Some 1) "+=" (located 1 (identifier "x")) (numericLiteral 1 1))
      (start standalone (identifier "x")) =
    EReplace
      (assignmentExpression "=" (located 1 (identifier "x"))
         (binaryExpression bop (located 1 (identifier "x")) (numericLiteral 1 1)))
      (start standalone (identifier "x")).
Proof.
  destruct (X16_compound_identifier_desugared root (start standalone (identifier "x"))
              (Some 1) "+=" (located 1 (identifier "x")) (numericLiteral 1 1))
    as (bop & B & E & _).
  - cbn. auto.
  - reflexivity.
  - exists bop. split; [exact B|exact E].
Defined.

(** *** Counting the diagnostics *)

Lemma visit_list_counts fuel ctx cs st :
  all_list program_free cs = true ->
  all_list (all_nodes assignment_fields) cs = true ->
  match visit_list fuel ctx cs st with
  | LDone _ st' =>
      List.length (errors st) + count_rejected cs <= List.length (errors st')
  | _ => True
  end.
Proof.
  revert st. induction cs as [|c cs IH]; intros st P W.
  - cbn. lia.
  - cbn [all_list] in P, W.
    apply andb_prop in P as [Pc Pcs]. apply andb_prop in W as [Wc Wcs].
    rewrite visit_list_cons.
    destruct (visit fuel ctx c st) as [c' st1| |] eqn:V; auto.
    destruct (visit_grows _ _ _ _ _ _ Pc V) as [_ G1].
    specialize (IH st1 Pcs Wcs).
    destruct (visit_list fuel ctx cs st1) as [cs' st2| |] eqn:VL; auto.
    unfold count_rejected in *. cbn [filter].
    destruct (all_nodes accepted c) eqn:A; cbn [negb List.length]; [lia|].
    pose proof (visit_rejects fuel c ctx st Pc Wc A) as R. rewrite V in R.
    cbn [more_errors] in R. lia.
Qed.

(** X18.  The pass does not stop at the first diagnostic: when it ends
    with diagnostics, there is at least one for every statement of the
    program that contains a rejected construct, and it returns a tree
    only when no statement contains one. *)
Theorem X18_diagnostics_accumulate fuel o loc attrs body :
  all_list program_free body = true ->
  all_list (all_nodes assignment_fields) body = true ->
  rank (Node "Program" loc attrs [("body", Many body)]) < fuel ->
  match compile fuel o (Node "Program" loc attrs [("body", Many body)]) with
  | CompileOk _ => count_rejected body = 0
  | CompileError errs => count_rejected body <= List.length errs
  | Crash e => forall errs, e <> ThrownState errs
  | Diverges => False
  end.
Proof.
  intros P W R.
  assert (PK : all_kids program_free [("body", Many body)] = true)
    by (cbn [all_kids]; rewrite P; reflexivity).
  pose proof (compile_error_iff fuel o loc attrs _ PK R) as C.
  unfold traverse_program in C. cbn [kids_of] in C.
  rewrite visit_kids_Many in C.
  pose proof (visit_list_counts fuel (child_ctx root "Program" "body") body
                (entered o (Node "Program" loc attrs [("body", Many body)])) P W) as K.
  destruct (visit_list fuel _ body _) as [cs' st'| |].
  - change (queued_before root "Program" "body"
              (entered o (Node "Program" loc attrs [("body", Many body)])))
      with (@nil string) in C.
    cbn [entered errors set_pending set_errors List.length] in K.
    destruct fuel as [|f]; [lia|]. cbn [visit_kids] in C.
    destruct C as [[N C]|[E [p' C]]]; rewrite C.
    + lia.
    + rewrite E in K. cbn in K. lia.
  - destruct C as [N ->]. exact N.
  - contradiction.
Qed.

(** X18 at [x++; a === b;]. *)
Lemma X18_diagnostics_accumulate_witness :
  exists errs, compile 5 standalone two_diagnostics = CompileError errs /\
               2 <= List.length errs.
Proof.
  pose proof (X18_diagnostics_accumulate 5 standalone (Some 1) []
                (children "body" two_diagnostics) eq_refl eq_refl
                ltac:(vm_compute; lia)) as H.
  change (Node "Program" (Some 1) [] [("body", Many (children "body" two_diagnostics))])
    with two_diagnostics in H.
  destruct (compile 5 standalone two_diagnostics) as [p|errs|e|] eqn:C;
    try discriminate C.
  exists errs. split; [reflexivity|exact H].
Defined.

(** *** Instrumented trees *)

Lemma grows_extends st st' (Q : Prop) :
  grows st st' Q -> exists extra, errors st' = (errors st ++ extra)%list.
Proof. intros (e & E & _). eauto. Qed.

Lemma visit_extends fuel ctx n st n' st' :
  program_free n = true -> visit fuel ctx n st = Done n' st' ->
  exists extra, errors st' = (errors st ++ extra)%list.
Proof.
  intros P H. pose proof (visit_sound fuel ctx n st P) as S. rewrite H in S.
  destruct S as [_ G]. eapply grows_extends; eauto.
Qed.

Lemma visit_list_extends fuel ctx cs st cs' st' :
  all_list program_free cs = true -> visit_list fuel ctx cs st = LDone cs' st' ->
  exists extra, errors st' = (errors st ++ extra)%list.
Proof.
  intros P H.
  assert (F : Forall (visit_sound_at fuel) cs).
  { apply Forall_forall. intros c _ ctx' st0. apply visit_sound. }
  pose proof (visit_list_sound fuel ctx cs st F P) as S. rewrite H in S.
  destruct S as [_ G]. eapply grows_extends; eauto.
Qed.

Lemma visit_kids_extends fuel ctx ty ks st ks' st' :
  all_kids program_free ks = true -> visit_kids fuel ctx ty ks st = KDone ks' st' ->
  exists extra, errors st' = (errors st ++ extra)%list.
Proof.
  intros P H.
  assert (F : Forall (fun kk => P_kid (visit_sound_at fuel) (snd kk)) ks).
  { apply Forall_P_kid. intros c ctx' st0. apply visit_sound. }
  pose proof (visit_kids_sound fuel ctx ty ks st F P) as S. rewrite H in S.
  destruct S as [_ G]. eapply grows_extends; eauto.
Qed.

(** Two steps that leave the diagnostics as they were at the start have
    each left them as they were. *)
Lemma squeeze {A} (l0 l1 l2 a b : list A) :
  l1 = (l0 ++ a)%list -> l2 = (l1 ++ b)%list -> l2 = l0 -> l1 = l0 /\ l2 = l1.
Proof.
  intros -> -> E. rewrite <- app_assoc in E.
  rewrite <- (app_nil_r l0) in E at 2. apply app_inv_head in E.
  apply app_eq_nil in E as [-> ->]. rewrite !app_nil_r. auto.
Qed.

Lemma visit_kids_same_fields fuel ctx ty ks st ks' st' :
  visit_kids fuel ctx ty ks st = KDone ks' st' -> same_fields ks ks'.
Proof.
  revert st ks' st'. induction ks as [|[k v] ks IH]; intros st ks' st' H.
  - destruct fuel; injection H as <- _; constructor.
  - destruct v as [c|cs].
    + rewrite visit_kids_One in H.
      destruct (visit fuel _ c st) as [c' st1| |]; try discriminate H.
      destruct (visit_kids fuel ctx ty ks st1) as [rest' st2| |] eqn:R; try discriminate H.
      injection H as <- _. constructor; [split; reflexivity|eapply IH; eauto].
    + rewrite visit_kids_Many in H.
      destruct (visit_list fuel _ cs st) as [cs' st1| |]; try discriminate H.
      destruct (queued_before ctx ty k st); [|discriminate H].
      destruct (visit_kids fuel ctx ty ks st1) as [rest' st2| |] eqn:R; try discriminate H.
      injection H as <- _. constructor; [split; reflexivity|eapply IH; eauto].
Qed.

Lemma visit_list_settles fuel ctx cs st cs' st' :
  Forall (settles fuel) cs ->
  all_list program_free cs = true -> all_list (all_nodes shaped) cs = true ->
  visit_list fuel ctx cs st = LDone cs' st' -> errors st' = errors st ->
  all_list (all_nodes settled) cs' = true /\
  Forall (fun c => is_member c = true -> kept ctx = true) cs'.
Proof.
  intros F. revert st cs' st'. induction F as [|c cs Hc _ IH]; intros st cs' st' P W H E.
  - injection H as <- _. split; [reflexivity|constructor].
  - cbn [all_list] in P, W.
    apply andb_prop in P as [Pc Pcs]. apply andb_prop in W as [Wc Wcs].
    rewrite visit_list_cons in H.
    destruct (visit fuel ctx c st) as [c' st1| |] eqn:V; try discriminate H.
    destruct (visit_list fuel ctx cs st1) as [rest' st2| |] eqn:VL; try discriminate H.
    injection H as <- <-.
    destruct (visit_extends _ _ _ _ _ _ Pc V) as (a & Ea).
    destruct (visit_list_extends _ _ _ _ _ _ Pcs VL) as (b & Eb).
    destruct (squeeze _ _ _ _ _ Ea Eb E) as [E1 E2].
    destruct (Hc ctx st c' st1 Pc Wc V E1) as [S1 M1].
    destruct (IH st1 rest' _ Pcs Wcs VL E2) as [S2 M2].
    cbn [all_list]. rewrite S1, S2. split; [reflexivity|constructor; assumption].
Qed.

Lemma visit_kids_settles fuel ctx ty ks st ks' st' :
  Forall (fun kk => P_kid (settles fuel) (snd kk)) ks ->
  all_kids program_free ks = true -> all_kids (all_nodes shaped) ks = true ->
  visit_kids fuel ctx ty ks st = KDone ks' st' -> errors st' = errors st ->
  all_kids (all_nodes settled) ks' = true /\ members_kept ctx ty ks'.
Proof.
  intros F. revert st ks' st'.
  induction F as [|[k v] ks Hv _ IH]; intros st ks' st' P W H E.
  - destruct fuel; injection H as <- _; (split; [reflexivity|constructor]).
  - cbn [snd] in Hv. destruct v as [c|cs]; cbn [P_kid] in Hv; cbn [all_kids] in P, W;
      apply andb_prop in P as [Pc Pks]; apply andb_prop in W as [Wc Wks].
    + rewrite visit_kids_One in H.
      destruct (visit fuel _ c st) as [c' st1| |] eqn:V; try discriminate H.
      destruct (visit_kids fuel ctx ty ks st1) as [rest' st2| |] eqn:VK; try discriminate H.
      injection H as <- <-.
      destruct (visit_extends _ _ _ _ _ _ Pc V) as (a & Ea).
      destruct (visit_kids_extends _ _ _ _ _ _ _ Pks VK) as (b & Eb).
      destruct (squeeze _ _ _ _ _ Ea Eb E) as [E1 E2].
      destruct (Hv _ st c' st1 Pc Wc V E1) as [S1 M1].
      destruct (IH st1 rest' _ Pks Wks VK E2) as [S2 M2].
      cbn [all_kids]. rewrite S1, S2. split; [reflexivity|constructor; assumption].
    + rewrite visit_kids_Many in H.
      destruct (visit_list fuel _ cs st) as [cs' st1| |] eqn:VL; try discriminate H.
      destruct (queued_before ctx ty k st); [|discriminate H].
      destruct (visit_kids fuel ctx ty ks st1) as [rest' st2| |] eqn:VK; try discriminate H.
      injection H as <- <-.
      destruct (visit_list_extends _ _ _ _ _ _ Pc VL) as (a & Ea).
      destruct (visit_kids_extends _ _ _ _ _ _ _ Pks VK) as (b & Eb).
      destruct (squeeze _ _ _ _ _ Ea Eb E) as [E1 E2].
      destruct (visit_list_settles _ _ _ _ _ _ Hv Pc Wc VL E1) as [S1 M1].
      destruct (IH st1 rest' _ Pks Wks VK E2) as [S2 M2].
      cbn [all_kids]. rewrite S1, S2. split; [reflexivity|constructor; assumption].
Qed.

Lemma all_nodes_weaken (p q : node -> bool) n :
  (forall m, p m = true -> q m = true) ->
  all_nodes p n = true -> all_nodes q n = true.
Proof.
  intros I. induction n as [ty loc attrs kids IH] using node_induction.
  rewrite !all_nodes_unfold. intros H. apply andb_prop in H as [Hd K].
  rewrite (I _ Hd). cbn [andb]. clear Hd.
  induction IH as [|[k v] ks Hv _ IHk]; [reflexivity|].
  cbn [snd] in Hv. destruct v as [c|cs]; cbn [all_kids P_kid] in *;
    apply andb_prop in K as [K1 K2]; rewrite (IHk K2), andb_true_r.
  - apply Hv. exact K1.
  - induction Hv as [|c cs Hc _ IHc]; [reflexivity|]. cbn [all_list] in *.
    apply andb_prop in K1 as [A B]. rewrite (Hc A), (IHc B). reflexivity.
Qed.

Lemma settled_shaped n : all_nodes settled n = true -> all_nodes shaped n = true.
Proof.
  apply all_nodes_weaken. intros m H. unfold settled in H. apply andb_prop in H. tauto.
Qed.

Lemma members_kept_none ctx ty ks :
  members_kept ctx ty ks -> (forall k, kept (child_ctx ctx ty k) = false) ->
  all_kids not_member ks = true.
Proof.
  intros M N. induction M as [|[k v] ks Hv _ IH]; [reflexivity|].
  cbn [snd fst] in Hv. destruct v as [c|cs]; cbn [all_kids]; rewrite IH, andb_true_r.
  - unfold not_member. destruct (is_member c); [|reflexivity].
    rewrite N in Hv. discriminate (Hv eq_refl).
  - induction Hv as [|c cs Hc _ IHc]; [reflexivity|]. cbn [all_list]. rewrite IHc, andb_true_r.
    unfold not_member. destruct (is_member c); [|reflexivity].
    rewrite N in Hc. discriminate (Hc eq_refl).
Qed.

Lemma kept_child ctx ty k :
  kept (child_ctx ctx ty k) =
  String.eqb ty "CallExpression" ||
  String.eqb ty "UpdateExpression" && String.eqb k "argument" ||
  String.eqb ty "AssignmentExpression" && String.eqb k "left".
Proof. reflexivity. Qed.

Lemma settled_dynCheck name args :
  all_list (all_nodes settled) args = true ->
  all_nodes settled (dynCheck name args) = true.
Proof.
  intros A. unfold dynCheck, callExpression, memberExpression, identifier.
  repeat (rewrite all_nodes_unfold; cbn [all_kids all_kid all_list]).
  rewrite A. reflexivity.
Qed.

Lemma settled_stringLiteral s : all_nodes settled (stringLiteral s) = true.
Proof. reflexivity. Qed.

Lemma settled_propertyAsString n q :
  all_nodes settled n = true -> propertyAsString n = inl q -> all_nodes settled q = true.
Proof.
  intros H. unfold propertyAsString, bindT, required.
  destruct (child "property" n) as [r|] eqn:E; [|discriminate].
  pose proof (all_child settled _ _ _ H E).
  destruct (attr_b "computed" n) as [[|]|]; intros [= <-]; auto.
Qed.

Lemma two_fields_members ctx n l r :
  kids_of n = [("left", One l); ("right", One r)] ->
  type_of n = "AssignmentExpression" ->
  members_kept ctx (type_of n) (kids_of n) ->
  is_member l = false -> all_kids not_member (kids_of n) = true.
Proof.
  intros K T M L. rewrite K, T in *.
  inversion M as [|? ? _ M']; subst. inversion M' as [|? ? Hr _]; subst.
  cbn [snd fst] in Hr. cbn [all_kids]. unfold not_member. rewrite L. cbn [negb andb].
  destruct (is_member r); [|reflexivity]. discriminate (Hr eq_refl).
Qed.

(** What the [exit] handler returns or puts in the place of a node whose
    children are instrumented. *)
Lemma exit_settles ctx n st :
  String.eqb (type_of n) "Program" = false ->
  all_kids (all_nodes settled) (kids_of n) = true ->
  members_kept ctx (type_of n) (kids_of n) ->
  shaped n = true ->
  (type_of n = "AssignmentExpression" -> attr_s "operator" n = "=") ->
  match call_exit ctx n st with
  | XKeep n3 _ | XReplaceSkip n3 _ =>
      all_nodes settled n3 = true /\ (is_member n3 = true -> kept ctx = true)
  | XReplace n3 _ => all_nodes shaped n3 = true
  | XThrow _ => True
  end.
Proof.
  intros NP SK MK SH AE. unfold call_exit. rewrite NP.
  assert (Plain : type_of n <> "AssignmentExpression" ->
                  type_of n <> "UpdateExpression" ->
                  all_nodes settled n = true).
  { intros TA TU. apply String.eqb_neq in TA, TU. apply all_from_kids; [|exact SK].
    unfold settled. rewrite SH, andb_true_r. unfold mediated. rewrite TA, TU, !andb_true_r.
    destruct (String.eqb (type_of n) "CallExpression") eqn:TC; [reflexivity|].
    apply (members_kept_none _ _ _ MK). intros k. rewrite kept_child, TC, TA, TU. reflexivity. }
  destruct (String.eqb (type_of n) "MemberExpression") eqn:TM.
  { apply String.eqb_eq in TM.
    unfold MemberExpression_exit.
    destruct (_ || _) eqn:C1.
    { split; [apply Plain; rewrite TM; discriminate|]. intros _. unfold kept.
      rewrite <- orb_assoc, C1. apply orb_true_r. }
    destruct (String.eqb (parent_type ctx) "CallExpression") eqn:C2.
    { split; [apply Plain; rewrite TM; discriminate|]. intros _. unfold kept.
      rewrite C2. reflexivity. }
    unfold required.
    destruct (child "object" n) as [o|] eqn:O; [|exact I].
    destruct (child "property" n) as [q|] eqn:Q; [|exact I].
    pose proof (all_child' settled _ _ _ SK O) as HO.
    pose proof (all_child' settled _ _ _ SK Q) as HQ.
    destruct (attr_b "computed" n) as [[|]|];
      try (destruct (negb (String.eqb (type_of q) "Identifier")); [exact I|]);
      (split; [|discriminate]); apply settled_dynCheck; cbn [all_list];
      rewrite ?HO, ?HQ; reflexivity. }
  destruct (String.eqb (type_of n) "AssignmentExpression") eqn:TA.
  { apply String.eqb_eq in TA. specialize (AE TA).
    unfold AssignmentExpression_exit. rewrite AE.
    cbn [String.eqb Ascii.eqb Bool.eqb negb].
    destruct (negb (has_type "Identifier" (child "left" n)) &&
              negb (has_type "MemberExpression" (child "left" n))); [exact I|].
    unfold shaped in SH. rewrite TA in SH.
    cbn [String.eqb Ascii.eqb Bool.eqb includes existsb orb] in SH.
    rewrite !andb_true_r in SH.
    destruct (two_fields_shape _ _ _ SH) as (l & r & K).
    assert (L : child "left" n = Some l) by (unfold child; rewrite K; reflexivity).
    assert (R : child "right" n = Some r) by (unfold child; rewrite K; reflexivity).
    pose proof (all_child' settled _ _ _ SK L) as HL.
    pose proof (all_child' settled _ _ _ SK R) as HR.
    rewrite L. cbn [has_type].
    destruct (String.eqb (type_of l) "Identifier") eqn:TI.
    - split; [|unfold is_member; rewrite TA; discriminate].
      apply all_from_kids; [|exact SK].
      unfold settled, shaped, mediated. rewrite TA.
      cbn [String.eqb Ascii.eqb Bool.eqb includes existsb orb andb].
      rewrite AE, L, SH. cbn [has_type String.eqb Ascii.eqb Bool.eqb andb]. rewrite TI.
      rewrite !andb_true_r.
      apply (two_fields_members ctx n l r K TA MK).
      unfold is_member. apply String.eqb_eq in TI. rewrite TI. reflexivity.
    - unfold required. rewrite R.
      destruct (child "object" l) as [o|] eqn:O; [|exact I].
      destruct (child "property" l) as [q|] eqn:Q; [|exact I].
      pose proof (all_child settled _ _ _ HL O) as HO.
      pose proof (all_child settled _ _ _ HL Q) as HQ.
      destruct (propertyAsString l) as [name|e] eqn:PS; [|exact I].
      pose proof (settled_propertyAsString _ _ HL PS) as HN.
      destruct (attr_b "computed" l) as [[|]|];
        (split; [|discriminate]); apply settled_dynCheck; cbn [all_list];
        rewrite ?HO, ?HQ, ?HR, ?HN; reflexivity. }
  destruct (String.eqb (type_of n) "BinaryExpression") eqn:TB.
  { apply String.eqb_eq in TB. unfold BinaryExpression_exit, required.
    assert (K : all_nodes settled n = true /\ (is_member n = true -> kept ctx = true)).
    { split; [apply Plain; rewrite TB; discriminate|].
      unfold is_member. rewrite TB. discriminate. }
    destruct (child "left" n) as [l|] eqn:L; destruct (child "right" n) as [r|] eqn:R;
      try pose proof (all_child' settled _ _ _ SK L) as HL;
      try pose proof (all_child' settled _ _ _ SK R) as HR;
      destruct (includes (attr_s "operator" n) numOrStringOperators);
      destruct (includes (attr_s "operator" n) numOperators);
      cbn [orb]; try exact I; try exact K;
      (split; [|discriminate]); apply settled_dynCheck; cbn [all_list];
      rewrite ?HL, ?HR; reflexivity. }
  destruct (String.eqb (type_of n) "NewExpression") eqn:TN.
  { apply String.eqb_eq in TN. unfold NewExpression_exit.
    destruct (child "callee" n) as [callee|]; [|exact I].
    destruct (_ && _).
    - unfold newExpression, memberExpression, identifier.
      repeat (rewrite all_nodes_unfold; cbn [all_kids all_kid all_list]).
      assert (A : all_list (all_nodes shaped) (children "arguments" n) = true).
      { pose proof (all_children' settled "arguments" n SK) as A.
        clear - A. induction (children "arguments" n) as [|c cs IH]; [reflexivity|].
        cbn [all_list] in *. apply andb_prop in A as [A1 A2]. rewrite (IH A2), andb_true_r.
        apply settled_shaped. exact A1. }
      rewrite A. reflexivity.
    - split; [apply Plain; rewrite TN; discriminate|].
      unfold is_member. rewrite TN. discriminate. }
  destruct (String.eqb (type_of n) "UpdateExpression") eqn:TU.
  { apply String.eqb_eq in TU. unfold UpdateExpression_exit.
    unfold shaped in SH. rewrite TU in SH.
    cbn [String.eqb Ascii.eqb Bool.eqb includes existsb orb andb] in SH.
    rewrite andb_true_r in SH.
    destruct (child "argument" n) as [a|] eqn:A; [|exact I].
    pose proof (all_child' settled _ _ _ SK A) as HA.
    destruct (_ && _); [exact I|].
    destruct (String.eqb (type_of a) "Identifier") eqn:TI.
    - split; [|discriminate].
      assert (Hn : all_nodes settled n = true).
      { apply all_from_kids; [|exact SK].
        unfold settled, shaped, mediated. rewrite TU.
        cbn [String.eqb Ascii.eqb Bool.eqb includes existsb orb andb].
        rewrite A, SH. cbn [has_type]. rewrite TI, !andb_true_r.
        unfold one_field in SH. unfold child in A.
        destruct (kids_of n) as [|[k [c|]] [|]] eqn:K; try discriminate SH.
        cbn [lookup] in A. apply String.eqb_eq in SH. subst k.
        cbn [String.eqb Ascii.eqb Bool.eqb] in A. injection A as ->.
        cbn [all_kids]. unfold not_member, is_member.
        apply String.eqb_eq in TI. rewrite TI. reflexivity. }
      unfold sequenceExpression.
      repeat (rewrite all_nodes_unfold; cbn [all_kids all_kid all_list]).
      rewrite Hn, andb_true_r.
      rewrite (settled_dynCheck "updateOnlyNumbers" [stringLiteral (attr_s "operator" n); a])
        by (cbn [all_list]; rewrite HA; reflexivity).
      rewrite andb_true_r. unfold settled, mediated, shaped. cbn.
      unfold dynCheck, callExpression, not_member, is_member. cbn.
      rewrite TU. reflexivity.
    - unfold required. destruct (child "object" a) as [o|] eqn:O; [|exact I].
      pose proof (all_child settled _ _ _ HA O) as HO.
      destruct (propertyAsString a) as [name|e] eqn:PS; [|exact I].
      pose proof (settled_propertyAsString _ _ HA PS) as HN.
      split; [|discriminate]. apply settled_dynCheck. cbn [all_list].
      rewrite HO, HN. reflexivity. }
  split; [apply Plain; apply String.eqb_neq; assumption|].
  unfold is_member. rewrite TM. discriminate.
Qed.

(** What [enter] puts in the place of a compound assignment has the
    fields of the assignment. *)
Lemma enter_replaced_shaped ctx n st n' st1 :
  call_enter ctx n st = EReplace n' st1 ->
  all_nodes shaped n = true -> all_nodes shaped n' = true.
Proof.
  intros H W. apply call_enter_replaces in H as [T H].
  unfold AssignmentExpression_enter in H.
  destruct (negb (includes _ allowed));
    [unfold with_error in H; destruct (error _ _ _); discriminate H|].
  destruct (_ && _);
    [unfold with_error in H; destruct (error _ _ _); discriminate H|].
  destruct (String.eqb (attr_s "operator" n) "="); [discriminate H|].
  destruct (child "left" n) as [lhs|] eqn:L; [|discriminate H].
  unfold required in H. destruct (child "right" n) as [rhs|] eqn:R; [|discriminate H].
  pose proof (all_child shaped _ _ _ W L) as Wl.
  pose proof (all_child shaped _ _ _ W R) as Wr.
  destruct (String.eqb (type_of lhs) "Identifier").
  - destruct (unassign _); [|discriminate H]. injection H as <- <-.
    unfold assignmentExpression, binaryExpression.
    repeat (rewrite all_nodes_unfold; cbn [all_kids all_kid all_list]).
    rewrite Wl, Wr. reflexivity.
  - cbn [generateUidIdentifier] in H.
    destruct (enclosingScopeBlock_push _ _ _); [|discriminate H].
    destruct (child "object" lhs) as [o|] eqn:O;
      destruct (child "property" lhs) as [q|] eqn:Q;
      try discriminate H;
      destruct (unassign _); try discriminate H.
    injection H as <- <-.
    unfold sequenceExpression, assignmentExpression, binaryExpression, memberExpression,
      identifier.
    repeat (rewrite all_nodes_unfold; cbn [all_kids all_kid all_list]).
    rewrite (all_child shaped _ _ _ Wl O), (all_child shaped _ _ _ Wl Q), Wr. reflexivity.
Qed.

(** A block statement stays one. *)
Lemma visit_block_type fuel ctx c st c' st' :
  visit fuel ctx c st = Done c' st' ->
  type_of c = "BlockStatement" -> type_of c' = "BlockStatement".
Proof.
  destruct fuel as [|f]; [discriminate|]. destruct c as [ty loc attrs kids].
  rewrite visit_unfold. cbn [type_of]. intros H ->.
  change (call_enter ctx (Node "BlockStatement" loc attrs kids) st) with (EContinue attrs st) in H.
  unfold after_enter in H.
  cbn [owns_block includes existsb String.eqb Ascii.eqb Bool.eqb orb] in H.
  destruct (visit_kids _ _ _ _ _) as [kids' st2| |]; try discriminate H.
  change (call_exit ctx (Node "BlockStatement" loc attrs kids') st2)
    with (XKeep (Node "BlockStatement" loc attrs kids') st2) in H.
  injection H as <- _. reflexivity.
Qed.

Lemma members_kept_lookup ctx ty ks k c :
  members_kept ctx ty ks -> lookup k ks = Some (One c) ->
  is_member c = true -> kept (child_ctx ctx ty k) = true.
Proof.
  intros M. induction M as [|[k0 v] ks Hv _ IH]; [discriminate|].
  cbn [lookup]. destruct (String.eqb_spec k k0) as [->|N]; [|exact IH].
  intros [= ->]. exact Hv.
Qed.

Lemma members_kept_update ctx ty ks k c :
  members_kept ctx ty ks -> is_member c = false ->
  members_kept ctx ty (update k (One c) ks).
Proof.
  intros M C. induction M as [|[k0 v] ks Hv M IH]; cbn [update].
  - constructor; [|constructor]. cbn [snd]. rewrite C. discriminate.
  - destruct (String.eqb k k0).
    + constructor; [|exact M]. cbn [snd]. rewrite C. discriminate.
    + constructor; [exact Hv|exact IH].
Qed.

Lemma same_fields_two k1 k2 ty loc attrs attrs' ks ks' :
  same_fields ks ks' ->
  two_fields k1 k2 (Node ty loc attrs ks) = true ->
  two_fields k1 k2 (Node ty loc attrs' ks') = true.
Proof.
  unfold two_fields. cbn [kids_of]. intros F.
  destruct F as [|[a x] [a' x'] ks ks' [Ea Ex] F]; [discriminate|].
  destruct F as [|[b y] [b' y'] ks ks' [Eb Ey] F]; [destruct x; discriminate|].
  cbn [fst snd] in *. subst a' b'.
  destruct x, x', y, y'; try discriminate; destruct F; try discriminate. auto.
Qed.

Lemma same_fields_one k ty loc attrs attrs' ks ks' :
  same_fields ks ks' ->
  one_field k (Node ty loc attrs ks) = true ->
  one_field k (Node ty loc attrs' ks') = true.
Proof.
  unfold one_field. cbn [kids_of]. intros F.
  destruct F as [|[a x] [a' x'] ks ks' [Ea Ex] F]; [discriminate|].
  cbn [fst snd] in *. subst a'.
  destruct x, x'; try discriminate; destruct F; try discriminate. auto.
Qed.

Lemma kids_update (q : node -> bool) k v ks :
  all_kid q v = true -> all_kids q ks = true -> all_kids q (update k v ks) = true.
Proof.
  intros V. induction ks as [|[k' v'] rest IH]; cbn [update all_kids].
  - intros _. destruct v; cbn [all_kid] in V; rewrite V; reflexivity.
  - intros H. destruct (String.eqb k k'); cbn [all_kids].
    + destruct v'; apply andb_prop in H as [_ H]; destruct v; cbn [all_kid] in V;
        rewrite H, V; reflexivity.
    + destruct v'; apply andb_prop in H as [H1 H2]; rewrite H1, (IH H2); reflexivity.
Qed.

Lemma kids_lookup (q : node -> bool) k ks v :
  all_kids q ks = true -> lookup k ks = Some v -> all_kid q v = true.
Proof.
  induction ks as [|[k' v'] rest IH]; [discriminate 2|].
  cbn [all_kids lookup]. intros H.
  destruct (String.eqb k k').
  - intros [= <-]. destruct v'; apply andb_prop in H as [H _]; exact H.
  - apply IH. destruct v'; apply andb_prop in H as [_ H]; exact H.
Qed.

Lemma list_app (q : node -> bool) l1 l2 :
  all_list q l1 = true -> all_list q l2 = true -> all_list q (l1 ++ l2) = true.
Proof.
  intros H1 H2. induction l1 as [|c l1 IH]; [exact H2|].
  cbn [all_list List.app] in *. apply andb_prop in H1 as [A B]. rewrite A, (IH B).
  reflexivity.
Qed.

Lemma settled_tmp_declarations tmps :
  all_list (all_nodes settled) (map tmp_declaration tmps) = true /\
  all_list not_member (map tmp_declaration tmps) = true.
Proof.
  induction tmps as [|t tmps [IH1 IH2]]; [split; reflexivity|].
  cbn [map all_list]. rewrite IH1, IH2. split; [|reflexivity].
  rewrite andb_true_r. unfold tmp_declaration, variableDeclaration, variableDeclarator,
    identifier.
  repeat (rewrite all_nodes_unfold; cbn [all_kids all_kid all_list]). reflexivity.
Qed.

(** A block onto which declarations have been pushed. *)
Lemma settled_push tmps block :
  type_of block = "BlockStatement" ->
  all_nodes settled block = true ->
  all_nodes settled (push_Many "body" (map tmp_declaration tmps) block) = true.
Proof.
  intros T H. destruct (settled_tmp_declarations tmps) as [D1 D2].
  pose proof (all_head _ _ H) as Hd. pose proof (all_kids_of _ _ H) as K.
  destruct block as [ty loc attrs kids]. cbn [type_of kids_of] in *. subst ty.
  unfold push_Many. cbn [type_of loc_of attrs_of kids_of].
  rewrite all_nodes_unfold. apply andb_true_intro. split.
  - unfold settled, mediated, shaped in *.
    cbn [type_of kids_of String.eqb Ascii.eqb Bool.eqb includes existsb orb andb] in *.
    rewrite ?andb_true_r in *.
    apply kids_update; [|exact Hd]. cbn [all_kid]. apply list_app; [|exact D2].
    unfold children. cbn [kids_of].
    destruct (lookup "body" kids) as [[c|cs]|] eqn:L; try reflexivity.
    apply (kids_lookup _ _ _ _ Hd L).
  - apply all_kids_update; [|exact K]. cbn [all_kid]. rewrite all_list_app, D1, andb_true_r.
    unfold children. cbn [kids_of].
    destruct (lookup "body" kids) as [[c|cs]|] eqn:L; try reflexivity.
    apply (all_lookup _ _ _ _ K L).
Qed.

(** The node that the [exit] handler receives, when the children are
    instrumented. *)
Lemma exit_node_settled ctx ty loc attrs' kids' tmps :
  String.eqb ty "Program" = false ->
  all_kids (all_nodes settled) kids' = true ->
  members_kept ctx ty kids' ->
  shaped (Node ty loc attrs' kids') = true ->
  let n2 := if owns_block ty then append_body tmps (Node ty loc attrs' kids')
            else Node ty loc attrs' kids' in
  type_of n2 = ty /\ attrs_of n2 = attrs' /\
  all_kids (all_nodes settled) (kids_of n2) = true /\
  members_kept ctx ty (kids_of n2) /\ shaped n2 = true.
Proof.
  intros NP K M S. cbv zeta.
  destruct (owns_block ty) eqn:OB; [|auto].
  unfold append_body. destruct tmps as [|t tmps]; [auto|].
  cbn [type_of loc_of attrs_of]. rewrite NP.
  destruct (child "body" (Node ty loc attrs' kids')) as [block|] eqn:B; [|auto].
  cbn [type_of attrs_of kids_of].
  unfold owns_block in OB. cbn [includes existsb] in OB. rewrite NP in OB. cbn [orb] in OB.
  assert (TA : String.eqb ty "AssignmentExpression" = false).
  { destruct (String.eqb_spec ty "AssignmentExpression") as [->|]; [discriminate OB|reflexivity]. }
  assert (TU : String.eqb ty "UpdateExpression" = false).
  { destruct (String.eqb_spec ty "UpdateExpression") as [->|]; [discriminate OB|reflexivity]. }
  unfold shaped in S |- *. cbn [type_of includes existsb] in S |- *.
  rewrite TA, TU, OB in S |- *. cbn [andb] in S |- *. rewrite B in S. cbn [has_type] in S.
  apply String.eqb_eq in S.
  pose proof (all_child' settled "body" (Node ty loc attrs' kids') block K B) as HB.
  assert (NM : is_member block = false) by (unfold is_member; rewrite S; reflexivity).
  repeat split.
  - apply all_kids_update; [|exact K]. cbn [all_kid]. apply settled_push; assumption.
  - apply members_kept_update; [exact M|]. unfold is_member, push_Many. cbn [type_of].
    exact NM.
  - unfold child. cbn [kids_of]. rewrite lookup_update_same. cbn [has_type].
    unfold push_Many. cbn [type_of]. rewrite S. reflexivity.
Qed.

Lemma shaped_visited fuel ctx ty loc attrs attrs' kids st kids' st' :
  visit_kids fuel ctx ty kids st = KDone kids' st' ->
  shaped (Node ty loc attrs kids) = true -> shaped (Node ty loc attrs' kids') = true.
Proof.
  intros V S. pose proof (visit_kids_same_fields _ _ _ _ _ _ _ V) as F.
  unfold shaped in *. cbn [type_of] in *.
  apply andb_prop in S as [S S3]. apply andb_prop in S as [S1 S2].
  apply andb_true_intro; split; [apply andb_true_intro; split|].
  - destruct (String.eqb ty "AssignmentExpression"); [|reflexivity].
    eapply same_fields_two; eauto.
  - destruct (String.eqb ty "UpdateExpression"); [|reflexivity].
    eapply same_fields_one; eauto.
  - destruct (includes ty _); [|reflexivity].
    unfold child in *. cbn [kids_of] in *.
    destruct (lookup "body" kids) as [[b|]|] eqn:L; try discriminate S3.
    destruct (visit_kids_child _ _ _ _ _ _ _ _ _ V L) as (s & c' & s' & L' & Vc).
    rewrite L'. cbn [has_type] in *. apply String.eqb_eq in S3.
    rewrite (visit_block_type _ _ _ _ _ _ Vc S3). reflexivity.
Qed.

Section settle.

Variable f : nat.
Hypothesis IHf : forall n, settles f n.

Lemma visit_settles_step n : settles (S f) n.
Proof.
  induction n as [ty loc attrs kids IH] using node_induction.
  intros ctx st c' st' P W H E.
  pose proof P as P0. rewrite program_free_unfold in P.
  apply andb_prop in P as [NP PK]. apply negb_true_iff in NP.
  pose proof W as W0. rewrite all_nodes_unfold in W. apply andb_prop in W as [WH WK].
  rewrite visit_unfold in H.
  pose proof (call_enter_post ctx (Node ty loc attrs kids) st NP) as EP.
  destruct (call_enter ctx (Node ty loc attrs kids) st) as [attrs' st1|st1|n' st1|e] eqn:En;
    cbn [enter_post] in EP.
  - destruct EP as (extra1 & E1 & _).
    unfold after_enter in H. cbn [pred] in H.
    set (st1' := if owns_block ty then set_pending [] st1 else st1) in *.
    assert (Est1 : errors st1' = errors st1)
      by (subst st1'; destruct (owns_block ty); reflexivity).
    destruct (visit_kids (S f) ctx ty kids st1') as [kids' st2| |] eqn:VK; try discriminate H.
    destruct (visit_kids_extends _ _ _ _ _ _ _ PK VK) as (extra2 & E2).
    destruct (visit_kids_grows _ _ _ _ _ _ _ PK VK) as [PK' _].
    pose proof (exit_grows ctx ty loc attrs' kids' st1 st2 NP PK') as X.
    set (n2 := if owns_block ty then append_body (pending st2) (Node ty loc attrs' kids')
               else Node ty loc attrs' kids') in *.
    set (st2' := if owns_block ty then set_pending (pending st1) st2 else st2) in *.
    assert (E3 : exists extra3, errors st' = (errors st2 ++ extra3)%list).
    { destruct (call_exit ctx n2 st2') as [n3 st3|n3 st3|n3 st3|e]; try discriminate H.
      - injection H as _ <-. exists []. rewrite X, app_nil_r. reflexivity.
      - injection H as _ <-. exists []. rewrite X, app_nil_r. reflexivity.
      - destruct X as [X P3]. destruct (visit_extends _ _ _ _ _ _ P3 H) as (x & Hx).
        exists x. rewrite Hx, X. reflexivity. }
    destruct E3 as (extra3 & E3).
    rewrite Est1 in E2.
    assert (E12 : errors st2 = (errors st ++ (extra1 ++ extra2))%list)
      by (rewrite E2, E1, app_assoc; reflexivity).
    destruct (squeeze _ _ _ _ _ E12 E3 E) as [Z2 Z3].
    destruct (squeeze _ _ _ _ _ E1 E2 Z2) as [Z1 Z21].
    assert (Zk : errors st2 = errors st1') by congruence.
    destruct (visit_kids_settles _ _ _ _ _ _ _ IH PK WK VK Zk) as [SK MK].
    pose proof (shaped_visited _ _ _ loc _ attrs' _ _ _ _ VK WH) as S'.
    destruct (exit_node_settled ctx ty loc attrs' kids' (pending st2) NP SK MK S')
      as (T2 & A2 & K2 & M2 & S2).
    fold n2 in T2, A2, K2, M2, S2.
    assert (AE : type_of n2 = "AssignmentExpression" -> attr_s "operator" n2 = "=").
    { rewrite T2. intros ->.
      change (call_enter ctx (Node "AssignmentExpression" loc attrs kids) st)
        with (AssignmentExpression_enter ctx (Node "AssignmentExpression" loc attrs kids) st) in En.
      apply AssignmentExpression_enter_continues in En as (Ea & Op & _).
      unfold attr_s in *. rewrite A2, Ea. exact Op. }
    rewrite <- T2 in NP, M2.
    pose proof (exit_settles ctx n2 st2' NP K2 M2 S2 AE) as XS.
    destruct (call_exit ctx n2 st2') as [n3 st3|n3 st3|n3 st3|e]; try discriminate H.
    + injection H as <- <-. exact XS.
    + injection H as <- <-. exact XS.
    + destruct X as [X P3]. apply (IHf n3 ctx st3 c' st' P3 XS H). congruence.
  - destruct EP as (e & EP). injection H as _ <-. rewrite EP in E.
    rewrite <- (app_nil_r (errors st)) in E at 2. apply app_inv_head in E. discriminate E.
  - destruct EP as (E0 & P').
    apply (IHf n' ctx st1 c' st' (P' P0) (enter_replaced_shaped _ _ _ _ _ En W0) H).
    congruence.
  - discriminate H.
Qed.

End settle.

Lemma visit_settles fuel n : settles fuel n.
Proof.
  revert n. induction fuel as [|f IH]; intros n.
  - intros ctx st c' st' _ _ H. discriminate H.
  - apply visit_settles_step. exact IH.
Qed.

(** The program once declarations have been pushed onto its body and
    the binding of the runtime system has been put before it. *)
Lemma settled_program_body loc attrs kids cs :
  all_kids (all_nodes settled) kids = true ->
  all_kids not_member kids = true ->
  all_list (all_nodes settled) cs = true -> all_list not_member cs = true ->
  all_nodes settled (Node "Program" loc attrs (update "body" (Many cs) kids)) = true.
Proof.
  intros K M C1 C2. rewrite all_nodes_unfold. apply andb_true_intro. split.
  - unfold settled, mediated, shaped.
    cbn [type_of kids_of String.eqb Ascii.eqb Bool.eqb includes existsb orb andb].
    rewrite ?andb_true_r. apply kids_update; assumption.
  - apply all_kids_update; assumption.
Qed.

Lemma settled_loader st :
  all_nodes settled (loader st) = true /\ not_member (loader st) = true.
Proof.
  unfold loader, rtsExpression. destruct (isOnline (opts st)); split; reflexivity.
Qed.

Lemma settled_Program_exit loc attrs kids tmps st n' st' :
  all_kids (all_nodes settled) kids = true ->
  members_kept root "Program" kids ->
  Program_exit (append_body tmps (Node "Program" loc attrs kids)) st = XKeep n' st' ->
  all_nodes settled n' = true.
Proof.
  intros K M H.
  assert (NM : all_kids not_member kids = true).
  { apply (members_kept_none _ _ _ M). intros k. reflexivity. }
  destruct (settled_tmp_declarations tmps) as [D1 D2].
  assert (C : forall ks, all_kids (all_nodes settled) ks = true ->
                         all_kids not_member ks = true ->
              all_list (all_nodes settled) (children "body" (Node "Program" loc attrs ks)) = true /\
              all_list not_member (children "body" (Node "Program" loc attrs ks)) = true).
  { intros ks K1 K2. unfold children. cbn [kids_of].
    destruct (lookup "body" ks) as [[c|cs]|] eqn:L; try (split; reflexivity).
    split; [apply (all_lookup _ _ _ _ K1 L)|apply (kids_lookup _ _ _ _ K2 L)]. }
  assert (A : all_kids (all_nodes settled)
                (kids_of (append_body tmps (Node "Program" loc attrs kids))) = true /\
              all_kids not_member
                (kids_of (append_body tmps (Node "Program" loc attrs kids))) = true /\
              exists ks, append_body tmps (Node "Program" loc attrs kids) =
                         Node "Program" loc attrs ks).
  { unfold append_body. destruct tmps as [|t tmps]; [eauto|].
    cbn [type_of String.eqb Ascii.eqb Bool.eqb]. unfold push_Many.
    cbn [type_of loc_of attrs_of kids_of].
    destruct (C kids K NM) as [C1 C2].
    repeat split.
    - apply all_kids_update; [|exact K]. cbn [all_kid]. rewrite all_list_app, C1, D1.
      reflexivity.
    - apply kids_update; [|exact NM]. cbn [all_kid]. apply list_app; assumption.
    - eauto. }
  destruct A as (A1 & A2 & ks & A3). rewrite A3 in *. cbn [kids_of] in A1, A2.
  unfold Program_exit in H.
  destruct (Nat.ltb 0 (List.length (errors st))); [discriminate H|].
  destruct (C ks A1 A2) as [C1 C2]. destruct (settled_loader st) as [L1 L2].
  destruct (negb _); injection H as <- _.
  - cbn [type_of loc_of attrs_of kids_of]. apply settled_program_body; try assumption.
    cbn [all_list]. rewrite C1. unfold loader in L1. rewrite L1. reflexivity.
  - apply all_from_kids; [|exact A1].
    unfold settled, mediated, shaped.
    cbn [type_of kids_of String.eqb Ascii.eqb Bool.eqb includes existsb orb andb].
    rewrite ?andb_true_r. exact A2.
Qed.



End VisitorLaws.
